(** * dcc.py: method selection and listing rewrite, embedded in Rocq

    A shallow embedding of [src/dcc.py] (the driver of dex2c): the
    [MethodFilter] rule engine, [compile_dex], the smali listing patcher
    [native_class_methods], the ABI reconciliation [adjust_application_mk]
    and the orchestration in [dcc_main].

    Conventions.
    - Python [str] values are [string]s over ASCII; the text layer of
      text-mode [open] is modelled after decoding, so a line ends in LF.
    - A Python [dict] is a [gmap], a [set] of hashable values a [gset].
    - Exceptions are the [Raise] outcome of the small monad [M]; log calls
      and calls of external tools are events of the trace. *)

From Stdlib Require Import String Ascii ZArith List Bool Lia.
From stdpp Require Import base decidable option list gmap strings fin_maps fin_sets.
From Equations Require Import Equations.

Open Scope Z_scope.

(* ===================================================================== *)
(** ** Python string primitives *)
(* ===================================================================== *)

Module Py.

(** The characters: LF, and the double quote (kept out of literals). *)
Definition LF : string := String "010"%char "".
Definition DQ : string := String "034"%char "".

(** [str.isspace] on the ASCII range: TAB, LF, VT, FF, CR, FS, GS, RS, US
    and the space. *)
Definition isspace (c : ascii) : bool :=
  let n := nat_of_ascii c in
  ((9 <=? n)%nat && (n <=? 13)%nat) || ((28 <=? n)%nat && (n <=? 32)%nat).

(** [len(s)] *)
Definition len (s : string) : Z := Z.of_nat (String.length s).

(** [bool(s)]: a string is truthy when it is not empty. *)
Definition truthy (s : string) : bool :=
  match s with EmptyString => false | _ => true end.

(** [s.startswith(p)] *)
Definition startswith (s p : string) : bool := String.prefix p s.

(** [s.lstrip()], [s.rstrip()], [s.strip()] *)
Fixpoint lstrip (s : string) : string :=
  match s with
  | String c s' => if isspace c then lstrip s' else s
  | EmptyString => EmptyString
  end.

Fixpoint rstrip (s : string) : string :=
  match s with
  | String c s' =>
      match rstrip s' with
      | EmptyString => if isspace c then EmptyString else String c EmptyString
      | r => String c r
      end
  | EmptyString => EmptyString
  end.

Definition strip (s : string) : string := rstrip (lstrip s).

(** [s.endswith(p)] *)
Fixpoint endswith (s p : string) : bool :=
  String.eqb s p ||
  match s with
  | String _ s' => endswith s' p
  | EmptyString => false
  end.

(** The first index at which [sub] occurs in [s], counted from [i]. *)
Fixpoint find_from (i : nat) (s sub : string) : option nat :=
  if String.prefix sub s then Some i
  else match s with
       | String _ s' => find_from (S i) s' sub
       | EmptyString => None
       end.

(** [s.find(sub)]: the first index, or -1. *)
Definition find (s sub : string) : Z :=
  match find_from 0 s sub with
  | Some i => Z.of_nat i
  | None => -1
  end.

(** [sub in s] *)
Definition contains (sub s : string) : bool :=
  match find_from 0 s sub with Some _ => true | None => false end.

(** The last index at which [sub] occurs in [s], counted from [i]. *)
Fixpoint rfind_from (i : nat) (s sub : string) : option nat :=
  match s with
  | String _ s' =>
      match rfind_from (S i) s' sub with
      | Some j => Some j
      | None => if String.prefix sub s then Some i else None
      end
  | EmptyString => if String.prefix sub s then Some i else None
  end.

(** [s.rfind(sub)] *)
Definition rfind (s sub : string) : Z :=
  match rfind_from 0 s sub with
  | Some i => Z.of_nat i
  | None => -1
  end.

Fixpoint str_take (n : nat) (s : string) : string :=
  match n, s with
  | S k, String c s' => String c (str_take k s')
  | _, _ => EmptyString
  end.

Fixpoint str_drop (n : nat) (s : string) : string :=
  match n, s with
  | S k, String _ s' => str_drop k s'
  | _, _ => s
  end.

(** A slice bound as Python resolves it: a negative bound counts from the
    end, and the result is clamped to [0, len s]. *)
Definition bound (s : string) (i : Z) : nat :=
  Z.to_nat (if i <? 0 then Z.max 0 (len s + i) else Z.min i (len s)).

(** [s[:i]] and [s[i:]] *)
Definition slice_to (s : string) (i : Z) : string := str_take (bound s i) s.
Definition slice_from (s : string) (i : Z) : string := str_drop (bound s i) s.
(** [s[i:j]] *)
Definition slice (s : string) (i j : Z) : string :=
  str_take (bound s j - bound s i) (str_drop (bound s i) s).

(** [s.split(c)] for a separator of one character: never empty. *)
Fixpoint split (c : ascii) (s : string) : list string :=
  match s with
  | EmptyString => [EmptyString]
  | String a s' =>
      if Ascii.eqb a c then EmptyString :: split c s'
      else match split c s' with
           | h :: t => String a h :: t
           | [] => [String a EmptyString]
           end
  end.

(** [l[-1]] on a list of strings that is known not to be empty. *)
Definition last_item (l : list string) : string := List.last l EmptyString.

(** [s.split(sep, 1)] unpacked into two names: [None] stands for the
    [ValueError] of unpacking a one-element list. *)
Definition split_once (s sep : string) : option (string * string) :=
  match find_from 0 s sep with
  | Some i => Some (str_take i s, str_drop (i + String.length sep) s)
  | None => None
  end.

(** [s.replace(old, new)]: every occurrence, left to right, without
    overlap. In [replace_go], [old] is not empty and [skip] counts the
    characters of an occurrence that are still to be passed over; an
    empty [old] occurs before every character and at the end. *)
Fixpoint replace_go (skip : nat) (s old new : string) : string :=
  match s with
  | EmptyString => EmptyString
  | String c s' =>
      match skip with
      | S k => replace_go k s' old new
      | O =>
          if String.prefix old s
          then new +:+ replace_go (String.length old - 1) s' old new
          else String c (replace_go 0 s' old new)
      end
  end.

Fixpoint replace_empty (s new : string) : string :=
  match s with
  | EmptyString => new
  | String c s' => new +:+ String c (replace_empty s' new)
  end.

Definition replace (s old new : string) : string :=
  match old with
  | EmptyString => replace_empty s new
  | _ => replace_go 0 s old new
  end.

(** [sep.join(l)] *)
Definition join (sep : string) (l : list string) : string := String.concat sep l.

(** The lines of a text as [readline] and iteration over a file yield
    them: each ends with its LF, the last one may not. *)
Fixpoint readlines_go (cur : string -> string) (s : string) : list string :=
  match s with
  | EmptyString =>
      match cur EmptyString with EmptyString => [] | l => [l] end
  | String c s' =>
      if Ascii.eqb c "010"%char
      then cur (String c EmptyString) :: readlines_go (fun x => x) s'
      else readlines_go (fun x => cur (String c x)) s'
  end.

Definition readlines (s : string) : list string := readlines_go (fun x => x) s.

(** [fp.writelines(lines)] *)
Definition writelines (lines : list string) : string := String.concat "" lines.

End Py.

Import Py.

(* ===================================================================== *)
(** ** Outcomes, events and the monad of the driver *)
(* ===================================================================== *)

(** What a run can raise. [Exception] is Python's [Exception(msg)];
    [ReError] the [re.error] of [re.compile]; [ValueError] a failed
    unpacking; [TypeError] the concatenation of a string and [None];
    [IndexError] an index out of range; [FileNotFoundError] and
    [FileExistsError] those of [open] and [os.makedirs];
    [CalledProcessError] a failed [subprocess.check_call]; [OtherError]
    what a collaborator raised. *)
Inductive Exn :=
| Exception (msg : string)
| ReError (pattern : string)
| ValueError (msg : string)
| TypeError (msg : string)
| IndexError (msg : string)
| FileNotFoundError (path : string)
| FileExistsError (path : string)
| CalledProcessError (tool : string)
| OtherError (msg : string).

Inductive Res (A : Type) :=
| Val (a : A)
| Raise (e : Exn).
Arguments Val {A} a.
Arguments Raise {A} e.

(** A triple [(cls_name, name, proto)]: the identity of a method and the
    key of the compiled-methods dict. *)
Definition Triple : Type := string * string * string.

(** The observable steps of a run: log records by level, the effects on
    the file system, and the calls of the external tools. *)
Inductive Event :=
| LogDebug (msg : string)
| LogInfo (msg : string)
| LogWarning (msg : string)
| LogError (msg : string)
| EvWriteFile (path content : string)
| EvPatchListing (path : string)
| EvRemove (path : string)
| EvCopyTree (src dst : string)
| EvRmTree (path : string)
| EvCopyFile (src dst : string)
| EvMoveFile (src dst : string)
| EvMakeDirs (path : string)
| EvNdkBuild (project_dir : string)
| EvApktoolDecompile (apk outdir : string)
| EvApktoolCompile (decompiled_dir unsigned_apk : string)
| EvManifestEditor (manifest loader : string)
| EvArchive (project_dir outfile : string)
| EvSign (unsigned_apk signed_apk : string).

#[global] Instance Event_eq_dec : EqDecision Event.
Proof. solve_decision. Defined.

(* ===================================================================== *)
(** ** The method catalog (androguard's view of a dex file) *)
(* ===================================================================== *)

(** An [EncodedMethod] object. [m_id] is the identity of the object: two
    methods of a dex file are distinct objects even when every other
    field agrees, and sets of methods hash by identity. *)
Record Method := {
  m_id : nat;
  m_class_name : string;
  m_name : string;
  m_proto : string;
  m_access_flags : N;
}.

#[global] Instance Method_eq_dec : EqDecision Method.
Proof. solve_decision. Defined.

#[global] Instance Method_countable : Countable Method.
Proof.
  refine (inj_countable'
    (fun m => (m_id m, m_class_name m, m_name m, m_proto m, m_access_flags m))
    (fun t => match t with
              | (i, c, n, p, a) =>
                  {| m_id := i; m_class_name := c; m_name := n;
                     m_proto := p; m_access_flags := a |}
              end) _).
  intros []; reflexivity.
Defined.

(** One entry of [adi.get_method_annotations()], with the objects behind
    its offsets resolved: the method [vm.get_method_by_idx] gives, and the
    type descriptors of the items of its annotation set, in order. *)
Record MethodAnnotation := {
  mi_method : Method;
  mi_annotations : list string;
}.

(** The annotations directory of a class: the type descriptors of the
    class annotation set ([None] when [get_class_annotations_off()] is 0)
    and the method annotations. *)
Record AnnotationsDirectory := {
  adi_class_annotations : option (list string);
  adi_method_annotations : list MethodAnnotation;
}.

(** A [ClassDefItem]: [c_annotations] is [None] when
    [get_annotations_off()] is 0. *)
Record ClassDef := {
  c_methods : list Method;
  c_annotations : option AnnotationsDirectory;
}.

(** A [DalvikVMFormat]: [get_methods()] and [get_classes()]. *)
Record DalvikVM := {
  vm_methods : list Method;
  vm_classes : list ClassDef;
}.

(** Modelled from the spec: [dex2c.util.get_method_triple] is not under
    [src/]. A MethodIdentity is (owning-type descriptor, name,
    parameter/return signature), and conflict detection ignores the return
    type: with [return_type = false] the signature stops at the closing
    parenthesis of the parameter list. *)
Definition get_method_triple (m : Method) (return_type : bool) : Triple :=
  if return_type then (m_class_name m, m_name m, m_proto m)
  else (m_class_name m, m_name m,
        slice_to (m_proto m) (find (m_proto m) ")" + 1)).

(** The concatenation of the three fields of a triple: the full name of
    a method, as [join] of the empty separator gives it. *)
Definition join_triple (t : Triple) : string :=
  match t with (c, n, p) => c +:+ n +:+ p end.

(** The collaborators of [dcc.py] whose code is not under [src/]: the
    helpers of [dex2c.util], Python's [re] ([re_sub pattern repl text]),
    and the translator [Dex2C.get_source_method] (its [inl] is [str(e)]
    of the exception it raised, its [inr] the generated source). *)
Class Collaborators := {
  JniLongName : string -> string -> string -> string;
  get_access_method : N -> list string;
  is_synthetic_method : Method -> bool;
  is_native_method : Method -> bool;
  Regex : Type;
  re_compile : string -> option Regex;
  re_search : Regex -> string -> bool;
  get_source_method : DalvikVM -> Method -> string + string;
  re_sub : string -> string -> string -> string;
}.

(** The module-level options set from the command line. *)
Record Options := {
  skip_synthetic : bool;
  force_keep_libs : bool;
}.

(* ===================================================================== *)
(** ** MethodFilter *)
(* ===================================================================== *)

Section MethodFilter.
Context `{Collaborators}.

Record MethodFilter := {
  _compile_filters : list Regex;
  _keep_filters : list Regex;
  _compile_full_match : gset string;
  conflict_methods : gset Method;
  native_methods : gset (string * string);
  annotated_methods : gset Method;
}.

(** The three rule containers while the rule file is read. *)
Record Rules := {
  r_compile_filters : list Regex;
  r_keep_filters : list Regex;
  r_compile_full_match : gset string;
}.

Definition no_rules : Rules :=
  {| r_compile_filters := []; r_keep_filters := [];
     r_compile_full_match := ∅ |}.

(** One line of the rule file. *)
Definition load_filter_line (rs : Rules) (line : string) : Res Rules :=
  let line := strip line in
  if negb (truthy line) || startswith line "#" then Val rs
  else if startswith line "!" then
    let line := strip (slice_from line 1) in
    match re_compile line with
    | Some r =>
        Val {| r_compile_filters := r_compile_filters rs;
               r_keep_filters := r_keep_filters rs ++ [r];
               r_compile_full_match := r_compile_full_match rs |}
    | None => Raise (ReError line)
    end
  else if startswith line "=" then
    let line := strip (slice_from line 1) in
    Val {| r_compile_filters := r_compile_filters rs;
           r_keep_filters := r_keep_filters rs;
           r_compile_full_match := {[ line ]} ∪ r_compile_full_match rs |}
  else
    match re_compile line with
    | Some r =>
        Val {| r_compile_filters := r_compile_filters rs ++ [r];
               r_keep_filters := r_keep_filters rs;
               r_compile_full_match := r_compile_full_match rs |}
    | None => Raise (ReError line)
    end.

Fixpoint load_filter_lines (rs : Rules) (lines : list string) : Res Rules :=
  match lines with
  | [] => Val rs
  | line :: rest =>
      match load_filter_line rs line with
      | Val rs' => load_filter_lines rs' rest
      | Raise e => Raise e
      end
  end.

(** [_load_filter_configure]: [configure] is the text of the rule file,
    [None] when the file does not exist. *)
Definition _load_filter_configure (configure : option string) : Res Rules :=
  match configure with
  | None => Val no_rules
  | Some text => load_filter_lines no_rules (readlines text)
  end.

(** [_init_conflict_methods]: the loop state is the dict [all_methods]
    and the set [conflict_methods]. *)
Definition conflict_step
    (st : gmap Triple Method * gset Method) (m : Method)
    : gmap Triple Method * gset Method :=
  let '(all_methods, conflicts) := st in
  let method_triple := get_method_triple m false in
  match all_methods !! method_triple with
  | Some m0 => (all_methods, {[ m0 ]} ∪ ({[ m ]} ∪ conflicts))
  | None => (<[ method_triple := m ]> all_methods, conflicts)
  end.

Definition _init_conflict_methods (vm : DalvikVM) : gset Method :=
  snd (fold_left conflict_step (vm_methods vm) (∅, ∅)).

(** [_init_native_methods] *)
Definition native_step (acc : gset (string * string)) (m : Method)
    : gset (string * string) :=
  let '(cls_name, name, _) := get_method_triple m true in
  let access := get_access_method (m_access_flags m) in
  if bool_decide ("native" ∈ access) then {[ (cls_name, name) ]} ∪ acc
  else acc.

Definition _init_native_methods (vm : DalvikVM) : gset (string * string) :=
  fold_left native_step (vm_methods vm) ∅.

(** [_add_annotation_method] *)
Definition _add_annotation_method (annotated : gset Method) (method : Method)
    : gset Method :=
  if negb (is_synthetic_method method) && negb (is_native_method method)
  then {[ method ]} ∪ annotated
  else annotated.

(** The marker test [type_desc.endswith("Dex2C;")]. *)
Definition is_marker (type_desc : string) : bool := endswith type_desc "Dex2C;".

(** The loop over the class annotation set: at the first marker every
    method of the class is added and the loop breaks. The result is the
    flag [annotated_class] and the set. *)
Fixpoint class_annotations_loop
    (c : ClassDef) (annotated : gset Method) (type_descs : list string)
    : bool * gset Method :=
  match type_descs with
  | [] => (false, annotated)
  | type_desc :: rest =>
      if is_marker type_desc
      then (true, fold_left _add_annotation_method (c_methods c) annotated)
      else class_annotations_loop c annotated rest
  end.

(** The loop over the annotation set of one method. *)
Definition method_annotations_step
    (annotated : gset Method) (mi : MethodAnnotation) : gset Method :=
  fold_left
    (fun acc type_desc =>
       if is_marker type_desc then _add_annotation_method acc (mi_method mi)
       else acc)
    (mi_annotations mi) annotated.

(** The body of the loop over the classes. *)
Definition annotation_class_step (annotated : gset Method) (c : ClassDef)
    : gset Method :=
  match c_annotations c with
  | None => annotated
  | Some adi =>
      let '(annotated_class, annotated) :=
        match adi_class_annotations adi with
        | Some type_descs => class_annotations_loop c annotated type_descs
        | None => (false, annotated)
        end in
      if negb annotated_class
      then fold_left method_annotations_step (adi_method_annotations adi) annotated
      else annotated
  end.

Definition _init_annotation_methods (vm : DalvikVM) : gset Method :=
  fold_left annotation_class_step (vm_classes vm) ∅.

(** [MethodFilter(configure, vm)] *)
Definition new_MethodFilter (configure : option string) (vm : DalvikVM)
    : Res MethodFilter :=
  match _load_filter_configure configure with
  | Raise e => Raise e
  | Val rs =>
      Val {| _compile_filters := r_compile_filters rs;
             _keep_filters := r_keep_filters rs;
             _compile_full_match := r_compile_full_match rs;
             conflict_methods := _init_conflict_methods vm;
             native_methods := _init_native_methods vm;
             annotated_methods := _init_annotation_methods vm |}
  end.

(** [rule.search(full_name)] for some rule of the list, in order. *)
Definition any_search (rules : list Regex) (full_name : string) : bool :=
  existsb (fun rule => re_search rule full_name) rules.

(** [should_compile] *)
Definition should_compile (opts : Options) (self : MethodFilter) (method : Method)
    : bool :=
  if bool_decide (method ∈ conflict_methods self) then false
  else if is_synthetic_method method && skip_synthetic opts then false
  else if is_native_method method then false
  else
    let method_triple := get_method_triple method true in
    let '(cls_name, name, _) := method_triple in
    if String.eqb name "<clinit>" then false
    else if bool_decide ((cls_name, name) ∈ native_methods self) then false
    else
      let full_name := join_triple method_triple in
      if any_search (_keep_filters self) full_name then false
      else if bool_decide (full_name ∈ _compile_full_match self) then true
      else if bool_decide (method ∈ annotated_methods self) then true
      else if any_search (_compile_filters self) full_name then true
      else false.

End MethodFilter.

(* ===================================================================== *)
(** ** compile_dex *)
(* ===================================================================== *)

Section CompileDex.
Context `{Collaborators}.

(** The variables the two loops of [compile_dex] update, and the log
    records they emit. *)
Record CompileState := {
  compiled_method_code : gmap Triple string;
  errors : list string;
  X_compiled_method_code : gmap Triple string;
  X_errors : list string;
  cd_log : list Event;
}.

Definition jni_longname_of (t : Triple) : string :=
  match t with (c, n, p) => JniLongName c n p end.

(** The body of [for m in d.get_methods()]. *)
Definition compile_method
    (opts : Options) (method_filter : MethodFilter) (d : DalvikVM)
    (st : CompileState) (m : Method) : CompileState :=
  let method_triple := get_method_triple m true in
  let jni_longname := jni_longname_of method_triple in
  let full_name := join_triple method_triple in
  if 220 <? len jni_longname then
    {| compiled_method_code := compiled_method_code st;
       errors := errors st;
       X_compiled_method_code := X_compiled_method_code st;
       X_errors := X_errors st;
       cd_log := cd_log st ++
         [LogDebug ("name to long " +:+ jni_longname +:+ "(> 220) " +:+ full_name)] |}
  else if should_compile opts method_filter m then
    let log := cd_log st ++ [LogDebug ("compiling " +:+ full_name)] in
    match get_source_method d m with
    | inl e =>
        let errors' := errors st ++ [full_name +:+ ":" +:+ e] in
        {| compiled_method_code := compiled_method_code st;
           errors := errors';
           X_compiled_method_code := X_compiled_method_code st;
           X_errors := X_errors st ++ errors';
           cd_log := log ++
             [LogWarning ("compile method failed:" +:+ full_name +:+ " (" +:+ e +:+ ")")] |}
    | inr code =>
        if truthy code then
          let compiled' := <[ method_triple := code ]> (compiled_method_code st) in
          {| compiled_method_code := compiled';
             errors := errors st;
             X_compiled_method_code := compiled' ∪ X_compiled_method_code st;
             X_errors := X_errors st;
             cd_log := log |}
        else
          {| compiled_method_code := compiled_method_code st;
             errors := errors st;
             X_compiled_method_code := X_compiled_method_code st;
             X_errors := X_errors st;
             cd_log := log |}
    end
  else st.

(** The body of [for i in tmp]: a new filter, fresh [compiled_method_code]
    and [errors], then the loop over the methods of the dex file. *)
Definition compile_one_dex
    (opts : Options) (filtercfg : option string)
    (st : CompileState) (d : DalvikVM) : Res CompileState :=
  match new_MethodFilter filtercfg d with
  | Raise e => Raise e
  | Val method_filter =>
      Val (fold_left (compile_method opts method_filter d) (vm_methods d)
             {| compiled_method_code := ∅;
                errors := [];
                X_compiled_method_code := X_compiled_method_code st;
                X_errors := X_errors st;
                cd_log := cd_log st |})
  end.

Fixpoint compile_dexes
    (opts : Options) (filtercfg : option string)
    (st : CompileState) (tmp : list DalvikVM) : Res CompileState :=
  match tmp with
  | [] => Val st
  | d :: rest =>
      match compile_one_dex opts filtercfg st d with
      | Val st' => compile_dexes opts filtercfg st' rest
      | Raise e => Raise e
      end
  end.

Definition compile_start : CompileState :=
  {| compiled_method_code := ∅; errors := [];
     X_compiled_method_code := ∅; X_errors := []; cd_log := [] |}.

(** [compile_dex(apkfile, filtercfg)], given the dex files [auto_vm]
    finds in the package, in order. The result is the pair the function
    returns; [compile_dex_log] is what it logged on the way. *)
Definition compile_dex
    (opts : Options) (tmp : list DalvikVM) (filtercfg : option string)
    : Res (gmap Triple string * list string) :=
  match compile_dexes opts filtercfg compile_start tmp with
  | Val st => Val (X_compiled_method_code st, X_errors st)
  | Raise e => Raise e
  end.

Definition compile_dex_log
    (opts : Options) (tmp : list DalvikVM) (filtercfg : option string)
    : list Event :=
  match compile_dexes opts filtercfg compile_start tmp with
  | Val st => cd_log st
  | Raise e => []
  end.

End CompileDex.

(* ===================================================================== *)
(** ** native_class_methods: the listing patcher *)
(* ===================================================================== *)

(** The file object [fp] is the list of the lines that are still to be
    read: [next_line()] takes the head, and the empty list is the end of
    the file, where [readline] returns the empty string. The functions
    return the lines they append to [code_lines] and the lines left. *)

(** [handle_annotanion]: every line is copied, up to and including the
    line that ends the annotation. *)
Fixpoint handle_annotanion (fp : list string) : list string * list string :=
  match fp with
  | [] => ([], [])
  | line :: fp' =>
      let s := strip line in
      if String.eqb s ".end annotation" then ([line], fp')
      else let '(copied, rest) := handle_annotanion fp' in (line :: copied, rest)
  end.

Lemma handle_annotanion_rest (fp : list string) :
  (length (snd (handle_annotanion fp)) <= length fp)%nat.
Proof.
  induction fp as [|line fp IH]; cbn; [lia|].
  destruct (String.eqb (strip line) ".end annotation"); cbn; [lia|].
  destruct (handle_annotanion fp); cbn in *; lia.
Qed.

(** The test of [handle_method_body] for an annotation it keeps, on the
    stripped line. *)
Definition keeps_annotation (s : string) : bool :=
  startswith s ".annotation runtime" && (find s "Dex2C" <? 0).

(** [handle_method_body]: lines are read up to the end of the method and
    dropped, except the annotations it keeps. *)
Equations? handle_method_body (fp : list string) : list string * list string
  by wf (length fp) lt :=
handle_method_body [] := ([], []);
handle_method_body (line :: fp') :=
  if String.eqb (strip line) ".end method" then ([], fp')
  else if keeps_annotation (strip line) then
    let r := handle_method_body (snd (handle_annotanion fp')) in
    (line :: fst (handle_annotanion fp') ++ fst r, snd r)
  else handle_method_body fp'.
Proof.
  all: pose proof (handle_annotanion_rest fp'); cbn; lia.
Qed.

Lemma handle_method_body_rest (fp : list string) :
  (length (snd (handle_method_body fp)) <= length fp)%nat.
Proof.
  funelim (handle_method_body fp); simp handle_method_body; cbn; [lia|].
  destruct (String.eqb (strip line) ".end method"); cbn; [lia|].
  destruct (keeps_annotation (strip line)); cbn.
  - pose proof (handle_annotanion_rest fp'). lia.
  - lia.
Qed.

(** The last word of a stripped line, [line.split(" ")[-1]]. *)
Definition last_word (line : string) : string := last_item (split " " line).

(** The key [(class_name, name, proto)] a method header is looked up
    under. *)
Definition header_key (class_name line : string) : Triple :=
  let current_method := last_word line in
  let param := find current_method "(" in
  (class_name, slice_to current_method param, slice_from current_method param).

(** The header of a compiled method as it is left in [code_lines]:
    [raw] is the line as read, [line] the stripped line. *)
Definition native_header (raw line : string) : string :=
  let current_method := last_word line in
  if find line " native " <? 0
  then replace raw current_method ("native " +:+ current_method)
  else raw.

(** The main loop of [native_class_methods], from the current
    [class_name] and the lines still to be read to the lines appended to
    [code_lines]. *)
Equations? scan_listing (compiled_methods : gmap Triple string)
    (class_name : string) (fp : list string) : list string
  by wf (length fp) lt :=
scan_listing compiled_methods class_name [] := [];
scan_listing compiled_methods class_name (raw :: fp') :=
  let line := strip raw in
  if startswith line ".class" then
    raw :: scan_listing compiled_methods (last_word line) fp'
  else if startswith line ".method" then
    if bool_decide (header_key class_name line ∈ dom compiled_methods) then
      native_header raw line :: fst (handle_method_body fp') ++
      (".end method" +:+ LF) ::
      scan_listing compiled_methods class_name (snd (handle_method_body fp'))
    else raw :: scan_listing compiled_methods class_name fp'
  else raw :: scan_listing compiled_methods class_name fp'.
Proof.
  all: pose proof (handle_method_body_rest fp'); cbn; lia.
Qed.

(** [native_class_methods(smali_path, compiled_methods)], from the text
    of the file to the text written back. *)
Definition native_class_methods (text : string)
    (compiled_methods : gmap Triple string) : string :=
  writelines (scan_listing compiled_methods "" (readlines text)).

(* ===================================================================== *)
(** ** The state and the monad of the driver *)
(* ===================================================================== *)

(** What a run has done so far, and the text files it reads and writes,
    by path. *)
Record St := {
  trace : list Event;
  files : gmap string string;
}.

(** A step of the driver: it returns or raises, and leaves a state. *)
Definition M (A : Type) : Type := St -> Res A * St.

Definition ret {A : Type} (a : A) : M A := fun st => (Val a, st).

Definition bind {A B : Type} (m : M A) (f : A -> M B) : M B :=
  fun st =>
    match m st with
    | (Val a, st') => f a st'
    | (Raise e, st') => (Raise e, st')
    end.

Definition raise {A : Type} (e : Exn) : M A := fun st => (Raise e, st).

Definition lift {A : Type} (r : Res A) : M A := fun st => (r, st).

Notation "x <- m ;; k" := (bind m (fun x => k))
  (at level 100, m at next level, right associativity).
Notation "m ;;; k" := (bind m (fun _ => k))
  (at level 100, right associativity).

Definition emit (e : Event) : M unit :=
  fun st => (Val tt, {| trace := trace st ++ [e]; files := files st |}).

(** [open(path, "r").read()], and [open(path, "w").write(content)] for a
    path that can be opened for writing. *)
Definition open_read (path : string) : M string :=
  fun st =>
    match files st !! path with
    | Some content => (Val content, st)
    | None => (Raise (FileNotFoundError path), st)
    end.

Definition open_write (path content : string) : M unit :=
  fun st =>
    (Val tt, {| trace := trace st ++ [EvWriteFile path content];
                files := <[ path := content ]> (files st) |}).

(** [os.remove(path)] *)
Definition os_remove (path : string) : M unit :=
  fun st =>
    (Val tt, {| trace := trace st ++ [EvRemove path];
                files := delete path (files st) |}).

(** [try: m except CalledProcessError: handler] *)
Definition except_called_process_error (m : M unit) (handler : string -> M unit)
    : M unit :=
  fun st =>
    match m st with
    | (Raise (CalledProcessError tool), st') => handler tool st'
    | r => r
    end.

(** A [for] loop with a loop variable [b]. *)
Fixpoint foldM {A B : Type} (f : B -> A -> M B) (b : B) (l : list A) : M B :=
  match l with
  | [] => ret b
  | a :: rest => b' <- f b a ;; foldM f b' rest
  end.

(** A [for] loop. *)
Fixpoint forM {A : Type} (f : A -> M unit) (l : list A) : M unit :=
  match l with
  | [] => ret tt
  | a :: rest => f a ;;; forM f rest
  end.

(** The signing block of [dcc.cfg], for a configuration file that has
    the block with its seven keys, the three switches as JSON booleans
    and the other values as strings. *)
Record Signature := {
  keystore_path : string;
  alias : string;
  keystore_pass : string;
  store_pass : string;
  v1_enabled : bool;
  v2_enabled : bool;
  v3_enabled : bool;
}.

(** What a run finds outside: the file system beyond the text files of
    the state, the package, the configuration, the outcome of the
    external tools, and the order in which Python iterates over a set and
    over a dict. *)
Record World := {
  w_exists : string -> bool;
  w_isdir : string -> bool;
  w_listdir : string -> list string;
  w_namelist : Res (list string);
  w_dexes : Res (list DalvikVM);
  w_application_name : Res string;
  w_decompiled : gmap string string;
  w_tool_fails : Event -> bool;
  w_temp : string -> string;
  w_signature : Signature;
  w_set_order : gset string -> list string;
  w_set_order_perm : forall X, w_set_order X ≡ₚ elements X;
  w_items : gmap Triple string -> list (Triple * string);
  w_items_perm : forall X, w_items X ≡ₚ map_to_list X;
}.

Definition ESC : string := String "027"%char "".

(** [os.path.join] of two parts that get one separator between them:
    the first is not empty and does not end with the separator, the
    second does not start with it. *)
Definition path_join (a b : string) : string := a +:+ "/" +:+ b.

Section Driver.
Context `{Collaborators} (w : World) (opts : Options).

(** [os.path.exists(path)] *)
Definition os_path_exists (path : string) : M bool :=
  fun st => (Val (bool_decide (path ∈ dom (files st)) || w_exists w path), st).

(** [shutil.copy(src, dst)]: it raises when there is nothing at [src],
    before anything is copied; otherwise the copy is an event, and the
    text of a file the state tracks is copied with it. *)
Definition shutil_copy (src dst : string) : M unit :=
  src_exists <- os_path_exists src ;;
  if negb src_exists then raise (FileNotFoundError src)
  else
    fun st =>
      (Val tt, {| trace := trace st ++ [EvCopyFile src dst];
                  files := match files st !! src with
                           | Some content => <[ dst := content ]> (files st)
                           | None => files st
                           end |}).

(** [subprocess.check_call]: the call is an event, and it raises when
    the tool fails. *)
Definition check_call (tool : string) (e : Event) : M unit :=
  emit e ;;;
  if w_tool_fails w e then raise (CalledProcessError tool) else ret tt.

Definition is_apk (name : string) : bool := endswith name ".apk".

(* --------------------------------------------------------------------- *)
(** *** adjust_application_mk *)

Definition supported_abis : gset string :=
  {[ "armeabi-v7a"; "arm64-v8a"; "x86_64"; "x86" ]}.
Definition depreacated_abis : gset string := {[ "armeabi" ]}.

Definition application_mk_path : string := "project/jni/Application.mk".

(** [file_name.split("/")[1].strip()] *)
Definition abi_name_of (file_name : string) : string :=
  strip (nth 1 (split "/" file_name) "").

Definition unsupported_abi (abi_name : string) : Exn :=
  Exception ("ABI '" +:+ abi_name +:+
    "' is unsupported, please remove it from apk or use flag --force-keep-libs and try again").

Definition deprecated_warning : Event :=
  LogWarning "ABI 'armeabi' is depreacated, using 'armeabi-v7a' instead".

(** The body of the loop over [zip_file.namelist()]. *)
Definition abi_step (available_abis : gset string) (file_name : string)
    : M (gset string) :=
  if startswith file_name "lib/" then
    let abi_name := abi_name_of file_name in
    if bool_decide (abi_name ∈ supported_abis) then
      ret ({[ abi_name ]} ∪ available_abis)
    else if bool_decide (abi_name ∈ depreacated_abis) then
      emit deprecated_warning ;;;
      ret ({[ "armeabi-v7a" ]} ∪ available_abis)
    else raise (unsupported_abi abi_name)
  else ret available_abis.

(** A line of [Application.mk] as it is written to the temporary file. *)
Definition rewrite_app_abi (available_abis : gset string) (line : string) : string :=
  if startswith line "APP_ABI"
  then "APP_ABI := " +:+ join " " (w_set_order w available_abis) +:+ LF
  else line.

Definition adjust_application_mk (apkfile : string) : M unit :=
  emit (LogInfo "Adjusting Application.mk file using available abis from apk") ;;;
  if is_apk apkfile then
    names <- lift (w_namelist w) ;;
    available_abis <- foldM abi_step ∅ names ;;
    if bool_decide (size available_abis = 0%nat) then
      emit (LogInfo
        "No lib abis found in apk, using the ones defined in Application.mk file")
    else
      let temp_application_mk_path := w_temp w "-application.mk" in
      text <- open_read application_mk_path ;;
      open_write temp_application_mk_path
        (writelines (map (rewrite_app_abi available_abis) (readlines text))) ;;;
      os_remove application_mk_path ;;;
      shutil_copy temp_application_mk_path application_mk_path
  else raise (Exception (apkfile +:+ " is not an apk file")).

End Driver.

(* ===================================================================== *)
(** ** The stages of dcc_main *)
(* ===================================================================== *)

Section Stages.
Context `{Collaborators} (w : World) (opts : Options).

(** The first line that starts with [LOCAL_MODULE], split at its
    assignment; [None] stands for [None] of Python. *)
Fixpoint read_local_module (lines : list string) : Res (option string) :=
  match lines with
  | [] => Val None
  | line :: rest =>
      if startswith line "LOCAL_MODULE" then
        match split_once line ":=" with
        | Some (_, local_module_value) => Val (Some (strip local_module_value))
        | None => Raise (ValueError "not enough values to unpack (expected 2, got 1)")
        end
      else read_local_module rest
  end.

Definition android_mk_path : string := "project/jni/Android.mk".

(** [copy_compiled_libs]: the body of the loop over the ABI directories
    of the decompiled package. *)
Definition copy_lib (compiled_libs_dir decompiled_libs_dir abi : string) : M unit :=
  let dst := path_join decompiled_libs_dir abi in
  let src := path_join compiled_libs_dir abi in
  src_exists <- os_path_exists w src ;;
  src <- (if negb src_exists && String.eqb abi "armeabi"
          then emit (LogWarning "Use armeabi-v7a for armeabi") ;;;
               ret (path_join compiled_libs_dir "armeabi-v7a")
          else ret src) ;;
  src_exists <- os_path_exists w src ;;
  if negb src_exists then
    if force_keep_libs opts then ret tt
    else raise (Exception ("ABI " +:+ abi +:+ " is not supported!"))
  else
    text <- open_read android_mk_path ;;
    local_module_value <- lift (read_local_module (readlines text)) ;;
    match local_module_value with
    | Some value =>
        shutil_copy w (path_join src ("lib" +:+ value +:+ ".so")) dst
    | None =>
        raise (TypeError ("can only concatenate str (not " +:+ DQ +:+ "NoneType"
                          +:+ DQ +:+ ") to str"))
    end.

Definition copy_compiled_libs (project_dir decompiled_dir : string) : M unit :=
  let compiled_libs_dir := path_join project_dir "libs" in
  let decompiled_libs_dir := path_join decompiled_dir "lib" in
  compiled_exists <- os_path_exists w compiled_libs_dir ;;
  if negb compiled_exists then ret tt
  else
    decompiled_exists <- os_path_exists w decompiled_libs_dir ;;
    if negb decompiled_exists
    then emit (EvCopyTree compiled_libs_dir decompiled_libs_dir)
    else forM (copy_lib compiled_libs_dir decompiled_libs_dir)
              (w_listdir w decompiled_libs_dir).

(** [native_class_methods] on a file of the state. *)
Definition patch_listing (compiled_methods : gmap Triple string)
    (smali_path : string) : M unit :=
  text <- open_read smali_path ;;
  emit (EvPatchListing smali_path) ;;;
  open_write smali_path (native_class_methods text compiled_methods).

(** [native_compiled_dexes]: the listing of the class of every compiled
    method, under every listing tree that has it, once per method. *)
Definition smali_path_of (decompiled_dir classes : string) (t : Triple) : string :=
  let '(cls_name, _, _) := t in
  path_join (path_join decompiled_dir classes) (slice cls_name 1 (-1)) +:+ ".smali".

Definition native_compiled_dexes (decompiled_dir : string)
    (compiled_methods : gmap Triple string) : M unit :=
  let classes_output :=
    List.filter (fun x => 0 <=? find x "smali") (w_listdir w decompiled_dir) in
  todo <- foldM
    (fun todo smali_path =>
       found <- os_path_exists w smali_path ;;
       ret (if found then todo ++ [smali_path] else todo))
    []
    (classes ← classes_output;
     smali_path_of decompiled_dir classes <$> (fst <$> w_items w compiled_methods)) ;;
  forM (patch_listing compiled_methods) todo.

(** [repr] of a string, on the ASCII range: the quotes are double ones
    when the string holds a single quote and no double one; the
    backslash and the quote in use are escaped, TAB, LF and CR are
    written with their letters and the other control characters in
    hexadecimal. *)
Definition BSL : string := String "092"%char "".

Definition hex_digit (n : nat) : ascii :=
  nth n (list_ascii_of_string "0123456789abcdef") "0"%char.

Definition repr_char (quote c : ascii) : string :=
  let n := nat_of_ascii c in
  if Ascii.eqb c quote || Ascii.eqb c "092"%char then BSL +:+ String c ""
  else if Ascii.eqb c "009"%char then BSL +:+ "t"
  else if Ascii.eqb c "010"%char then BSL +:+ "n"
  else if Ascii.eqb c "013"%char then BSL +:+ "r"
  else if (n <? 32)%nat || (n =? 127)%nat
  then BSL +:+ "x" +:+ String (hex_digit (n / 16)) (String (hex_digit (n mod 16)) "")
  else String c "".

Fixpoint repr_chars (quote : ascii) (s : string) : string :=
  match s with
  | EmptyString => EmptyString
  | String c s' => repr_char quote c +:+ repr_chars quote s'
  end.

Definition repr_str (s : string) : string :=
  let quote := if contains "'" s && negb (contains DQ s)
               then "034"%char else "039"%char in
  String quote (repr_chars quote s +:+ String quote "").

(** The text Python prints for a tuple of three strings. *)
Definition repr_triple (t : Triple) : string :=
  let '(c, n, p) := t in
  "(" +:+ repr_str c +:+ ", " +:+ repr_str n +:+ ", " +:+ repr_str p +:+ ")".

(** [write_compiled_methods] *)
Definition write_compiled_method (source_dir : string) (item : Triple * string)
    : M unit :=
  let '(method_triple, code) := item in
  let full_name := jni_longname_of method_triple in
  let filepath := path_join source_dir full_name +:+ ".cpp" in
  found <- os_path_exists w filepath ;;
  (if found
   then emit (LogWarning ("Overwrite file " +:+ filepath +:+ " " +:+
                          repr_triple method_triple))
   else ret tt) ;;;
  open_write filepath ("#include " +:+ DQ +:+ "Dex2C.h" +:+ DQ +:+ LF +:+ code).

Definition write_compiled_methods (project_dir : string)
    (compiled_methods : gmap Triple string) : M unit :=
  let source_dir := path_join (path_join project_dir "jni") "nc" in
  found <- os_path_exists w source_dir ;;
  (if negb found then emit (EvMakeDirs source_dir) else ret tt) ;;;
  forM (write_compiled_method source_dir) (w_items w compiled_methods) ;;;
  open_write (path_join source_dir "compiled_methods.txt")
    (join LF (join_triple <$> (fst <$> w_items w compiled_methods))).

(** [sign], with [move_unsigned] *)
Definition move_unsigned (unsigned_apk signed_apk : string) : M unit :=
  shutil_copy w unsigned_apk signed_apk.

Definition sign (unsigned_apk signed_apk : string) : M unit :=
  emit (LogInfo ("Signing " +:+ unsigned_apk +:+ " -> " +:+ signed_apk)) ;;;
  let signature := w_signature w in
  let keystore := keystore_path signature in
  if negb (v1_enabled signature) && negb (v2_enabled signature)
     && negb (v3_enabled signature)
  then emit (LogWarning "At least one signing scheme should be enabled") ;;;
       move_unsigned unsigned_apk signed_apk
  else
    found <- os_path_exists w keystore ;;
    if negb found
    then emit (LogError "KeyStore not found in defined path, Skipping") ;;;
         move_unsigned unsigned_apk signed_apk
    else check_call w "apksigner" (EvSign unsigned_apk signed_apk).

(** [get_smali_folders] and [get_application_class_file] *)
Definition get_smali_folders (decompiled_dir : string) : list string :=
  List.filter
    (fun f => w_isdir w (decompiled_dir +:+ "/" +:+ f) && startswith f "smali")
    (w_listdir w decompiled_dir).

Fixpoint find_class_file (decompiled_dir fileName : string)
    (smali_folders : list string) : M string :=
  match smali_folders with
  | [] => ret ""
  | smali_folder :: rest =>
      let filePath := decompiled_dir +:+ "/" +:+ smali_folder +:+ "/" +:+ fileName in
      found <- os_path_exists w filePath ;;
      if found then ret filePath
      else find_class_file decompiled_dir fileName rest
  end.

Definition get_application_class_file (decompiled_dir : string)
    (smali_folders : list string) (application_name : string) : M string :=
  if negb (String.eqb application_name "") then
    find_class_file decompiled_dir
      (replace application_name "." "/" +:+ ".smali") smali_folders
  else ret "".

End Stages.

(* ===================================================================== *)
(** ** dcc_main *)
(* ===================================================================== *)

(** [next((i for i, line in enumerate(l) if P(line)), None)], counted
    from [i]. *)
Fixpoint next_index (P : string -> bool) (i : nat) (l : list string) : option nat :=
  match l with
  | [] => None
  | line :: rest => if P line then Some i else next_index P (S i) rest
  end.

(** [l.insert(k, x)] *)
Definition list_insert_at (k : nat) (x : string) (l : list string) : list string :=
  take k l ++ x :: drop k l.

Definition spaces (n : nat) : string := String.concat "" (repeat " " n).

(** The call of the loader that is put into the static initializer. *)
Definition line_to_insert (custom_loader : string) : string :=
  "    invoke-static {}, L" +:+ replace custom_loader "." "/" +:+ ";->initDcc()V" +:+ LF.

(** The static initializer that is appended when the class has none. *)
Definition code_block_to_append (custom_loader : string) : string :=
  LF +:+
  spaces 16 +:+ ".method static final constructor <clinit>()V" +:+ LF +:+
  spaces 20 +:+ ".registers 0" +:+ LF +:+
  LF +:+
  spaces 16 +:+ line_to_insert custom_loader +:+ LF +:+
  LF +:+
  spaces 20 +:+ "return-void" +:+ LF +:+
  spaces 16 +:+ ".end method" +:+ LF +:+
  spaces 16.

Definition clinit_error : Event :=
  LogError "Couldn't read <clinit> method in Application class".

(** The two tests of the search for the place of the call. *)
Definition mentions_clinit (line : string) : bool := contains "<clinit>" line.
Definition mentions_directive (line : string) : bool :=
  contains ".locals" line || contains ".registers" line.

(** The injection of the call into the lines [content] of the listing of
    the application class (the block of [dcc_main] between reading the
    file and writing it back). *)
Definition inject_init_call (custom_loader : string) (content : list string)
    : M (list string) :=
  let index := next_index mentions_clinit 0 content in
  match index with
  | Some index =>
      let locals_index :=
        next_index mentions_directive 0 (drop index content) in
      match locals_index with
      | Some locals_index =>
          ret (list_insert_at (index + locals_index + 1)
                 (line_to_insert custom_loader) content)
      | None => emit clinit_error ;;; ret content
      end
  | None => ret (content ++ [code_block_to_append custom_loader])
  end.

Section DccMain.
Context `{Collaborators} (w : World) (opts : Options).

(** [compile_dex] as a step of the driver: the dex files are the ones
    [auto_vm] finds, the rule file is read from the state, and the log
    records of the function are added to the trace. *)
Definition compile_dex_step (filtercfg : string)
    : M (gmap Triple string * list string) :=
  tmp <- lift (w_dexes w) ;;
  fun st =>
    let configure := files st !! filtercfg in
    (forM emit (compile_dex_log opts tmp configure) ;;;
     lift (compile_dex opts tmp configure)) st.

(** The report of the translator failures, [if errors: ...]. *)
Definition report_errors (errors : list string) : M unit :=
  if negb (bool_decide (errors = [])) then
    emit (LogWarning "================================") ;;;
    emit (LogWarning (join LF errors)) ;;;
    emit (LogWarning "================================")
  else ret tt.

Definition no_methods_message : Event :=
  LogInfo "No methods compiled! Check your filter file.".

(** The part of [dcc_main] that rewrites the decompiled package. The
    error record of a failed manifest editor carries the name of the tool
    for its return code and output. *)
Definition repackage (apkfile custom_loader outapk project_dir : string)
    (compiled_methods : gmap Triple string) : M unit :=
  let decompiled_dir := w_temp w "dcc-apktool-" in
  check_call w "apktool" (EvApktoolDecompile apkfile decompiled_dir) ;;;
  (fun st => (Val tt, {| trace := trace st;
                         files := w_decompiled w ∪ files st |})) ;;;
  native_compiled_dexes w decompiled_dir compiled_methods ;;;
  copy_compiled_libs w opts project_dir decompiled_dir ;;;
  let smali_folders := get_smali_folders w decompiled_dir in
  let loader_file_path := "loader/DccApplication.smali" in
  let temp_loader := w_temp w "-Loader.smali" in
  text <- open_read android_mk_path ;;
  local_module_value <- lift (read_local_module (readlines text)) ;;
  replacement <-
    match local_module_value with
    | Some value =>
        if truthy value
        then ret ("const-string v0, " +:+ DQ +:+ value +:+ DQ)
        else raise (Exception "Invalid LOCAL_MODULE defined in project/jni/Android.mk")
    | None => raise (Exception "Invalid LOCAL_MODULE defined in project/jni/Android.mk")
    end ;;
  let pattern := "const-string v0, " +:+ DQ +:+ "[\w\W]+" +:+ DQ in
  filedata <- open_read loader_file_path ;;
  let filedata := re_sub pattern replacement filedata in
  let filedata :=
    replace filedata "Lamimo/dcc/DccApplication;"
      ("L" +:+ replace custom_loader "." "/" +:+ ";") in
  open_write temp_loader filedata ;;;
  application_class_name <- lift (w_application_name w) ;;
  file_path <- get_application_class_file w decompiled_dir smali_folders
                 application_class_name ;;
  (if String.eqb application_class_name "" || String.eqb file_path "" then
     except_called_process_error
       (emit (LogInfo
          ("Application class not found in the AndroidManifest.xml or doesn't exist in dex, adding "
           +:+ ESC +:+ "[32m" +:+ custom_loader +:+ ESC +:+ "[0m")) ;;;
        check_call w "manifest-editor"
          (EvManifestEditor (decompiled_dir +:+ "/AndroidManifest.xml") custom_loader))
       (fun tool => emit (LogError ("Error: " +:+ tool)))
   else
     emit (LogInfo ("Application class from AndroidManifest.xml, " +:+ ESC +:+ "[32m"
                    +:+ application_class_name +:+ ESC +:+ "[0m")) ;;;
     text <- open_read file_path ;;
     content <- inject_init_call custom_loader (readlines text) ;;
     open_write file_path (writelines content)) ;;;
  match last smali_folders with
  | None => raise (IndexError "list index out of range")
  | Some last_folder =>
      let loaderDir :=
        decompiled_dir +:+ "/" +:+ last_folder +:+ "/" +:+
        replace (slice custom_loader 0 (rfind custom_loader ".")) "." "/" in
      dir_exists <- os_path_exists w loaderDir ;;
      (if dir_exists then raise (FileExistsError loaderDir)
       else emit (EvMakeDirs loaderDir)) ;;;
      shutil_copy w temp_loader
        (decompiled_dir +:+ "/" +:+ last_folder +:+ "/" +:+
         replace custom_loader "." "/" +:+ ".smali") ;;;
      let unsigned_apk := w_temp w "-unsigned.apk" in
      check_call w "apktool" (EvApktoolCompile decompiled_dir unsigned_apk) ;;;
      sign w unsigned_apk outapk
  end.

(** [dcc_main]. [outapk] and [project_dir] are the empty string when
    the command line gives none. *)
Definition dcc_main (apkfile filtercfg custom_loader outapk : string)
    (do_compile : bool) (project_dir source_archive : string) : M unit :=
  apk_exists <- os_path_exists w apkfile ;;
  if negb apk_exists then
    emit (LogError ("Input apk file " +:+ apkfile +:+ " is not exists"))
  else if negb (truthy outapk) then
    emit (LogError (LF +:+ ESC +:+ "[31m[ERROR] Output file name required"
                    +:+ LF +:+ ESC +:+ "[0m"))
  else if rfind custom_loader "." =? -1 then
    emit (LogError (LF +:+ "[ERROR] Custom Loader must have at least one package, such as "
                    +:+ ESC +:+ "[31mDemo." +:+ custom_loader +:+ ESC +:+ "[0m" +:+ LF))
  else
    dex2c_file_data <- open_read "project/jni/nc/Dex2C.cpp" ;;
    let dex2c_file_data :=
      replace dex2c_file_data
        ("env->FindClass(" +:+ DQ +:+ "amimo/dcc/DccApplication" +:+ DQ +:+ ");")
        ("env->FindClass(" +:+ DQ +:+ replace custom_loader "." "/" +:+ DQ +:+ ");") in
    let dex2c_file_data :=
      replace dex2c_file_data "Java_amimo_dcc_DccApplication"
        ("Java_" +:+ replace custom_loader "." "_") in
    open_write "project/jni/nc/Dex2C.cpp" dex2c_file_data ;;;
    (if negb (force_keep_libs opts) then adjust_application_mk w apkfile else ret tt) ;;;
    r <- compile_dex_step filtercfg ;;
    let '(compiled_methods, errors) := r in
    report_errors errors ;;;
    if bool_decide (size compiled_methods = 0%nat) then emit no_methods_message
    else
      project_dir <-
        (if truthy project_dir then
           dir_exists <- os_path_exists w project_dir ;;
           (if negb dir_exists then emit (EvCopyTree "project" project_dir)
            else ret tt) ;;;
           write_compiled_methods w project_dir compiled_methods ;;;
           ret project_dir
         else
           let project_dir := w_temp w "dcc-project-" in
           emit (EvRmTree project_dir) ;;;
           emit (EvCopyTree "project" project_dir) ;;;
           write_compiled_methods w project_dir compiled_methods ;;;
           (if negb do_compile then
              let src_zip := w_temp w "-dcc" +:+ ".zip" in
              emit (EvArchive project_dir src_zip) ;;;
              emit (EvMoveFile src_zip source_archive)
            else ret tt) ;;;
           ret project_dir) ;;
      (if do_compile then check_call w "ndk-build" (EvNdkBuild project_dir)
       else ret tt) ;;;
      if is_apk apkfile && truthy outapk
      then repackage apkfile custom_loader outapk project_dir compiled_methods
      else ret tt.

End DccMain.

(* ===================================================================== *)
(** ** Vocabulary of the statements about the listing patcher *)
(* ===================================================================== *)

(** [raw] is the header of a method of [compiled_methods], read while
    the current class is [class_name]. *)
Definition is_selected (compiled_methods : gmap Triple string)
    (class_name raw : string) : bool :=
  let line := strip raw in
  negb (startswith line ".class") && startswith line ".method" &&
  bool_decide (header_key class_name line ∈ dom compiled_methods).

(** The current class after the line [raw] has been read. *)
Definition class_after (class_name raw : string) : string :=
  let line := strip raw in
  if startswith line ".class" then last_word line else class_name.

(** No line of [lines], read from the class [class_name] on, is the
    header of a method of [compiled_methods]. *)
Fixpoint unselected (compiled_methods : gmap Triple string)
    (class_name : string) (lines : list string) : bool :=
  match lines with
  | [] => true
  | raw :: rest =>
      negb (is_selected compiled_methods class_name raw) &&
      unselected compiled_methods (class_after class_name raw) rest
  end.

(** The body of a method, read as the patcher reads it: lines of its
    own, and annotation blocks from the line that opens one to the line
    that ends it. *)
Inductive BodyItem :=
| Plain (line : string)
| Block (start : string) (content : list string) (stop : string).

Definition item_lines (it : BodyItem) : list string :=
  match it with
  | Plain line => [line]
  | Block start content stop => start :: content ++ [stop]
  end.

(** The lines of a body, in order. *)
Definition body_lines (items : list BodyItem) : list string :=
  concat (map item_lines items).

(** The blocks of a body, line for line, in order. *)
Definition body_blocks (items : list BodyItem) : list string :=
  concat (map (fun it => match it with
                         | Plain _ => []
                         | Block _ _ _ => item_lines it
                         end) items).

(** A reading of a body is faithful when no plain line ends the method
    or opens an annotation the patcher keeps, and every block is opened
    by such a line and ended by the first line that ends an annotation. *)
Definition item_ok (it : BodyItem) : Prop :=
  match it with
  | Plain line =>
      strip line <> ".end method" /\ keeps_annotation (strip line) = false
  | Block start content stop =>
      keeps_annotation (strip start) = true /\
      (forall l, l ∈ content -> strip l <> ".end annotation") /\
      strip stop = ".end annotation"
  end.

(** [tok] occurs in [raw] once: at the end of [pre], and not in [post]. *)
Definition occurs_once (tok pre post : string) : Prop :=
  find_from 0 (pre +:+ tok +:+ post) tok = Some (String.length pre) /\
  find_from 0 post tok = None.

(** A line that opens an annotation block, whatever its visibility, and
    the test for the marker the patcher applies to such a line. *)
Definition opens_annotation (raw : string) : bool :=
  startswith (strip raw) ".annotation ".
Definition names_marker (raw : string) : bool :=
  0 <=? find (strip raw) "Dex2C".

(* ===================================================================== *)
(** ** Vocabulary of the statements about the driver *)
(* ===================================================================== *)

(** An entry of the package under [lib/], and whether its ABI directory
    name is one the reconciliation accepts. *)
Definition lib_entry (file_name : string) : bool := startswith file_name "lib/".

Definition abi_accepted (file_name : string) : bool :=
  bool_decide (abi_name_of file_name ∈ supported_abis) ||
  bool_decide (abi_name_of file_name ∈ depreacated_abis).

(** The reconciled set of a list of entries: the supported names found,
    and the modern name for the deprecated one. *)
Definition reconciled_of (file_name : string) : gset string :=
  if lib_entry file_name then
    if bool_decide (abi_name_of file_name ∈ supported_abis)
    then {[ abi_name_of file_name ]}
    else if bool_decide (abi_name_of file_name ∈ depreacated_abis)
    then {[ "armeabi-v7a" ]}
    else ∅
  else ∅.

Definition reconciled (names : list string) : gset string :=
  ⋃ (reconciled_of <$> names).

(** The warnings of a list of entries: one for each entry under the
    deprecated name. *)
Definition deprecated_warnings (names : list string) : list Event :=
  names ≫= fun file_name =>
    if lib_entry file_name &&
       negb (bool_decide (abi_name_of file_name ∈ supported_abis)) &&
       bool_decide (abi_name_of file_name ∈ depreacated_abis)
    then [deprecated_warning] else [].

(** The first log record of [adjust_application_mk]. *)
Definition adjusting : Event :=
  LogInfo "Adjusting Application.mk file using available abis from apk".

(** The world with another list of package entries. *)
Definition with_namelist (w : World) (namelist : Res (list string)) : World :=
  {| w_exists := w_exists w; w_isdir := w_isdir w; w_listdir := w_listdir w;
     w_namelist := namelist;
     w_dexes := w_dexes w; w_application_name := w_application_name w;
     w_decompiled := w_decompiled w; w_tool_fails := w_tool_fails w;
     w_temp := w_temp w; w_signature := w_signature w;
     w_set_order := w_set_order w; w_set_order_perm := w_set_order_perm w;
     w_items := w_items w; w_items_perm := w_items_perm w |}.

(** The events of the stages before the build: log records and the
    writes, removals and copies of single files. *)
Definition early (e : Event) : bool :=
  match e with
  | LogDebug _ | LogInfo _ | LogWarning _ | LogError _
  | EvWriteFile _ _ | EvRemove _ | EvCopyFile _ _ => true
  | _ => false
  end.

(** A step adds events to the trace, all of them with the property [P]. *)
Definition emits_only {A : Type} (P : Event -> bool) (m : M A) : Prop :=
  forall st, exists t,
    trace (snd (m st)) = trace st ++ t /\ Forall (fun e => P e = true) t.

(** The state with more events. *)
Definition add_events (st : St) (t : list Event) : St :=
  {| trace := trace st ++ t; files := files st |}.

(** What [report_errors] adds to the trace. *)
Definition error_report (errors : list string) : list Event :=
  match errors with
  | [] => []
  | _ => [ LogWarning "================================";
           LogWarning (join LF errors);
           LogWarning "================================" ]
  end.

Section DriverVocabulary.
Context `{Collaborators} (w : World) (opts : Options).

(** [dcc_main] up to the return of [compile_dex]: [None] when one of
    the three checks of the arguments made it return. *)
Definition dcc_main_until_compiled (apkfile filtercfg custom_loader outapk : string)
    : M (option (gmap Triple string * list string)) :=
  apk_exists <- os_path_exists w apkfile ;;
  if negb apk_exists then
    emit (LogError ("Input apk file " +:+ apkfile +:+ " is not exists")) ;;; ret None
  else if negb (truthy outapk) then
    emit (LogError (LF +:+ ESC +:+ "[31m[ERROR] Output file name required"
                    +:+ LF +:+ ESC +:+ "[0m")) ;;; ret None
  else if rfind custom_loader "." =? -1 then
    emit (LogError (LF +:+ "[ERROR] Custom Loader must have at least one package, such as "
                    +:+ ESC +:+ "[31mDemo." +:+ custom_loader +:+ ESC +:+ "[0m" +:+ LF)) ;;;
    ret None
  else
    dex2c_file_data <- open_read "project/jni/nc/Dex2C.cpp" ;;
    let dex2c_file_data :=
      replace dex2c_file_data
        ("env->FindClass(" +:+ DQ +:+ "amimo/dcc/DccApplication" +:+ DQ +:+ ");")
        ("env->FindClass(" +:+ DQ +:+ replace custom_loader "." "/" +:+ DQ +:+ ");") in
    let dex2c_file_data :=
      replace dex2c_file_data "Java_amimo_dcc_DccApplication"
        ("Java_" +:+ replace custom_loader "." "_") in
    open_write "project/jni/nc/Dex2C.cpp" dex2c_file_data ;;;
    (if negb (force_keep_libs opts) then adjust_application_mk w apkfile else ret tt) ;;;
    r <- compile_dex_step w opts filtercfg ;;
    ret (Some r).

End DriverVocabulary.

(* ===================================================================== *)
(** ** Vocabulary of the statements about selection *)
(* ===================================================================== *)

Section SelectionVocabulary.
Context `{Collaborators}.

(** What [all_methods] and [conflict_methods] know after the methods of
    [seen] have been visited by [_init_conflict_methods]. *)
Definition conflict_inv (seen : list Method)
    (st : gmap Triple Method * gset Method) : Prop :=
  (forall x, x ∈ seen ->
     exists y, fst st !! get_method_triple x false = Some y /\
               (x = y \/ (x ∈ snd st /\ y ∈ snd st))) /\
  (forall k y, fst st !! k = Some y -> y ∈ seen) /\
  (forall x, x ∈ snd st -> x ∈ seen).

(** [m] is compiled in dex file [d] under the filter [mf]: its mangled
    name is short enough, the rule engine includes it and the translator
    gives a non-empty source. *)
Definition compiled_by opts (mf : MethodFilter) (d : DalvikVM) (m : Method)
    (code : string) : Prop :=
  len (jni_longname_of (get_method_triple m true)) <= 220 /\
  should_compile opts mf m = true /\
  get_source_method d m = inr code /\
  truthy code = true.

(** [m] is selected in [d] under [mf] and fails in the translator with
    reason [e]. *)
Definition failed_by opts (mf : MethodFilter) (d : DalvikVM) (m : Method)
    (e : string) : Prop :=
  len (jni_longname_of (get_method_triple m true)) <= 220 /\
  should_compile opts mf m = true /\
  get_source_method d m = inl e.

(** The record [compile_dex] appends to the error list for a method
    that failed with reason [e]. *)
Definition error_record (m : Method) (e : string) : string :=
  join_triple (get_method_triple m true) +:+ ":" +:+ e.

(** A method [_add_annotation_method] lets in. *)
Definition eligible (m : Method) : Prop :=
  is_synthetic_method m = false /\ is_native_method m = false.

(** The class itself carries the marker: its annotations directory has a
    class annotation set with an item whose type descriptor ends with the
    marker suffix. *)
Definition class_is_annotated (c : ClassDef) : bool :=
  match c_annotations c with
  | Some adi =>
      match adi_class_annotations adi with
      | Some type_descs => existsb is_marker type_descs
      | None => false
      end
  | None => false
  end.

(** Some method annotation of the class marks [x] with the marker. *)
Definition method_is_annotated (c : ClassDef) (x : Method) : Prop :=
  exists adi mi type_desc,
    c_annotations c = Some adi /\ mi ∈ adi_method_annotations adi /\
    x = mi_method mi /\ type_desc ∈ mi_annotations mi /\
    is_marker type_desc = true.

(** The rule engine as the specification words it (section 4.1): ten
    stages in a fixed order, each either deciding or passing; the first
    stage that decides gives the result, and the last one always
    decides. *)
Inductive Decision := Exclude | Include.

Definition Stage : Type := Method -> option Decision.

Definition when (b : bool) (d : Decision) : option Decision :=
  if b then Some d else None.

Definition full_name_of (m : Method) : string :=
  join_triple (get_method_triple m true).

Definition rule_engine_stages (opts : Options) (mf : MethodFilter) : list Stage :=
  [ (* 1 *) fun m => when (bool_decide (m ∈ conflict_methods mf)) Exclude;
    (* 2 *) fun m => when (is_synthetic_method m && skip_synthetic opts) Exclude;
    (* 3 *) fun m => when (is_native_method m) Exclude;
    (* 4 *) fun m => when (String.eqb (m_name m) "<clinit>") Exclude;
    (* 5 *) fun m => when (bool_decide ((m_class_name m, m_name m) ∈ native_methods mf)) Exclude;
    (* 6 *) fun m => when (any_search (_keep_filters mf) (full_name_of m)) Exclude;
    (* 7 *) fun m => when (bool_decide (full_name_of m ∈ _compile_full_match mf)) Include;
    (* 8 *) fun m => when (bool_decide (m ∈ annotated_methods mf)) Include;
    (* 9 *) fun m => when (any_search (_compile_filters mf) (full_name_of m)) Include;
    (* 10 *) fun _ => Some Exclude ].

Fixpoint first_decision (stages : list Stage) (m : Method) : Decision :=
  match stages with
  | [] => Exclude
  | stage :: rest =>
      match stage m with
      | Some d => d
      | None => first_decision rest m
      end
  end.

Definition is_include (d : Decision) : bool :=
  match d with Include => true | Exclude => false end.

End SelectionVocabulary.

(* ===================================================================== *)
(** ** Vocabulary of the further statements about selection *)
(* ===================================================================== *)

(** A line of the rule file that [_load_filter_configure] passes over:
    blank after stripping, or a comment. *)
Definition is_comment_line (line : string) : bool :=
  negb (truthy (strip line)) || startswith (strip line) "#".

(** The name an exact rule gives: the stripped text behind the sign. *)
Definition exact_rule (line : string) : option string :=
  let s := strip line in
  if startswith s "=" then Some (strip (slice_from s 1)) else None.

(** The pattern of a keep rule, and the pattern of an include rule. *)
Definition keep_rule (line : string) : option string :=
  let s := strip line in
  if startswith s "!" then Some (strip (slice_from s 1)) else None.

Definition include_rule (line : string) : option string :=
  let s := strip line in
  if negb (truthy s) || startswith s "#" || startswith s "!" || startswith s "="
  then None else Some s.

(** The pattern a keep rule or an include rule hands to [re.compile]. *)
Definition rule_pattern (line : string) : option string :=
  let s := strip line in
  if negb (truthy s) || startswith s "#" || startswith s "=" then None
  else if startswith s "!" then Some (strip (slice_from s 1))
  else Some s.

Section FurtherSelectionVocabulary.
Context `{Collaborators}.

(** What the translation of [m] adds to the dict of [compile_dex], and
    what it adds to the error list. *)
Definition translated (opts : Options) (mf : MethodFilter) (d : DalvikVM)
    (m : Method) : option (Triple * string) :=
  let method_triple := get_method_triple m true in
  if (len (jni_longname_of method_triple) <=? 220) && should_compile opts mf m then
    match get_source_method d m with
    | inr code => if truthy code then Some (method_triple, code) else None
    | inl _ => None
    end
  else None.

Definition failure (opts : Options) (mf : MethodFilter) (d : DalvikVM)
    (m : Method) : option string :=
  if (len (jni_longname_of (get_method_triple m true)) <=? 220)
     && should_compile opts mf m then
    match get_source_method d m with
    | inl e => Some (error_record m e)
    | inr _ => None
    end
  else None.

(** The translations and the failure records of a dex file, in the
    order of its methods. *)
Definition translations (opts : Options) (filtercfg : option string)
    (d : DalvikVM) : list (Triple * string) :=
  match new_MethodFilter filtercfg d with
  | Val mf => omap (translated opts mf d) (vm_methods d)
  | Raise _ => []
  end.

Definition failures (opts : Options) (filtercfg : option string)
    (d : DalvikVM) : list string :=
  match new_MethodFilter filtercfg d with
  | Val mf => omap (failure opts mf d) (vm_methods d)
  | Raise _ => []
  end.

End FurtherSelectionVocabulary.

(** The first element of [l], then the first two, and so on up to the
    whole list, one after the other. *)
Definition repeated_prefixes {A : Type} (l : list A) : list A :=
  concat (map (fun k => take k l) (seq 1 (length l))).

(** The bookkeeping of [_init_conflict_methods] by positions: the dict
    holds methods that were seen, each under its own key; every method
    seen has its key in the dict, and is the method registered there or
    a conflict; and the conflicts are the methods whose key was seen at
    two positions. *)
Definition conflict_pos_inv (seen : list Method)
    (st : gmap Triple Method * gset Method) : Prop :=
  (forall k y, fst st !! k = Some y ->
     y ∈ seen /\ get_method_triple y false = k) /\
  (forall x, x ∈ seen ->
     exists y, fst st !! get_method_triple x false = Some y /\
               (x = y \/ x ∈ snd st)) /\
  (forall x, x ∈ snd st <->
     exists i j x', i <> j /\ seen !! i = Some x /\ seen !! j = Some x' /\
       get_method_triple x false = get_method_triple x' false).

(** The failure records [X_errors] gains while the error list of the
    dex file grows from [E] by the records of [F]. *)
Fixpoint accumulated {A : Type} (E F : list A) : list A :=
  match F with
  | [] => []
  | r :: F' => (E ++ [r]) ++ accumulated (E ++ [r]) F'
  end.

(* ===================================================================== *)
(** ** Vocabulary of the further statements about the listing patcher *)
(* ===================================================================== *)

(** A listing, read as the patcher reads it: stretches of lines that are
    copied, and methods that are rewritten, each with its header, its
    body and the line that ends it. *)
Inductive Segment :=
| Copied (lines : list string)
| Rewritten (raw : string) (items : list BodyItem) (stop : string).

Definition segment_lines (seg : Segment) : list string :=
  match seg with
  | Copied lines => lines
  | Rewritten raw items stop => raw :: body_lines items ++ [stop]
  end.

(** What the patcher leaves of a segment. *)
Definition segment_patched (seg : Segment) : list string :=
  match seg with
  | Copied lines => lines
  | Rewritten raw items stop =>
      native_header raw (strip raw) :: body_blocks items ++ [".end method" +:+ LF]
  end.

(** The reading is faithful, from the class [class_name] on: no copied
    line is the header of a compiled method, every rewritten method has
    such a header, a body that reads as [item_ok] says, and a line that
    ends it. *)
Fixpoint segments_ok (compiled_methods : gmap Triple string)
    (class_name : string) (segs : list Segment) : Prop :=
  match segs with
  | [] => True
  | Copied lines :: rest =>
      unselected compiled_methods class_name lines = true /\
      segments_ok compiled_methods (fold_left class_after lines class_name) rest
  | Rewritten raw items stop :: rest =>
      is_selected compiled_methods class_name raw = true /\
      Forall item_ok items /\ strip stop = ".end method" /\
      segments_ok compiled_methods class_name rest
  end.

(** Every character of [s] passes the test [P]. *)
Fixpoint all_chars (P : ascii -> bool) (s : string) : bool :=
  match s with
  | EmptyString => true
  | String c s' => P c && all_chars P s'
  end.

Definition blank (s : string) : bool := all_chars isspace s.
Definition visible (s : string) : bool :=
  truthy s && all_chars (fun c => negb (isspace c)) s.
Definition lf_free (s : string) : bool :=
  all_chars (fun c => negb (Ascii.eqb c "010")) s.

(** A header as smali prints it: indentation, the directive with the
    modifiers, a space, the method token, and the end of the line; the
    token has no white space in it and occurs nowhere else in the line. *)
Definition plain_header (raw : string) : Prop :=
  exists lead head tok trail,
    raw = lead +:+ head +:+ " " +:+ tok +:+ trail /\
    blank lead = true /\ blank trail = true /\
    startswith head ".method" = true /\
    visible tok = true /\
    occurs_once tok (lead +:+ head +:+ " ") trail.

(** The header of a rewritten method has the modifier already, or is a
    plain header. *)
Definition header_ok (seg : Segment) : Prop :=
  match seg with
  | Copied _ => True
  | Rewritten raw _ _ => 0 <= find (strip raw) " native " \/ plain_header raw
  end.

(** A line that ends with its line feed and has no other. *)
Definition terminated (line : string) : Prop :=
  exists body, line = body +:+ LF /\ lf_free body = true.

(** The same, as a test. *)
Fixpoint is_terminated (line : string) : bool :=
  match line with
  | EmptyString => false
  | String c s =>
      if Ascii.eqb c "010"
      then match s with EmptyString => true | _ => false end
      else is_terminated s
  end.

(** What the patcher leaves of a segment, read as a segment again: the
    blocks of the body are all that is left of it. *)
Definition is_block (it : BodyItem) : bool :=
  match it with Block _ _ _ => true | Plain _ => false end.

Definition patched_segment (seg : Segment) : Segment :=
  match seg with
  | Copied lines => Copied lines
  | Rewritten raw items stop =>
      Rewritten (native_header raw (strip raw)) (List.filter is_block items)
        (".end method" +:+ LF)
  end.

(* ===================================================================== *)
(** ** Vocabulary of the further statements about the driver *)
(* ===================================================================== *)

(** What [os.path.exists] answers in the state [st]. *)
Definition path_exists (w : World) (st : St) (path : string) : bool :=
  bool_decide (path ∈ dom (files st)) || w_exists w path.

(** The paths [native_compiled_dexes] looks for: for every entry of the
    decompiled package whose name contains [smali] and every compiled
    method, in the order of the two loops, the listing of the class of
    the method under that entry. *)
Definition listing_candidates (w : World) (decompiled_dir : string)
    (compiled_methods : gmap Triple string) : list string :=
  classes ← List.filter (fun x => 0 <=? find x "smali") (w_listdir w decompiled_dir);
  smali_path_of decompiled_dir classes <$> (fst <$> w_items w compiled_methods).

(** The events of one pass of the patcher over the listing at [p],
    whose text is read from [f]. *)
Definition patch_events (f : gmap string string)
    (compiled_methods : gmap Triple string) (p : string) : list Event :=
  [EvPatchListing p;
   EvWriteFile p (native_class_methods (default "" (f !! p)) compiled_methods)].

(** The listing [get_application_class_file] looks for under a folder. *)
Definition class_path (decompiled_dir smali_folder application_name : string)
    : string :=
  decompiled_dir +:+ "/" +:+ smali_folder +:+ "/" +:+
  replace application_name "." "/" +:+ ".smali".

(** [os.path.join(a, b)] as [posixpath] computes it: a second part that
    starts with the separator stands alone, and no separator is added
    after an empty first part or after one that ends with it. *)
Definition os_path_join (a b : string) : string :=
  if startswith b "/" then b
  else if negb (truthy a) || endswith a "/" then a +:+ b
  else a +:+ "/" +:+ b.

Section FurtherDriverVocabulary.
Context `{Collaborators}.

(** The paths of [write_compiled_methods], as [os.path.join] gives
    them: the source file of a compiled method and the file that lists
    the compiled methods. *)
Definition os_source_dir (project_dir : string) : string :=
  os_path_join (os_path_join project_dir "jni") "nc".

Definition os_cpp_path (project_dir : string) (t : Triple) : string :=
  os_path_join (os_source_dir project_dir) (jni_longname_of t) +:+ ".cpp".

Definition os_method_list_path (project_dir : string) : string :=
  os_path_join (os_source_dir project_dir) "compiled_methods.txt".

(** The source file of a compiled method, its text, and the file that
    lists the compiled methods. *)
Definition source_dir_of (project_dir : string) : string :=
  path_join (path_join project_dir "jni") "nc".

Definition cpp_path (project_dir : string) (t : Triple) : string :=
  path_join (source_dir_of project_dir) (jni_longname_of t) +:+ ".cpp".

Definition cpp_text (code : string) : string :=
  "#include " +:+ DQ +:+ "Dex2C.h" +:+ DQ +:+ LF +:+ code.

Definition method_list_path (project_dir : string) : string :=
  path_join (source_dir_of project_dir) "compiled_methods.txt".

(** What writing the source file of one compiled method does to the
    files. *)
Definition write_step (project_dir : string) (f : gmap string string)
    (item : Triple * string) : gmap string string :=
  <[cpp_path project_dir (fst item) := cpp_text (snd item)]> f.

End FurtherDriverVocabulary.

(** A step that raises in every state. *)
Definition never_returns {A : Type} (m : M A) : Prop :=
  forall st, exists e st', m st = (Raise e, st').

(** The events of packing and signing the output package. *)
Definition packing (e : Event) : bool :=
  match e with
  | EvApktoolCompile _ _ | EvSign _ _ => true
  | _ => false
  end.

(** The events of the stages that rewrite the package: the decompiler,
    the listing patcher, the manifest editor, the packer and the signer. *)
Definition repackaging (e : Event) : bool :=
  match e with
  | EvApktoolDecompile _ _ | EvPatchListing _ | EvManifestEditor _ _
  | EvApktoolCompile _ _ | EvSign _ _ => true
  | _ => false
  end.

Section FurtherMainVocabulary.
Context `{Collaborators} (w : World) (opts : Options).

(** The part of [dcc_main] that writes the sources into the project
    directory: the one given, or a copy of the template at a temporary
    place. It gives the directory the run goes on with. *)
Definition prepare_project (do_compile : bool) (project_dir source_archive : string)
    (compiled_methods : gmap Triple string) : M string :=
  if truthy project_dir then
    dir_exists <- os_path_exists w project_dir ;;
    (if negb dir_exists then emit (EvCopyTree "project" project_dir)
     else ret tt) ;;;
    write_compiled_methods w project_dir compiled_methods ;;;
    ret project_dir
  else
    let project_dir := w_temp w "dcc-project-" in
    emit (EvRmTree project_dir) ;;;
    emit (EvCopyTree "project" project_dir) ;;;
    write_compiled_methods w project_dir compiled_methods ;;;
    (if negb do_compile then
       let src_zip := w_temp w "-dcc" +:+ ".zip" in
       emit (EvArchive project_dir src_zip) ;;;
       emit (EvMoveFile src_zip source_archive)
     else ret tt) ;;;
    ret project_dir.

(** [dcc_main] from the return of [compile_dex] on. *)
Definition dcc_main_from_compiled (apkfile custom_loader outapk : string)
    (do_compile : bool) (project_dir source_archive : string)
    (r : gmap Triple string * list string) : M unit :=
  let '(compiled_methods, errors) := r in
  report_errors errors ;;;
  if bool_decide (size compiled_methods = 0%nat) then emit no_methods_message
  else
    project_dir <-
      prepare_project do_compile project_dir source_archive compiled_methods ;;
    (if do_compile then check_call w "ndk-build" (EvNdkBuild project_dir)
     else ret tt) ;;;
    if is_apk apkfile && truthy outapk
    then repackage w opts apkfile custom_loader outapk project_dir compiled_methods
    else ret tt.

(** The project directory the run works in. *)
Definition working_project_dir (project_dir : string) : string :=
  if truthy project_dir then project_dir else w_temp w "dcc-project-".

(** The directory [dcc_main] makes for the loader class, under the last
    listing tree of the decompiled package. *)
Definition loader_dir (custom_loader last_folder : string) : string :=
  w_temp w "dcc-apktool-" +:+ "/" +:+ last_folder +:+ "/" +:+
  replace (slice custom_loader 0 (rfind custom_loader ".")) "." "/".

End FurtherMainVocabulary.

(** The events of writing the sources of the compiled methods. *)
Definition writing (e : Event) : bool :=
  match e with
  | LogWarning _ | EvWriteFile _ _ | EvMakeDirs _ => true
  | _ => false
  end.

(** The events of archiving the generated project. *)
Definition archiving (e : Event) : bool :=
  match e with
  | EvArchive _ _ | EvMoveFile _ _ => true
  | _ => false
  end.

(** The path of the bootstrap source, and the name of the loader the
    templates are written for. *)
Definition dex2c_cpp_path : string := "project/jni/nc/Dex2C.cpp".
Definition default_loader : string := "amimo.dcc.DccApplication".

(* ===================================================================== *)
(** ** A stand-in for the collaborators, to run the model *)
(* ===================================================================== *)

(** Access flags of the dex format: bit 8 is [native], bit 12 is
    [synthetic]. Patterns are literal substrings and [re_sub] finds no
    match. The translator fails on a method called [broken], and the
    mangled name is the concatenation of the fields behind a prefix. *)
Definition example_collaborators : Collaborators :=
  {| JniLongName := fun c n p => "Java_" +:+ c +:+ "_" +:+ n +:+ "__" +:+ p;
     get_access_method := fun a =>
       (if N.testbit a 8 then ["native"] else []) ++
       (if N.testbit a 12 then ["synthetic"] else []);
     is_synthetic_method := fun m => N.testbit (m_access_flags m) 12;
     is_native_method := fun m => N.testbit (m_access_flags m) 8;
     Regex := string;
     re_compile := fun p => Some p;
     re_search := fun r s => contains r s;
     get_source_method := fun _ m =>
       if String.eqb (m_name m) "broken" then inl "unsupported opcode"
       else inr ("/* " +:+ m_name m +:+ " */");
     re_sub := fun pattern repl text => text |}.

Definition example_options : Options :=
  {| skip_synthetic := false; force_keep_libs := false |}.

(** The value of a result, or a default when it raised. *)
Definition val_or {A : Type} (dflt : A) (r : Res A) : A :=
  match r with Val a => a | Raise _ => dflt end.

Definition is_val {A : Type} (r : Res A) : bool :=
  match r with Val _ => true | Raise _ => false end.

Module Example.

Definition mk (i : nat) (c n p : string) (flags : N) : Method :=
  {| m_id := i; m_class_name := c; m_name := n; m_proto := p;
     m_access_flags := flags |}.

(** Scenario 1 of the specification: [bar(I)V] and [bar(I)I] of one
    class collide; [baz] does not. *)
Definition bar_v : Method := mk 1 "LFoo;" "bar" "(I)V" 1.
Definition bar_i : Method := mk 2 "LFoo;" "bar" "(I)I" 1.
Definition baz : Method := mk 3 "LFoo;" "baz" "()V" 1.
(** A method the stand-in translator fails on, a synthetic one and a
    native one. *)
Definition broken : Method := mk 4 "LFoo;" "broken" "()V" 1.
Definition access0 : Method := mk 5 "LFoo;" "access$000" "()V" 4104.
Definition nat0 : Method := mk 6 "LFoo;" "nat0" "()V" 257.

Definition marker : string := "La/Dex2C;".

(** A class that carries the marker itself, with a marked synthetic
    method besides. *)
Definition Foo : ClassDef :=
  {| c_methods := [bar_v; bar_i; baz; broken; access0; nat0];
     c_annotations := Some
       {| adi_class_annotations := Some ["Ljava/lang/Deprecated;"; marker];
          adi_method_annotations :=
            [ {| mi_method := access0; mi_annotations := [marker] |} ] |} |}.

Definition dex : DalvikVM :=
  {| vm_methods := [bar_v; bar_i; baz; broken; access0; nat0];
     vm_classes := [Foo] |}.

(** The same methods, in a class without annotations. *)
Definition plain_dex : DalvikVM :=
  {| vm_methods := [bar_v; bar_i; baz; broken; access0; nat0];
     vm_classes := [ {| c_methods := vm_methods dex; c_annotations := None |} ] |}.

(** A rule file: an exact rule for [bar(I)V], include rules for [baz],
    [broken] and the synthetic method, a keep rule. *)
Definition rules : string :=
  "# rules" +:+ LF +:+
  "=LFoo;bar(I)V" +:+ LF +:+
  "baz" +:+ LF +:+ "broken" +:+ LF +:+ "access" +:+ LF +:+
  "!never" +:+ LF.

(** Rules with a keep rule that matches [baz]. *)
Definition rules_keep_baz : string :=
  "=LFoo;baz()V" +:+ LF +:+ "baz" +:+ LF +:+ "!Foo;baz" +:+ LF.

(** A dex file of one method whose mangled name is longer than 220
    characters, and a rule that includes it. *)
Definition long_name : string :=
  String.concat "" (repeat "abcdefghij" 22).
Definition longm : Method := mk 7 "LFoo;" long_name "()V" 1.
Definition long_dex : DalvikVM :=
  {| vm_methods := [longm]; vm_classes := [] |}.
Definition rules_long : string := "abcdefghij" +:+ LF.

Definition no_filter : MethodFilter (H := example_collaborators) :=
  {| _compile_filters := []; _keep_filters := []; _compile_full_match := ∅;
     conflict_methods := ∅; native_methods := ∅; annotated_methods := ∅ |}.

Definition filter_of (d : DalvikVM) (cfg : string)
    : MethodFilter (H := example_collaborators) :=
  val_or no_filter (new_MethodFilter (Some cfg) d).

Definition run_of (d : DalvikVM) (cfg : string)
    : Res (gmap Triple string * list string) :=
  compile_dex (H := example_collaborators) example_options [d] (Some cfg).

Definition result_of (d : DalvikVM) (cfg : string)
    : gmap Triple string * list string :=
  val_or (∅, []) (run_of d cfg).

(** A listing with two methods. The body of [bar] has a system
    annotation, a runtime annotation, the marker annotation and code. *)
Definition bar_header : string := ".method public bar(I)V" +:+ LF.
Definition throws_start : string :=
  "    .annotation system Ldalvik/annotation/Throws;" +:+ LF.
Definition deprecated_start : string :=
  "    .annotation runtime Ljava/lang/Deprecated;" +:+ LF.
Definition marker_start : string := "    .annotation runtime La/Dex2C;" +:+ LF.
Definition end_annotation : string := "    .end annotation" +:+ LF.
Definition end_method : string := ".end method" +:+ LF.

Definition bar_body : list BodyItem :=
  [ Plain ("    .locals 1" +:+ LF);
    Plain throws_start;
    Plain ("        value = {" +:+ LF);
    Plain ("            Ljava/io/IOException;" +:+ LF);
    Plain ("        }" +:+ LF);
    Plain end_annotation;
    Block deprecated_start [] end_annotation;
    Plain marker_start;
    Plain end_annotation;
    Plain ("    .line 3" +:+ LF);
    Plain ("    return-void" +:+ LF) ].

Definition listing_head : list string :=
  [ ".class public LFoo;" +:+ LF; ".super Ljava/lang/Object;" +:+ LF; LF ].

Definition listing_tail : list string :=
  [ LF; ".method public baz()V" +:+ LF; "    .locals 0" +:+ LF;
    "    return-void" +:+ LF; end_method ].

Definition listing_lines : list string :=
  listing_head ++ bar_header :: body_lines bar_body ++ end_method :: listing_tail.

Definition listing : string := writelines listing_lines.

(** [bar(I)V] is compiled; [other] compiles a method of another class. *)
Definition compiled_bar : gmap Triple string :=
  {[ ("LFoo;", "bar", "(I)V") := "/* bar */" ]}.
Definition compiled_other : gmap Triple string :=
  {[ ("LQux;", "bar", "(I)V") := "/* bar */" ]}.

(** A run of the driver. The package has the dex file of the example
    and libraries for two ABI names, one of them the deprecated one; its
    application class has a static initializer. *)
Definition app_listing (registers : string) : string :=
  writelines
    [ ".class public Lcom/App;" +:+ LF;
      ".method static constructor <clinit>()V" +:+ LF;
      registers;
      "    return-void" +:+ LF;
      end_method ].

Definition decompiled_dir : string := "t/dcc-apktool-".

Definition world (dexes : list DalvikVM) (namelist : list string)
    (registers : string) : World :=
  {| w_exists := fun p => bool_decide (p ∈ ["app.apk"; "keystore.jks"]);
     w_isdir := fun p => bool_decide (p = decompiled_dir +:+ "/smali");
     w_listdir := fun p =>
       if String.eqb p decompiled_dir then ["AndroidManifest.xml"; "smali"] else [];
     w_namelist := Val namelist;
     w_dexes := Val dexes;
     w_application_name := Val "com.App";
     w_decompiled :=
       {[ decompiled_dir +:+ "/smali/Foo.smali" := listing;
          decompiled_dir +:+ "/smali/com/App.smali" := app_listing registers ]};
     w_tool_fails := fun _ => false;
     w_temp := fun label => "t/" +:+ label;
     w_signature :=
       {| keystore_path := "keystore.jks"; alias := "key"; keystore_pass := "a";
          store_pass := "b"; v1_enabled := true; v2_enabled := true;
          v3_enabled := false |};
     w_set_order := elements;
     w_set_order_perm := fun X => reflexivity (elements X);
     w_items := map_to_list;
     w_items_perm := fun X => reflexivity (map_to_list X) |}.

Definition start (rule_file : string) : St :=
  {| trace := [];
     files :=
       {[ "project/jni/nc/Dex2C.cpp" := "Java_amimo_dcc_DccApplication_init" +:+ LF;
          "project/jni/Application.mk" :=
            "APP_STL := c++_static" +:+ LF +:+ "APP_ABI := all" +:+ LF;
          "project/jni/Android.mk" := "LOCAL_MODULE := nc" +:+ LF;
          "loader/DccApplication.smali" := ".class public Lamimo/dcc/DccApplication;" +:+ LF;
          "filter.txt" := rule_file ]} |}.

Definition run_main (force : bool) (dexes : list DalvikVM)
    (namelist : list string) (registers rule_file : string) : Res unit * St :=
  dcc_main (H := example_collaborators) (world dexes namelist registers)
    {| skip_synthetic := false; force_keep_libs := force |}
    "app.apk" "filter.txt" "my.Loader" "out.apk" true "" "project-source.zip"
    (start rule_file).

Definition libs : list string :=
  ["classes.dex"; "lib/armeabi/libfoo.so"; "lib/x86/libfoo.so"].
Definition mips_libs : list string := "lib/mips/libfoo.so" :: libs.
Definition locals : string := "    .locals 0" +:+ LF.
Definition nop : string := "    nop" +:+ LF.

(** A second dex file of the same package that defines the class [Foo]
    again, with [bar(I)V] only. *)
Definition bar_v_again : Method := mk 12 "LFoo;" "bar" "(I)V" 1.
Definition second_dex : DalvikVM :=
  {| vm_methods := [bar_v_again];
     vm_classes := [ {| c_methods := [bar_v_again]; c_annotations := None |} ] |}.

End Example.

(* ===================================================================== *)
(** ** Further scenarios, to run the model *)
(* ===================================================================== *)

(** What a run up to the return of [compile_dex] has compiled, and the
    failures it has recorded. *)
Definition compiled_of (r : Res (option (gmap Triple string * list string)) * St)
    : gmap Triple string :=
  match fst r with Val (Some (cm, _)) => cm | _ => ∅ end.

Definition errors_of (r : Res (option (gmap Triple string * list string)) * St)
    : list string :=
  match fst r with Val (Some (_, errors)) => errors | _ => [] end.

(** The world with another file system and other tools. *)
Definition with_file_system (w : World) (exists_ : string -> bool)
    (listdir : string -> list string) (tool_fails : Event -> bool) : World :=
  {| w_exists := exists_; w_isdir := w_isdir w; w_listdir := listdir;
     w_namelist := w_namelist w;
     w_dexes := w_dexes w; w_application_name := w_application_name w;
     w_decompiled := w_decompiled w; w_tool_fails := tool_fails;
     w_temp := w_temp w; w_signature := w_signature w;
     w_set_order := w_set_order w; w_set_order_perm := w_set_order_perm w;
     w_items := w_items w; w_items_perm := w_items_perm w |}.

Module Scenario.
Import Example.

(** Collaborators whose [re.compile] refuses the pattern of one open
    parenthesis, and collaborators whose translator names the dex file
    in the source it gives: the second dex file of the scenario is the
    one with a single method. *)
Definition picky_collaborators : Collaborators :=
  {| JniLongName := @JniLongName example_collaborators;
     get_access_method := @get_access_method example_collaborators;
     is_synthetic_method := @is_synthetic_method example_collaborators;
     is_native_method := @is_native_method example_collaborators;
     Regex := string;
     re_compile := fun p => if String.eqb p "(" then None else Some p;
     re_search := fun r s => contains r s;
     get_source_method := @get_source_method example_collaborators;
     re_sub := fun pattern repl text => text |}.

Definition tagging_collaborators : Collaborators :=
  {| JniLongName := @JniLongName example_collaborators;
     get_access_method := @get_access_method example_collaborators;
     is_synthetic_method := @is_synthetic_method example_collaborators;
     is_native_method := @is_native_method example_collaborators;
     Regex := string;
     re_compile := fun p => Some p;
     re_search := fun r s => contains r s;
     get_source_method := fun d m =>
       inr ("/* " +:+ m_name m +:+ " of " +:+
            (if Nat.eqb (length (vm_methods d)) 1 then "classes2" else "classes")
            +:+ " */");
     re_sub := fun pattern repl text => text |}.

(** The rules of the rule file of the example. *)
Definition rules_loaded : Rules (H := example_collaborators) :=
  {| r_compile_filters :=
       (["baz"; "broken"; "access"] : list (@Regex example_collaborators));
     r_keep_filters := (["never"] : list (@Regex example_collaborators));
     r_compile_full_match := {[ "LFoo;bar(I)V" ]} |}.

(** The rules of the first line of the rule file below. *)
Definition rules_before_bad : Rules (H := picky_collaborators) :=
  {| r_compile_filters := (["baz"] : list (@Regex picky_collaborators));
     r_keep_filters := [];
     r_compile_full_match := ∅ |}.

(** A rule file with a pattern that does not compile. *)
Definition bad_rules : string :=
  "baz" +:+ LF +:+ "!(" +:+ LF +:+ "bar" +:+ LF.

(** An overload of the native method of the example, with an exact
    rule for it. *)
Definition nat0_int : Method := mk 8 "LFoo;" "nat0" "(I)V" 1.
Definition rules_nat : string := "=LFoo;nat0(I)V" +:+ LF.

(** A dex file with a static initializer, and an exact rule for it. *)
Definition clinit : Method := mk 9 "LFoo;" "<clinit>" "()V" 8.
Definition clinit_dex : DalvikVM :=
  {| vm_methods := [clinit; baz]; vm_classes := [] |}.
Definition rules_clinit : string :=
  "=LFoo;<clinit>()V" +:+ LF +:+ "baz" +:+ LF.

(** A second dex file that has [baz] again. *)
Definition small_dex : DalvikVM :=
  {| vm_methods := [baz]; vm_classes := [] |}.
Definition rules_baz : string := "baz" +:+ LF.

(** A dex file with two methods the stand-in translator fails on. *)
Definition broken_int : Method := mk 11 "LFoo;" "broken" "(I)V" 1.
Definition two_broken : DalvikVM :=
  {| vm_methods := [broken; broken_int]; vm_classes := [] |}.
Definition rules_broken : string := "broken" +:+ LF.

(** The listing of the example, read as the patcher reads it. *)
Definition listing_segments : list Segment :=
  [ Copied listing_head; Rewritten bar_header bar_body end_method;
    Copied listing_tail ].

(** The state after the package of the example has been decompiled. *)
Definition decompiled : St :=
  {| trace := []; files := w_decompiled (world [dex] libs locals) ∪ files (start rules) |}.

Definition foo_listing_path : string := decompiled_dir +:+ "/smali/Foo.smali".

(** Two compiled methods of the class [Foo]. *)
Definition compiled_two : gmap Triple string :=
  {[ ("LFoo;", "bar", "(I)V") := "/* bar */"; ("LFoo;", "baz", "()V") := "/* baz */" ]}.

(** A project with a library for [x86] and one for [armeabi-v7a], and a
    package with the directories [x86] and [armeabi]. *)
Definition lib_world : World :=
  with_file_system (world [dex] libs locals)
    (fun p => bool_decide (p ∈ ["proj/libs"; "dec/lib"; "proj/libs/x86";
                                "proj/libs/armeabi-v7a";
                                "proj/libs/x86/libnc.so";
                                "proj/libs/armeabi-v7a/libnc.so"]))
    (fun p => if String.eqb p "dec/lib" then ["x86"; "armeabi"] else [])
    (fun _ => false).

(** A world in which the native build fails, and one in which the
    directory of the package of the loader exists already. *)
Definition failing_build_world : World :=
  with_file_system (world [dex] libs locals)
    (w_exists (world [dex] libs locals)) (w_listdir (world [dex] libs locals))
    (fun e => match e with EvNdkBuild _ => true | _ => false end).

Definition occupied_world : World :=
  with_file_system (world [dex] libs locals)
    (fun p => bool_decide (p ∈ ["app.apk"; "keystore.jks";
                                decompiled_dir +:+ "/smali/my"]))
    (w_listdir (world [dex] libs locals)) (fun _ => false).

(** A package without libraries, an input that is a dex file, and a
    project directory in which the source file of [bar] is there
    already. *)
Definition no_libs : list string := ["classes.dex"; "AndroidManifest.xml"].

Definition start_dex : St :=
  {| trace := []; files := <["classes.dex" := ""]> (files (start rules)) |}.

Definition bar_triple : Triple := ("LFoo;", "bar", "(I)V").

Definition start_again : St :=
  {| trace := [];
     files := <[cpp_path (H := example_collaborators) "p" bar_triple := "old"]>
                (files (start rules)) |}.

(** The lines of an [Android.mk] whose first line on the module is the
    one of the file name. *)
Definition android_mk_lines : list string :=
  [ "LOCAL_PATH := $(call my-dir)" +:+ LF;
    "LOCAL_MODULE_FILENAME := libfoo" +:+ LF;
    "LOCAL_MODULE := nc" +:+ LF ].

(** The run of the example up to the compilation, in a world whose native
    build fails. *)
Definition failing_run :
    Res (option (gmap Triple string * list string)) * St :=
  dcc_main_until_compiled (H := example_collaborators)
    failing_build_world example_options
    "app.apk" "filter.txt" "my.Loader" "out.apk" (start rules).

End Scenario.

(* ===================================================================== *)
(** ** Proofs: selection *)
(* ===================================================================== *)

Section Proofs.
Context `{Collaborators}.

(** *** Conflict detection *)

Lemma conflict_step_inv seen st m :
  conflict_inv seen st -> conflict_inv (seen ++ [m]) (conflict_step st m).
Proof.
  destruct st as [all conf]. intros (Hall & Hval & Hconf). unfold conflict_step.
  destruct (all !! get_method_triple m false) as [m0|] eqn:Hm;
    repeat split; cbn [fst snd] in *.
  - intros x Hx. apply elem_of_app in Hx as [Hx|Hx].
    + destruct (Hall x Hx) as (y & Hy & Hor). exists y. split; [done|].
      destruct Hor as [->|[? ?]]; [by left|right; set_solver].
    + apply list_elem_of_singleton in Hx as ->. exists m0. split; [done|].
      right. set_solver.
  - intros k y Hy. apply elem_of_app. left. eauto.
  - intros x Hx. apply elem_of_app.
    apply elem_of_union in Hx as [Hx|Hx].
    + apply elem_of_singleton in Hx as ->. left. eauto.
    + apply elem_of_union in Hx as [Hx|Hx].
      * apply elem_of_singleton in Hx as ->. right. set_solver.
      * left. auto.
  - intros x Hx. apply elem_of_app in Hx as [Hx|Hx].
    + destruct (Hall x Hx) as (y & Hy & Hor). exists y. split; [|done].
      rewrite lookup_insert_ne; [done|]. intros Heq. congruence.
    + apply list_elem_of_singleton in Hx as ->. exists m.
      rewrite lookup_insert_eq. auto.
  - intros k y Hy. apply elem_of_app.
    destruct (decide (get_method_triple m false = k)) as [Heq|Hne].
    + subst k. rewrite lookup_insert_eq in Hy. inversion Hy; subst. right. set_solver.
    + rewrite lookup_insert_ne in Hy by done. left. eauto.
  - intros x Hx. apply elem_of_app. left. auto.
Qed.

Lemma conflict_fold_inv l : forall seen st,
  conflict_inv seen st -> conflict_inv (seen ++ l) (fold_left conflict_step l st).
Proof.
  induction l as [|m l IH]; intros seen st Hinv; simpl.
  - by rewrite app_nil_r.
  - replace (seen ++ m :: l) with ((seen ++ [m]) ++ l) by (by rewrite <- app_assoc).
    apply IH, conflict_step_inv, Hinv.
Qed.

Lemma conflict_inv_methods (vm : DalvikVM) :
  conflict_inv (vm_methods vm) (fold_left conflict_step (vm_methods vm) (∅, ∅)).
Proof.
  apply (conflict_fold_inv (vm_methods vm) [] (∅, ∅)).
  repeat split; simpl.
  - intros x Hx. by apply elem_of_nil in Hx.
  - intros k y Hy. by rewrite lookup_empty in Hy.
  - intros x Hx. set_solver.
Qed.

(** Two distinct method objects of a dex file that agree on owning type,
    name and parameters are both in the conflict set. *)
Lemma conflict_methods_complete (vm : DalvikVM) (x x' : Method) :
  x ∈ vm_methods vm -> x' ∈ vm_methods vm -> x <> x' ->
  get_method_triple x false = get_method_triple x' false ->
  x ∈ _init_conflict_methods vm /\ x' ∈ _init_conflict_methods vm.
Proof.
  intros Hx Hx' Hne Hkey. unfold _init_conflict_methods.
  destruct (conflict_inv_methods vm) as (Hall & _ & _).
  destruct (Hall x Hx) as (y & Hy & Hor).
  destruct (Hall x' Hx') as (y' & Hy' & Hor').
  rewrite Hkey in Hy. rewrite Hy in Hy'. inversion Hy'; subst y'.
  destruct Hor as [->|[? ?]], Hor' as [->|[? ?]]; try done; by split.
Qed.

Lemma conflict_methods_sound (vm : DalvikVM) (x : Method) :
  x ∈ _init_conflict_methods vm -> x ∈ vm_methods vm.
Proof.
  intros Hx. destruct (conflict_inv_methods vm) as (_ & _ & Hc). by apply Hc.
Qed.

(** The full triple decides the triple without the return type. *)
Lemma get_method_triple_false_of_true (m m' : Method) :
  get_method_triple m true = get_method_triple m' true ->
  get_method_triple m false = get_method_triple m' false.
Proof. unfold get_method_triple. intros Heq. inversion Heq. by f_equal. Qed.

(** *** The rule engine *)

Lemma should_compile_conflict opts (mf : MethodFilter) (m : Method) :
  m ∈ conflict_methods mf -> should_compile opts mf m = false.
Proof.
  intros Hm. unfold should_compile. by rewrite bool_decide_eq_true_2.
Qed.

Lemma should_compile_true_inv opts (mf : MethodFilter) (m : Method) :
  should_compile opts mf m = true ->
  (m ∉ conflict_methods mf) /\
  (is_synthetic_method m && skip_synthetic opts = false) /\
  is_native_method m = false /\
  m_name m <> "<clinit>" /\
  ((m_class_name m, m_name m) ∉ native_methods mf) /\
  any_search (_keep_filters mf) (join_triple (get_method_triple m true)) = false /\
  (join_triple (get_method_triple m true) ∈ _compile_full_match mf \/
   m ∈ annotated_methods mf \/
   any_search (_compile_filters mf) (join_triple (get_method_triple m true)) = true).
Proof.
  unfold should_compile. cbn [get_method_triple].
  case_bool_decide as Hc; [done|].
  destruct (is_synthetic_method m && skip_synthetic opts) eqn:Hs; [done|].
  destruct (is_native_method m) eqn:Hn; [done|].
  destruct (String.eqb (m_name m) "<clinit>") eqn:Hname; [done|].
  case_bool_decide as Hnat; [done|].
  destruct (any_search (_keep_filters mf) _) eqn:Hkeep; [done|].
  intros Hres. repeat split; try done.
  - by apply String.eqb_neq.
  - case_bool_decide; [by left|]. case_bool_decide; [by right; left|].
    destruct (any_search (_compile_filters mf) _); [by right; right|done].
Qed.

(** *** The selection loop *)

Lemma compile_method_cases opts mf d st m :
  let st' := compile_method opts mf d st m in
  (exists code, compiled_by opts mf d m code /\
     compiled_method_code st' =
       <[get_method_triple m true := code]> (compiled_method_code st) /\
     X_compiled_method_code st' =
       compiled_method_code st' ∪ X_compiled_method_code st /\
     errors st' = errors st /\ X_errors st' = X_errors st) \/
  (exists e, failed_by opts mf d m e /\
     compiled_method_code st' = compiled_method_code st /\
     X_compiled_method_code st' = X_compiled_method_code st /\
     errors st' = errors st ++ [error_record m e] /\
     X_errors st' = X_errors st ++ errors st') \/
  ((forall code, ~ compiled_by opts mf d m code) /\
   (forall e, ~ failed_by opts mf d m e) /\
   compiled_method_code st' = compiled_method_code st /\
   X_compiled_method_code st' = X_compiled_method_code st /\
   errors st' = errors st /\ X_errors st' = X_errors st).
Proof.
  unfold compile_method, compiled_by, failed_by.
  destruct (220 <? len (jni_longname_of (get_method_triple m true))) eqn:Hlen.
  { apply Z.ltb_lt in Hlen. right; right.
    repeat split; try done; intros ? (? & _); lia. }
  apply Z.ltb_ge in Hlen.
  destruct (should_compile opts mf m) eqn:Hsc.
  2:{ right; right. repeat split; try done; intros ? (_ & ? & _); done. }
  destruct (get_source_method d m) as [e|code] eqn:Hsrc.
  { right; left. exists e. repeat split; done. }
  destruct (truthy code) eqn:Hcode.
  { left. exists code. repeat split; done. }
  right; right. repeat split; try done.
  - intros c (_ & _ & Hc & Ht). congruence.
  - intros e (_ & _ & He). congruence.
Qed.

(** The keys after one method, when the keys of the per-dex dict are
    already keys of the accumulated one. *)
Lemma compile_method_dom opts mf d st m :
  let st' := compile_method opts mf d st m in
  dom (compiled_method_code st) ⊆ dom (X_compiled_method_code st) ->
  dom (compiled_method_code st') ⊆ dom (X_compiled_method_code st') /\
  (forall T, T ∈ dom (X_compiled_method_code st') <->
     T ∈ dom (X_compiled_method_code st) \/
     (T = get_method_triple m true /\ exists code, compiled_by opts mf d m code)).
Proof.
  intros st' Hsub. subst st'.
  destruct (compile_method_cases opts mf d st m)
    as [(code & Hc & Hcm & HX & _)|[(e & He & Hcm & HX & _)|(Hnc & _ & Hcm & HX & _)]];
    rewrite ?HX, ?Hcm.
  - split; [set_solver|]. intros T.
    rewrite dom_union, dom_insert, !elem_of_union, elem_of_singleton.
    split.
    + intros [[->|HT]|HT]; [right; eauto|left; set_solver|by left].
    + intros [HT|[-> _]]; [by right|by left; left].
  - split; [done|]. intros T. split; [by left|].
    intros [HT|[_ (code & Hc)]]; [done|].
    destruct He as (_ & _ & He), Hc as (_ & _ & Hc & _). congruence.
  - split; [done|]. intros T. split; [by left|].
    intros [HT|[_ (code & Hc)]]; [done|]. by destruct (Hnc code).
Qed.

Lemma compile_fold_dom opts mf d l : forall st,
  let st' := fold_left (compile_method opts mf d) l st in
  dom (compiled_method_code st) ⊆ dom (X_compiled_method_code st) ->
  dom (compiled_method_code st') ⊆ dom (X_compiled_method_code st') /\
  (forall T, T ∈ dom (X_compiled_method_code st') <->
     T ∈ dom (X_compiled_method_code st) \/
     exists m code, m ∈ l /\ T = get_method_triple m true /\
                    compiled_by opts mf d m code).
Proof.
  induction l as [|m l IH]; intros st st' Hsub; subst st'; cbn [fold_left].
  - split; [done|]. intros T. split; [by left|].
    intros [HT|(m & code & Hm & _)]; [done|]. by apply elem_of_nil in Hm.
  - destruct (compile_method_dom opts mf d st m Hsub) as [Hsub' Hstep].
    destruct (IH _ Hsub') as [Hsub'' Hrest]. split; [done|].
    intros T. rewrite Hrest, Hstep. split.
    + intros [[HT|[-> (code & Hc)]]|(m' & code & Hm' & HT & Hc)].
      * by left.
      * right. exists m, code. split; [left|done].
      * right. exists m', code. split; [by right|done].
    + intros [HT|(m' & code & Hm' & HT & Hc)]; [by left; left|].
      apply elem_of_cons in Hm' as [->|Hm'].
      * left; right. eauto.
      * right. eauto.
Qed.

(** The error list only grows, and the record of a failing method is
    appended to it. *)
Lemma compile_method_errors opts mf d st m :
  let st' := compile_method opts mf d st m in
  (forall x, x ∈ X_errors st -> x ∈ X_errors st') /\
  (forall e, failed_by opts mf d m e ->
     (error_record m e) ∈ X_errors st').
Proof.
  intros st'. subst st'.
  destruct (compile_method_cases opts mf d st m)
    as [(code & Hc & _ & _ & _ & HX)|[(e & He & _ & _ & Herr & HX)|(_ & Hnf & _ & _ & _ & HX)]];
    rewrite HX.
  - split; [done|]. intros e (_ & _ & He).
    destruct Hc as (_ & _ & Hc & _). congruence.
  - split; [set_solver|]. intros e' (_ & _ & He').
    destruct He as (_ & _ & He). assert (e' = e) as -> by congruence.
    rewrite Herr. set_solver.
  - split; [done|]. intros e He. by destruct (Hnf e).
Qed.

Lemma compile_fold_errors opts mf d l : forall st,
  let st' := fold_left (compile_method opts mf d) l st in
  (forall x, x ∈ X_errors st -> x ∈ X_errors st') /\
  (forall m e, m ∈ l -> failed_by opts mf d m e ->
     (error_record m e) ∈ X_errors st').
Proof.
  induction l as [|m l IH]; intros st st'; subst st'; cbn [fold_left].
  - split; [done|]. intros m e Hm. by apply elem_of_nil in Hm.
  - destruct (compile_method_errors opts mf d st m) as [Hmono Hfail].
    destruct (IH (compile_method opts mf d st m)) as [Hmono' Hfail'].
    split; [auto|]. intros m' e Hm' He.
    apply elem_of_cons in Hm' as [->|Hm']; eauto.
Qed.

(** What the loop over the dex files adds to the accumulated dict and
    to the accumulated error list. *)
Lemma compile_dexes_spec opts filtercfg tmp : forall st st',
  compile_dexes opts filtercfg st tmp = Val st' ->
  (forall T, T ∈ dom (X_compiled_method_code st') <->
     T ∈ dom (X_compiled_method_code st) \/
     exists d mf m code, d ∈ tmp /\ new_MethodFilter filtercfg d = Val mf /\
       m ∈ vm_methods d /\ T = get_method_triple m true /\
       compiled_by opts mf d m code) /\
  (forall x, x ∈ X_errors st -> x ∈ X_errors st') /\
  (forall d mf m e, d ∈ tmp -> new_MethodFilter filtercfg d = Val mf ->
     m ∈ vm_methods d -> failed_by opts mf d m e ->
     (error_record m e) ∈ X_errors st').
Proof.
  induction tmp as [|d tmp IH]; intros st st' Hrun; cbn [compile_dexes] in Hrun.
  - inversion Hrun; subst st'. repeat split; try done.
    + by left.
    + intros [HT|(d & mf & m & code & Hd & _)]; [done|]. by apply elem_of_nil in Hd.
    + intros d mf m e Hd. by apply elem_of_nil in Hd.
  - destruct (compile_one_dex opts filtercfg st d) as [st1|e] eqn:Hone; [|done].
    unfold compile_one_dex in Hone.
    destruct (new_MethodFilter filtercfg d) as [mf|e] eqn:Hmf; [|done].
    inversion Hone as [Hst1]. clear Hone.
    destruct (IH _ _ Hrun) as (Hdom & Hmono & Hfail).
    match type of Hst1 with fold_left _ _ ?s0 = _ =>
      destruct (compile_fold_dom opts mf d (vm_methods d) s0) as [_ Hd1];
        [cbn; set_solver|];
      destruct (compile_fold_errors opts mf d (vm_methods d) s0) as [Hm1 Hf1]
    end.
    rewrite Hst1 in Hd1, Hm1, Hf1. cbn in Hd1, Hm1.
    repeat split.
    + intros HT. apply Hdom in HT as [HT|(d' & mf' & m & code & Hd' & ?)].
      * apply Hd1 in HT as [HT|(m & code & Hm & HT & Hc)]; [by left|].
        right. exists d, mf, m, code. split_and!; try done. apply list_elem_of_here.
      * right. exists d', mf', m, code. split; [by right|done].
    + intros [HT|(d' & mf' & m & code & Hd' & Hmf' & Hm & HT & Hc)].
      * apply Hdom. left. apply Hd1. by left.
      * apply elem_of_cons in Hd' as [->|Hd'].
        -- apply Hdom. left. apply Hd1. right.
           assert (mf' = mf) as -> by congruence. eauto.
        -- apply Hdom. right. exists d', mf', m, code. done.
    + auto.
    + intros d' mf' m e Hd' Hmf' Hm He.
      apply elem_of_cons in Hd' as [->|Hd']; [|eauto].
      assert (mf' = mf) as -> by congruence. eauto.
Qed.

(** The only exception [compile_dex] lets through is the one of the rule
    file: when the rules load, it returns. *)
Lemma compile_dexes_total opts filtercfg rs tmp : forall st,
  _load_filter_configure filtercfg = Val rs ->
  exists st', compile_dexes opts filtercfg st tmp = Val st'.
Proof.
  induction tmp as [|d tmp IH]; intros st Hrs; cbn [compile_dexes]; [eauto|].
  unfold compile_one_dex, new_MethodFilter. rewrite Hrs. by apply IH.
Qed.

Lemma compile_dex_total opts filtercfg rs tmp :
  _load_filter_configure filtercfg = Val rs ->
  exists X errs, compile_dex opts tmp filtercfg = Val (X, errs).
Proof.
  intros Hrs. unfold compile_dex.
  destruct (compile_dexes_total opts filtercfg rs tmp compile_start Hrs) as [st' ->].
  eauto.
Qed.

Lemma compile_dex_keys opts filtercfg tmp X errs T :
  compile_dex opts tmp filtercfg = Val (X, errs) ->
  T ∈ dom X <->
  exists d mf m code, d ∈ tmp /\ new_MethodFilter filtercfg d = Val mf /\
    m ∈ vm_methods d /\ T = get_method_triple m true /\
    compiled_by opts mf d m code.
Proof.
  unfold compile_dex.
  destruct (compile_dexes opts filtercfg compile_start tmp) as [st'|] eqn:Hrun; [|done].
  intros Heq; inversion Heq; subst.
  destruct (compile_dexes_spec _ _ _ _ _ Hrun) as (Hdom & _).
  rewrite Hdom. cbn. split; [|by right].
  intros [HT|?]; [|done]. set_solver.
Qed.

Lemma compile_dex_errors opts filtercfg tmp X errs d mf m e :
  compile_dex opts tmp filtercfg = Val (X, errs) ->
  d ∈ tmp -> new_MethodFilter filtercfg d = Val mf -> m ∈ vm_methods d ->
  failed_by opts mf d m e ->
  (error_record m e) ∈ errs.
Proof.
  unfold compile_dex.
  destruct (compile_dexes opts filtercfg compile_start tmp) as [st'|] eqn:Hrun; [|done].
  intros Heq; inversion Heq; subst.
  destruct (compile_dexes_spec _ _ _ _ _ Hrun) as (_ & _ & Hfail). eauto.
Qed.

(** *** Annotation-marked methods *)

Lemma add_annotation_method_spec (S : gset Method) (m x : Method) :
  x ∈ _add_annotation_method S m <-> x ∈ S \/ (x = m /\ eligible x).
Proof.
  unfold _add_annotation_method, eligible.
  destruct (is_synthetic_method m) eqn:Hs, (is_native_method m) eqn:Hn; cbn;
    rewrite ?elem_of_union, ?elem_of_singleton;
    split; intros Hx; try (by left);
    try (destruct Hx as [Hx|[-> [? ?]]]; [done|congruence]).
  - destruct Hx as [->|Hx]; [right|left]; done.
  - destruct Hx as [Hx|[-> _]]; [right|left]; done.
Qed.

Lemma add_annotation_methods_spec (l : list Method) : forall (S : gset Method) x,
  x ∈ fold_left _add_annotation_method l S <-> x ∈ S \/ (x ∈ l /\ eligible x).
Proof.
  induction l as [|m l IH]; intros S x; cbn [fold_left].
  - split; [by left|]. intros [?|[Hx _]]; [done|]. by apply elem_of_nil in Hx.
  - rewrite IH, add_annotation_method_spec, elem_of_cons. naive_solver.
Qed.

Lemma class_annotations_loop_spec c (tds : list string) : forall (S : gset Method),
  class_annotations_loop c S tds =
    (existsb is_marker tds,
     if existsb is_marker tds
     then fold_left _add_annotation_method (c_methods c) S else S).
Proof.
  induction tds as [|td tds IH]; intros S; cbn [class_annotations_loop existsb].
  - done.
  - destruct (is_marker td); [done|]. by rewrite IH.
Qed.

Lemma method_annotations_step_spec (mi : MethodAnnotation) (S : gset Method) x :
  x ∈ method_annotations_step S mi <->
  x ∈ S \/ (x = mi_method mi /\ eligible x /\
            exists td, td ∈ mi_annotations mi /\ is_marker td = true).
Proof.
  unfold method_annotations_step. revert S.
  induction (mi_annotations mi) as [|td tds IH]; intros S; cbn [fold_left].
  - split; [by left|]. intros [?|(_ & _ & td & Htd & _)]; [done|].
    by apply elem_of_nil in Htd.
  - rewrite IH. destruct (is_marker td) eqn:Htd.
    + rewrite add_annotation_method_spec. split.
      * intros [[Hx|[Hx Hel]]|(Hx & Hel & td' & Hin & Hmk)].
        -- by left.
        -- right. split_and!; [done..|]. exists td.
           split; [apply list_elem_of_here|done].
        -- right. split_and!; [done..|]. exists td'.
           split; [by apply list_elem_of_further|done].
      * intros [Hx|(Hx & Hel & _)]; [by left; left|]. left; right. done.
    + split.
      * intros [Hx|(Hx & Hel & td' & Hin & Hmk)]; [by left|].
        right. split_and!; [done..|]. exists td'.
        split; [by apply list_elem_of_further|done].
      * intros [Hx|(Hx & Hel & td' & Hin & Hmk)]; [by left|].
        apply elem_of_cons in Hin as [->|Hin]; [congruence|].
        right. split_and!; [done..|]. eauto.
Qed.

Lemma method_annotations_fold_spec (mis : list MethodAnnotation) :
  forall (S : gset Method) x,
  x ∈ fold_left method_annotations_step mis S <->
  x ∈ S \/ (eligible x /\ exists mi td, mi ∈ mis /\ x = mi_method mi /\
              td ∈ mi_annotations mi /\ is_marker td = true).
Proof.
  induction mis as [|mi mis IH]; intros S x; cbn [fold_left].
  - split; [by left|]. intros [?|(_ & mi & td & Hmi & _)]; [done|].
    by apply elem_of_nil in Hmi.
  - rewrite IH, method_annotations_step_spec. split.
    + intros [[?|(-> & ? & td & ? & ?)]|(? & mi' & td & ? & ? & ? & ?)].
      * by left.
      * right. split; [done|]. exists mi, td. split; [apply list_elem_of_here|done].
      * right. split; [done|]. exists mi', td. split; [by apply list_elem_of_further|done].
    + intros [?|(? & mi' & td & Hmi & -> & ? & ?)]; [by left; left|].
      apply elem_of_cons in Hmi as [->|Hmi].
      * left; right. eauto.
      * right. split; [done|]. exists mi', td. done.
Qed.

(** What one class adds to the set of annotation-marked methods. *)
Lemma annotation_class_step_spec (S : gset Method) (c : ClassDef) (x : Method) :
  x ∈ annotation_class_step S c <->
  x ∈ S \/
  (eligible x /\
   if class_is_annotated c then x ∈ c_methods c else method_is_annotated c x).
Proof.
  unfold annotation_class_step, class_is_annotated, method_is_annotated.
  destruct (c_annotations c) as [adi|] eqn:Hadi.
  2:{ split; [by left|]. intros [?|[_ (adi & ? & ? & ? & _)]]; done. }
  destruct (adi_class_annotations adi) as [tds|] eqn:Htds.
  - rewrite class_annotations_loop_spec.
    destruct (existsb is_marker tds) eqn:Hex; cbn [negb].
    + rewrite add_annotation_methods_spec. naive_solver.
    + rewrite method_annotations_fold_spec. split.
      * intros [?|(? & mi & td & ? & ? & ? & ?)]; [by left|].
        right. split; [done|]. exists adi, mi, td. done.
      * intros [?|(? & adi' & mi & td & Heq & ? & ? & ? & ?)]; [by left|].
        inversion Heq; subst adi'. right. split; [done|]. exists mi, td. done.
  - cbn [negb]. rewrite method_annotations_fold_spec. split.
    + intros [?|(? & mi & td & ? & ? & ? & ?)]; [by left|].
      right. split; [done|]. exists adi, mi, td. done.
    + intros [?|(? & adi' & mi & td & Heq & ? & ? & ? & ?)]; [by left|].
      inversion Heq; subst adi'. right. split; [done|]. exists mi, td. done.
Qed.

Lemma annotation_fold_spec (cs : list ClassDef) : forall (S : gset Method) x,
  x ∈ fold_left annotation_class_step cs S <->
  x ∈ S \/
  (eligible x /\ exists c, c ∈ cs /\
     if class_is_annotated c then x ∈ c_methods c else method_is_annotated c x).
Proof.
  induction cs as [|c cs IH]; intros S x; cbn [fold_left].
  - split; [by left|]. intros [?|(_ & c & Hc & _)]; [done|].
    by apply elem_of_nil in Hc.
  - rewrite IH, annotation_class_step_spec. split.
    + intros [[?|[? ?]]|(? & c' & ? & ?)].
      * by left.
      * right. split; [done|]. exists c. split; [apply list_elem_of_here|done].
      * right. split; [done|]. exists c'. split; [by apply list_elem_of_further|done].
    + intros [?|(? & c' & Hc & ?)]; [by left; left|].
      apply elem_of_cons in Hc as [->|Hc].
      * left; right. done.
      * right. split; [done|]. exists c'. done.
Qed.

Lemma init_annotation_methods_spec (vm : DalvikVM) (x : Method) :
  x ∈ _init_annotation_methods vm <->
  eligible x /\ exists c, c ∈ vm_classes vm /\
    if class_is_annotated c then x ∈ c_methods c else method_is_annotated c x.
Proof.
  unfold _init_annotation_methods. rewrite annotation_fold_spec.
  split; [|by right]. intros [Hx|?]; [|done]. set_solver.
Qed.

Lemma new_MethodFilter_fields filtercfg (d : DalvikVM) (mf : MethodFilter) :
  new_MethodFilter filtercfg d = Val mf ->
  conflict_methods mf = _init_conflict_methods d /\
  native_methods mf = _init_native_methods d /\
  annotated_methods mf = _init_annotation_methods d.
Proof.
  unfold new_MethodFilter. destruct (_load_filter_configure filtercfg); [|done].
  intros Heq; inversion Heq; subst. done.
Qed.

(** *** The claims about selection *)

(** C1, as amended. The conflict set belongs to a dex file, and no
    method of it is compiled from that file. [should_compile] answers
    [false] for every member of [conflict_methods]; for a package of one
    dex file, the triple of a member of its conflict set is not a key of
    the dict [compile_dex] returns; and for a package of several dex
    files, every key of the returned dict is the triple of a method that
    is not in the conflict set of its own dex file. *)
Theorem conflict_methods_never_compiled (opts : Options) (filtercfg : option string) :
  (forall (mf : MethodFilter) (m : Method),
     m ∈ conflict_methods mf -> should_compile opts mf m = false) /\
  (forall (d : DalvikVM) X errs (m : Method),
     compile_dex opts [d] filtercfg = Val (X, errs) ->
     m ∈ _init_conflict_methods d ->
     get_method_triple m true ∉ dom X) /\
  (forall (tmp : list DalvikVM) X errs (T : Triple),
     compile_dex opts tmp filtercfg = Val (X, errs) ->
     T ∈ dom X ->
     exists d m, d ∈ tmp /\ m ∈ vm_methods d /\
       get_method_triple m true = T /\ m ∉ _init_conflict_methods d).
Proof.
  assert (Hprov : forall (tmp : list DalvikVM) X errs (T : Triple),
     compile_dex opts tmp filtercfg = Val (X, errs) ->
     T ∈ dom X ->
     exists d m, d ∈ tmp /\ m ∈ vm_methods d /\
       get_method_triple m true = T /\ m ∉ _init_conflict_methods d).
  { intros tmp X errs T Hrun HT.
    apply (compile_dex_keys _ _ _ _ _ _ Hrun) in HT
      as (d & mf & m & code & Hd & Hmf & Hm & -> & (_ & Hsc & _)).
    exists d, m. split_and!; try done.
    apply new_MethodFilter_fields in Hmf as (<- & _).
    intros Hc. by rewrite (should_compile_conflict opts mf m Hc) in Hsc. }
  split_and!; [apply should_compile_conflict| |exact Hprov].
  intros d X errs m Hrun Hc HT.
  destruct (Hprov _ _ _ _ Hrun HT) as (d' & m' & Hd' & Hm' & Heq & Hnc).
  apply list_elem_of_singleton in Hd' as ->.
  destruct (decide (m = m')) as [->|Hne]; [done|].
  apply Hnc.
  apply (conflict_methods_complete d m m'); try done.
  - by apply conflict_methods_sound.
  - by apply get_method_triple_false_of_true.
Qed.

(** C2. [should_compile] is the first decision of the ten stages in the
    order of the specification, and a method whose full name matches a
    keep rule is excluded whatever the exact-match set, the annotations
    and the include rules say. *)
Theorem should_compile_order (opts : Options) (mf : MethodFilter) (m : Method) :
  should_compile opts mf m
    = is_include (first_decision (rule_engine_stages opts mf) m) /\
  (any_search (_keep_filters mf) (full_name_of m) = true ->
   should_compile opts mf m = false).
Proof.
  cbv beta iota zeta delta
    [should_compile full_name_of rule_engine_stages first_decision when
     is_include get_method_triple].
  split.
  - repeat match goal with
           | |- context [if ?b then _ else _] => destruct b
           end; reflexivity.
  - intros ->.
    repeat match goal with
           | |- context [if ?b then _ else _] => destruct b
           end; reflexivity.
Qed.

(** C3. A method whose mangled name is longer than 220 characters is
    never a key of the dict [compile_dex] returns, and the step of the
    loop that meets it skips [should_compile]: under every filter it
    leaves both dicts and both error lists as they were and logs the
    diagnostic. *)
Theorem long_jni_name_never_compiled
    (opts : Options) (m : Method) :
  220 < len (jni_longname_of (get_method_triple m true)) ->
  (forall (tmp : list DalvikVM) filtercfg X errs,
     compile_dex opts tmp filtercfg = Val (X, errs) ->
     get_method_triple m true ∉ dom X) /\
  (forall (mf : MethodFilter) (d : DalvikVM) (st : CompileState),
     let st' := compile_method opts mf d st m in
     compiled_method_code st' = compiled_method_code st /\
     X_compiled_method_code st' = X_compiled_method_code st /\
     errors st' = errors st /\ X_errors st' = X_errors st /\
     cd_log st' = cd_log st ++
       [LogDebug ("name to long " +:+ jni_longname_of (get_method_triple m true)
                  +:+ "(> 220) " +:+ full_name_of m)]).
Proof.
  intros Hlong. split.
  - intros tmp filtercfg X errs Hrun HT.
    apply (compile_dex_keys _ _ _ _ _ _ Hrun) in HT
      as (d & mf & m' & code & _ & _ & _ & Heq & (Hlen & _)).
    rewrite <- Heq in Hlen. lia.
  - intros mf d st. unfold compile_method.
    apply Z.ltb_lt in Hlong. rewrite Hlong. done.
Qed.

(** C8. A failing translator does not stop [compile_dex]: whenever the
    rule file loads, the function returns; the record of every method
    that failed is in the returned error list; and every selected method
    the translator gives a source for is a key of the returned dict,
    whatever happened to the other methods. *)
Theorem translator_failure_is_not_fatal
    (opts : Options) (tmp : list DalvikVM) (filtercfg : option string) :
  (forall rs, _load_filter_configure filtercfg = Val rs ->
     exists X errs, compile_dex opts tmp filtercfg = Val (X, errs)) /\
  (forall X errs, compile_dex opts tmp filtercfg = Val (X, errs) ->
     forall d mf m, d ∈ tmp -> new_MethodFilter filtercfg d = Val mf ->
       m ∈ vm_methods d ->
       (forall e, failed_by opts mf d m e -> error_record m e ∈ errs) /\
       (forall code, compiled_by opts mf d m code ->
          get_method_triple m true ∈ dom X)).
Proof.
  split.
  - intros rs Hrs. by apply (compile_dex_total opts filtercfg rs).
  - intros X errs Hrun d mf m Hd Hmf Hm. split.
    + intros e He. by apply (compile_dex_errors opts filtercfg tmp X errs d mf m e).
    + intros code Hc. apply (compile_dex_keys _ _ _ _ _ _ Hrun).
      exists d, mf, m, code. done.
Qed.

(** C9. The set of annotation-marked methods holds no synthetic and no
    native method, so a synthetic method that [should_compile] includes
    is included by the exact-match set or by an include rule, and never
    by the annotation stage, also when skip-synthetic is off. *)
Theorem annotated_methods_exclude_synthetic_native
    (filtercfg : option string) (vm : DalvikVM) (mf : MethodFilter) (m : Method) :
  new_MethodFilter filtercfg vm = Val mf ->
  (m ∈ annotated_methods mf ->
     is_synthetic_method m = false /\ is_native_method m = false) /\
  (forall opts, is_synthetic_method m = true ->
     should_compile opts mf m = true ->
     (m ∉ annotated_methods mf) /\
     (full_name_of m ∈ _compile_full_match mf \/
      any_search (_compile_filters mf) (full_name_of m) = true)).
Proof.
  intros Hmf. apply new_MethodFilter_fields in Hmf as (_ & _ & Hann).
  assert (Hel : m ∈ annotated_methods mf ->
    is_synthetic_method m = false /\ is_native_method m = false).
  { rewrite Hann, init_annotation_methods_spec. by intros [? _]. }
  split; [exact Hel|].
  intros opts Hsyn Hsc.
  assert (Hnot : m ∉ annotated_methods mf).
  { intros Hin. destruct (Hel Hin). congruence. }
  split; [done|].
  apply should_compile_true_inv in Hsc as (_ & _ & _ & _ & _ & _ & Hinc).
  destruct Hinc as [?|[?|?]]; [by left|done|by right].
Qed.

(** C10. When a class carries the marker annotation itself, every method
    of the class that is neither synthetic nor native is in the set of
    annotation-marked methods, with or without an annotation of its own;
    and the class adds exactly those methods: its method annotations are
    read only when the class does not carry the marker. *)
Theorem class_annotation_marks_all_methods (vm : DalvikVM) (c : ClassDef) :
  (c ∈ vm_classes vm -> class_is_annotated c = true ->
   forall m, m ∈ c_methods c ->
     is_synthetic_method m = false -> is_native_method m = false ->
     m ∈ _init_annotation_methods vm) /\
  (forall (S : gset Method) (x : Method),
     x ∈ annotation_class_step S c <->
     x ∈ S \/
     (eligible x /\
      if class_is_annotated c then x ∈ c_methods c
      else method_is_annotated c x)).
Proof.
  split.
  - intros Hc Hann m Hm Hs Hn. apply init_annotation_methods_spec.
    split; [done|]. exists c. split; [done|]. by rewrite Hann.
  - intros S x. apply annotation_class_step_spec.
Qed.

End Proofs.

(** *** Running the model *)

Lemma is_val_eq {A : Type} (dflt : A) (r : Res A) :
  is_val r = true -> r = Val (val_or dflt r).
Proof. by destruct r. Qed.

Lemma is_val_pair {A B : Type} (dflt : A * B) (r : Res (A * B)) :
  is_val r = true -> r = Val (fst (val_or dflt r), snd (val_or dflt r)).
Proof. destruct r as [[a b]|]; done. Qed.

(* ===================================================================== *)
(** ** Proofs: the listing patcher *)
(* ===================================================================== *)

(** *** Strings *)

Lemma append_cons (c : ascii) (a b : string) :
  String c a +:+ b = String c (a +:+ b).
Proof. reflexivity. Qed.

Lemma append_nil_l (s : string) : "" +:+ s = s.
Proof. reflexivity. Qed.

Lemma append_nil_r (s : string) : s +:+ "" = s.
Proof. induction s as [|c s IH]; [done|]. by rewrite append_cons, IH. Qed.

Lemma append_assoc (a b c : string) : (a +:+ b) +:+ c = a +:+ (b +:+ c).
Proof. induction a as [|x a IH]; [done|]. by rewrite !append_cons, IH. Qed.

Lemma prefix_refl_app (p s : string) : String.prefix p (p +:+ s) = true.
Proof.
  induction p as [|c p IH]; [by destruct s|].
  rewrite append_cons. cbn [String.prefix].
  destruct (ascii_dec c c); [done|congruence].
Qed.

Lemma writelines_cons (h : string) (t : list string) :
  writelines (h :: t) = h +:+ writelines t.
Proof.
  unfold writelines. cbn [String.concat]. destruct t; [by rewrite append_nil_r|done].
Qed.

Lemma writelines_app (l1 l2 : list string) :
  writelines (l1 ++ l2) = writelines l1 +:+ writelines l2.
Proof.
  induction l1 as [|h l1 IH]; [done|].
  rewrite <- app_comm_cons, !writelines_cons, IH. by rewrite append_assoc.
Qed.

(** Reading a text line by line and writing the lines back gives the
    text. *)
Lemma readlines_go_writelines (s : string) : forall (cur : string -> string) p,
  (forall x, cur x = p +:+ x) ->
  writelines (readlines_go cur s) = p +:+ s.
Proof.
  induction s as [|c s IH]; intros cur p Hcur; cbn [readlines_go].
  - rewrite Hcur, !append_nil_r. by destruct p.
  - destruct (Ascii.eqb c "010") eqn:Hc.
    + rewrite writelines_cons, (IH (fun x => x) ""), Hcur by done.
      by rewrite append_nil_l, append_assoc.
    + rewrite (IH _ (p +:+ String c "")).
      * by rewrite append_assoc.
      * intros x. by rewrite Hcur, append_assoc.
Qed.

Lemma writelines_readlines (s : string) : writelines (readlines s) = s.
Proof. by apply (readlines_go_writelines s (fun x => x) ""). Qed.

(** [replace] where the old string occurs once. *)
Lemma replace_go_before (tok new rest : string) : forall (pre : string) (i : nat),
  find_from i (pre +:+ rest) tok = Some (i + String.length pre)%nat ->
  replace_go 0 (pre +:+ rest) tok new = pre +:+ replace_go 0 rest tok new.
Proof.
  induction pre as [|c pre IH]; intros i Hfind; [done|].
  rewrite append_cons in *. cbn [replace_go String.length] in *.
  cbn [find_from] in Hfind.
  destruct (String.prefix tok (String c (pre +:+ rest))) eqn:Hp.
  - inversion Hfind. lia.
  - rewrite append_cons. f_equal. apply (IH (S i)). rewrite Hfind. f_equal. lia.
Qed.

Lemma replace_go_skip (tok new post : string) : forall (t : string),
  replace_go (String.length t) (t +:+ post) tok new = replace_go 0 post tok new.
Proof.
  induction t as [|c t IH]; [done|]. by rewrite append_cons.
Qed.

Lemma replace_go_none (tok new : string) : forall (post : string) (i : nat),
  find_from i post tok = None -> replace_go 0 post tok new = post.
Proof.
  induction post as [|c post IH]; intros i Hfind; [done|].
  cbn [find_from] in Hfind. cbn [replace_go].
  destruct (String.prefix tok (String c post)); [done|].
  f_equal. by apply (IH (S i)).
Qed.

Lemma replace_once (tok new pre post : string) :
  tok <> "" -> occurs_once tok pre post ->
  replace (pre +:+ tok +:+ post) tok new = pre +:+ new +:+ post.
Proof.
  intros Hne [Hfirst Hlast]. destruct tok as [|c t]; [done|].
  unfold replace.
  rewrite (replace_go_before (String c t) new (String c t +:+ post) pre 0) by done.
  f_equal.
  pose proof (prefix_refl_app (String c t) post) as Hp.
  rewrite append_cons in *. cbn [replace_go]. rewrite Hp. f_equal.
  cbn [String.length]. replace (S (String.length t) - 1)%nat with (String.length t) by lia.
  rewrite replace_go_skip. by apply (replace_go_none _ _ _ 0%nat).
Qed.

(** *** The loops of the patcher *)

Lemma handle_annotanion_block (content : list string) (stop : string) (rest : list string) :
  (forall l, l ∈ content -> strip l <> ".end annotation") ->
  strip stop = ".end annotation" ->
  handle_annotanion (content ++ stop :: rest) = (content ++ [stop], rest).
Proof.
  intros Hcontent Hstop. induction content as [|l content IH]; cbn.
  - by rewrite Hstop.
  - destruct (String.eqb_spec (strip l) ".end annotation") as [Heq|_].
    + exfalso. apply (Hcontent l); [left|done].
    + rewrite IH; [done|]. intros l' Hl'. apply Hcontent. by right.
Qed.

Lemma handle_method_body_cons (line : string) (fp' : list string) :
  handle_method_body (line :: fp') =
  if String.eqb (strip line) ".end method" then ([], fp')
  else if keeps_annotation (strip line) then
    (line :: fst (handle_annotanion fp') ++
       fst (handle_method_body (snd (handle_annotanion fp'))),
     snd (handle_method_body (snd (handle_annotanion fp'))))
  else handle_method_body fp'.
Proof. by simp handle_method_body. Qed.

Lemma keeps_annotation_not_end (s : string) :
  keeps_annotation s = true -> s <> ".end method".
Proof. intros Hk ->. by vm_compute in Hk. Qed.

(** The body of a method: the blocks are kept, the plain lines are
    dropped, and reading stops after the line that ends the method. *)
Lemma handle_method_body_items (items : list BodyItem) (stop : string) (rest : list string) :
  Forall item_ok items -> strip stop = ".end method" ->
  handle_method_body (body_lines items ++ stop :: rest) = (body_blocks items, rest).
Proof.
  intros Hok Hstop. induction Hok as [|it items Hit _ IH].
  - cbn. rewrite handle_method_body_cons, Hstop. done.
  - unfold body_lines, body_blocks in *. cbn [map concat].
    destruct it as [line|start content stop']; cbn [item_lines] in *.
    + destruct Hit as [Hne Hk]. cbn [app].
      rewrite handle_method_body_cons, Hk.
      apply String.eqb_neq in Hne. rewrite Hne. exact IH.
    + destruct Hit as (Hk & Hcontent & Hstop').
      rewrite <- !app_comm_cons, handle_method_body_cons, Hk.
      pose proof (keeps_annotation_not_end _ Hk) as Hne.
      apply String.eqb_neq in Hne. rewrite Hne.
      rewrite <- !app_assoc. cbn [app].
      rewrite (handle_annotanion_block content stop') by done.
      cbn [fst snd]. rewrite IH. cbn [fst snd].
      by rewrite <- !app_assoc.
Qed.

Lemma scan_listing_cons cm (class_name raw : string) (fp' : list string) :
  scan_listing cm class_name (raw :: fp') =
  if is_selected cm class_name raw then
    native_header raw (strip raw) :: fst (handle_method_body fp') ++
    (".end method" +:+ LF) ::
    scan_listing cm class_name (snd (handle_method_body fp'))
  else raw :: scan_listing cm (class_after class_name raw) fp'.
Proof.
  simp scan_listing. unfold is_selected, class_after.
  destruct (startswith (strip raw) ".class"); [done|].
  destruct (startswith (strip raw) ".method"); [|done].
  cbn [negb andb]. by case_bool_decide.
Qed.

(** Lines that open no compiled method are copied as they are. *)
Lemma scan_listing_unselected cm (pre : list string) : forall class_name rest,
  unselected cm class_name pre = true ->
  scan_listing cm class_name (pre ++ rest) =
  pre ++ scan_listing cm (fold_left class_after pre class_name) rest.
Proof.
  induction pre as [|raw pre IH]; intros class_name rest Hun; [done|].
  cbn [unselected] in Hun. apply andb_true_iff in Hun as [Hraw Hpre].
  apply negb_true_iff in Hraw.
  rewrite <- app_comm_cons, scan_listing_cons, Hraw. cbn [fold_left].
  by rewrite IH.
Qed.

Lemma scan_listing_nil cm class_name : scan_listing cm class_name [] = [].
Proof. by simp scan_listing. Qed.

Lemma native_class_methods_unselected cm (text : string) :
  unselected cm "" (readlines text) = true ->
  native_class_methods text cm = text.
Proof.
  intros Hun. unfold native_class_methods.
  rewrite <- (app_nil_r (readlines text)).
  rewrite scan_listing_unselected, scan_listing_nil, !app_nil_r by done.
  apply writelines_readlines.
Qed.

(** A compiled method: its header, the blocks it keeps and one line
    that ends it. *)
Lemma scan_listing_selected cm class_name (raw : string) (items : list BodyItem)
    (stop : string) (rest : list string) :
  is_selected cm class_name raw = true ->
  Forall item_ok items -> strip stop = ".end method" ->
  scan_listing cm class_name (raw :: body_lines items ++ stop :: rest) =
  native_header raw (strip raw) :: body_blocks items ++
  (".end method" +:+ LF) :: scan_listing cm class_name rest.
Proof.
  intros Hsel Hok Hstop.
  rewrite scan_listing_cons, Hsel, handle_method_body_items by done. done.
Qed.

Lemma native_header_present (raw : string) :
  0 <= find (strip raw) " native " -> native_header raw (strip raw) = raw.
Proof.
  intros Hn. unfold native_header.
  destruct (find (strip raw) " native " <? 0) eqn:Hlt; [|done].
  apply Z.ltb_lt in Hlt. lia.
Qed.

Lemma occurs_once_nonempty (tok pre post : string) :
  occurs_once tok pre post -> tok <> "".
Proof. intros [_ Hpost] ->. by destruct post. Qed.

Lemma native_header_absent (raw pre post : string) :
  find (strip raw) " native " < 0 ->
  raw = pre +:+ last_word (strip raw) +:+ post ->
  occurs_once (last_word (strip raw)) pre post ->
  native_header raw (strip raw) =
  pre +:+ ("native " +:+ last_word (strip raw)) +:+ post.
Proof.
  intros Hn Hraw Honce. unfold native_header.
  apply Z.ltb_lt in Hn. rewrite Hn.
  rewrite Hraw at 1. apply replace_once; [|done].
  by apply (occurs_once_nonempty _ pre post).
Qed.

(** C4, as the code has it. Lines that open no compiled method are
    copied as they are, so a listing without one is written back
    unchanged. A compiled method is rewritten to its header, the
    annotation blocks opened by a runtime annotation line that does not
    name the marker, copied line for line, and one line that ends the
    method: no plain line of the body is left, and an annotation block of
    another visibility is a run of plain lines. The header is the line as
    read when it has the native modifier, and else the line with the
    modifier put before the method token, once where the token occurs
    once. *)
Theorem native_class_methods_rewrite (cm : gmap Triple string) :
  (forall text, unselected cm "" (readlines text) = true ->
     native_class_methods text cm = text) /\
  (forall class_name pre rest, unselected cm class_name pre = true ->
     scan_listing cm class_name (pre ++ rest) =
     pre ++ scan_listing cm (fold_left class_after pre class_name) rest) /\
  (forall class_name raw items stop rest,
     is_selected cm class_name raw = true ->
     Forall item_ok items -> strip stop = ".end method" ->
     scan_listing cm class_name (raw :: body_lines items ++ stop :: rest) =
     native_header raw (strip raw) :: body_blocks items ++
     (".end method" +:+ LF) :: scan_listing cm class_name rest) /\
  (forall raw, 0 <= find (strip raw) " native " ->
     native_header raw (strip raw) = raw) /\
  (forall raw pre post,
     find (strip raw) " native " < 0 ->
     raw = pre +:+ last_word (strip raw) +:+ post ->
     occurs_once (last_word (strip raw)) pre post ->
     native_header raw (strip raw) =
     pre +:+ ("native " +:+ last_word (strip raw)) +:+ post).
Proof.
  split_and!.
  - apply native_class_methods_unselected.
  - intros. by apply scan_listing_unselected.
  - intros. by apply scan_listing_selected.
  - apply native_header_present.
  - apply native_header_absent.
Qed.

(* ===================================================================== *)
(** ** Proofs: the driver *)
(* ===================================================================== *)

(** *** The monad *)

Lemma bind_val {A B : Type} (m : M A) (f : A -> M B) st a st' :
  m st = (Val a, st') -> bind m f st = f a st'.
Proof. unfold bind. by intros ->. Qed.

Lemma bind_raise {A B : Type} (m : M A) (f : A -> M B) st e st' :
  m st = (Raise e, st') -> bind m f st = (Raise e, st').
Proof. unfold bind. by intros ->. Qed.

Lemma add_events_nil st : add_events st [] = st.
Proof. destruct st. unfold add_events. cbn. by rewrite app_nil_r. Qed.

Lemma add_events_app st t1 t2 :
  add_events (add_events st t1) t2 = add_events st (t1 ++ t2).
Proof. unfold add_events. cbn. by rewrite app_assoc. Qed.

Lemma emit_run e st : emit e st = (Val tt, add_events st [e]).
Proof. done. Qed.

(** *** The injection of the call of the loader *)

Lemma next_index_found (P : string -> bool) (l : list string) : forall i j,
  next_index P i l = Some j ->
  exists k x, j = (i + k)%nat /\ l !! k = Some x /\ P x = true /\
    (forall k' y, (k' < k)%nat -> l !! k' = Some y -> P y = false).
Proof.
  induction l as [|x l IH]; intros i j Hnext; cbn in Hnext; [done|].
  destruct (P x) eqn:HP.
  - inversion Hnext; subst. exists 0%nat, x. split_and!; [lia|done|done|].
    intros k' y Hk'. lia.
  - destruct (IH _ _ Hnext) as (k & y & -> & Hk & Hy & Hfirst).
    exists (S k), y. split_and!; [lia|done|done|].
    intros [|k'] z Hlt Hz; cbn in Hz.
    + by inversion Hz; subst.
    + apply (Hfirst k'); [lia|done].
Qed.

(** C5, as the code has it. When the listing of the application class
    mentions the static initializer and no line from there on carries a
    locals or registers directive, the injection logs an error and
    returns the lines as they are: it raises nothing, and whatever
    follows the injection in the run is done next, on those lines. When
    there is such a line, the call of the loader is inserted
    right after the first one, once, and every other line stays where it
    is. *)
Theorem inject_init_call_spec
    (custom_loader : string) (content : list string) (index : nat) (st : St) :
  next_index mentions_clinit 0 content = Some index ->
  match next_index mentions_directive 0 (drop index content) with
  | None =>
      inject_init_call custom_loader content st
      = (Val content, add_events st [clinit_error]) /\
      (forall (B : Type) (k : list string -> M B),
         bind (inject_init_call custom_loader content) k st
         = k content (add_events st [clinit_error]))
  | Some locals_index =>
      exists directive,
        content !! (index + locals_index)%nat = Some directive /\
        mentions_directive directive = true /\
        (forall k y, (k < locals_index)%nat ->
           content !! (index + k)%nat = Some y -> mentions_directive y = false) /\
        inject_init_call custom_loader content st
        = (Val (take (index + locals_index + 1) content ++
                line_to_insert custom_loader ::
                drop (index + locals_index + 1) content), st)
  end.
Proof.
  intros Hindex. unfold inject_init_call. rewrite Hindex.
  destruct (next_index mentions_directive 0 (drop index content))
    as [locals_index|] eqn:Hlocals.
  - destruct (next_index_found _ _ _ _ Hlocals) as (k & x & -> & Hk & Hx & Hfirst).
    rewrite lookup_drop in Hk. exists x. split_and!; try done.
    intros k' y Hlt Hy. apply (Hfirst k'); [lia|]. by rewrite lookup_drop.
  - split; [done|]. intros B k. by apply bind_val.
Qed.

(** *** The reconciliation of the ABI names *)

Lemma reconciled_cons (n : string) (names : list string) :
  reconciled (n :: names) = reconciled_of n ∪ reconciled names.
Proof. done. Qed.

Lemma deprecated_warnings_cons (n : string) (names : list string) :
  deprecated_warnings (n :: names) =
  deprecated_warnings [n] ++ deprecated_warnings names.
Proof. unfold deprecated_warnings. cbn. by rewrite app_nil_r. Qed.

(** One entry that is accepted. *)
Lemma abi_step_accepted (abis : gset string) (n : string) (st : St) :
  negb (lib_entry n) || abi_accepted n = true ->
  abi_step abis n st
  = (Val (reconciled_of n ∪ abis), add_events st (deprecated_warnings [n])).
Proof.
  unfold abi_step, reconciled_of, deprecated_warnings, abi_accepted, lib_entry.
  cbn [mbind list_bind app]. intros Hok.
  destruct (startswith n "lib/"); cbn [negb orb andb] in *.
  - case_bool_decide as Hsup; cbn [negb orb andb] in *.
    + by rewrite add_events_nil.
    + rewrite Hok. done.
  - unfold ret. by rewrite add_events_nil, (left_id_L ∅ (∪)).
Qed.

(** One entry that is rejected. *)
Lemma abi_step_rejected (abis : gset string) (n : string) (st : St) :
  lib_entry n = true -> abi_accepted n = false ->
  abi_step abis n st = (Raise (unsupported_abi (abi_name_of n)), st).
Proof.
  unfold abi_step, abi_accepted, lib_entry. intros -> Hbad.
  apply orb_false_iff in Hbad as [-> ->]. done.
Qed.

Lemma abi_loop_accepted (names : list string) : forall (abis : gset string) (st : St),
  forallb (fun n => negb (lib_entry n) || abi_accepted n) names = true ->
  foldM abi_step abis names st
  = (Val (reconciled names ∪ abis), add_events st (deprecated_warnings names)).
Proof.
  induction names as [|n names IH]; intros abis st Hall; cbn [foldM].
  - unfold ret, reconciled. cbn [fmap list_fmap union_list foldr].
    by rewrite add_events_nil, (left_id_L ∅ (∪)).
  - cbn [forallb] in Hall. apply andb_true_iff in Hall as [Hn Hall].
    rewrite (bind_val _ _ _ _ _ (abi_step_accepted abis n st Hn)).
    rewrite IH by done. rewrite add_events_app, reconciled_cons.
    rewrite <- deprecated_warnings_cons.
    by rewrite (assoc_L (∪)), (comm_L (∪) (reconciled names)).
Qed.

Lemma abi_loop_rejected (pre : list string) (bad : string) (post : list string)
    (abis : gset string) (st : St) :
  forallb (fun n => negb (lib_entry n) || abi_accepted n) pre = true ->
  lib_entry bad = true -> abi_accepted bad = false ->
  foldM abi_step abis (pre ++ bad :: post) st
  = (Raise (unsupported_abi (abi_name_of bad)),
     add_events st (deprecated_warnings pre)).
Proof.
  revert abis st. induction pre as [|n pre IH]; intros abis st Hall Hlib Hbad.
  - cbn [app foldM]. rewrite (bind_raise _ _ _ _ _ (abi_step_rejected abis bad st Hlib Hbad)).
    by rewrite add_events_nil.
  - cbn [forallb] in Hall. apply andb_true_iff in Hall as [Hn Hall].
    cbn [app foldM].
    rewrite (bind_val _ _ _ _ _ (abi_step_accepted abis n st Hn)).
    rewrite IH by done. rewrite add_events_app.
    by rewrite <- deprecated_warnings_cons.
Qed.

(** The first entry that is rejected, when there is one. *)
Lemma first_rejected (names : list string) :
  (exists n, n ∈ names /\ lib_entry n = true /\ abi_accepted n = false) ->
  exists pre bad post, names = pre ++ bad :: post /\
    forallb (fun n => negb (lib_entry n) || abi_accepted n) pre = true /\
    lib_entry bad = true /\ abi_accepted bad = false.
Proof.
  induction names as [|n names IH]; intros (x & Hx & Hlib & Hbad).
  - by apply elem_of_nil in Hx.
  - destruct (negb (lib_entry n) || abi_accepted n) eqn:Hn.
    + apply elem_of_cons in Hx as [->|Hx].
      { rewrite Hlib, Hbad in Hn. done. }
      destruct IH as (pre & bad & post & -> & Hpre & ? & ?); [eauto|].
      exists (n :: pre), bad, post. split_and!; try done.
      cbn [forallb]. by rewrite Hn, Hpre.
    + apply orb_false_iff in Hn as [Hl Ha]. apply negb_false_iff in Hl.
      exists [], n, names. done.
Qed.

Lemma all_accepted_or_rejected (names : list string) :
  forallb (fun n => negb (lib_entry n) || abi_accepted n) names = true \/
  exists n, n ∈ names /\ lib_entry n = true /\ abi_accepted n = false.
Proof.
  induction names as [|n names [IH|(x & Hx & ? & ?)]].
  - by left.
  - destruct (negb (lib_entry n) || abi_accepted n) eqn:Hn.
    + left. cbn. by rewrite Hn, IH.
    + right. apply orb_false_iff in Hn as [Hl Ha]. apply negb_false_iff in Hl.
      exists n. split_and!; [left|done|done].
  - right. exists x. split_and!; [by right|done|done].
Qed.

Lemma elem_of_reconciled (names : list string) (x : string) :
  x ∈ reconciled names <->
  exists n, n ∈ names /\ lib_entry n = true /\
    ((abi_name_of n = x /\ x ∈ supported_abis) \/
     (abi_name_of n ∈ depreacated_abis /\ (abi_name_of n ∉ supported_abis) /\
      x = "armeabi-v7a")).
Proof.
  unfold reconciled. rewrite elem_of_union_list. split.
  - intros (X & HX & Hx). apply list_elem_of_fmap in HX as (n & -> & Hn).
    exists n. split; [done|]. unfold reconciled_of in Hx.
    destruct (lib_entry n); [|set_solver]. split; [done|].
    case_bool_decide as Hsup.
    + left. apply elem_of_singleton in Hx as ->. done.
    + case_bool_decide as Hdep; [|set_solver].
      right. apply elem_of_singleton in Hx. done.
  - intros (n & Hn & Hlib & Hcase). exists (reconciled_of n).
    split; [apply list_elem_of_fmap; eauto|].
    unfold reconciled_of. rewrite Hlib.
    destruct Hcase as [[<- Hsup]|(Hdep & Hnsup & ->)].
    + rewrite bool_decide_eq_true_2 by done. set_solver.
    + rewrite bool_decide_eq_false_2, bool_decide_eq_true_2 by done. set_solver.
Qed.

Lemma deprecated_warnings_elem (names : list string) (n : string) :
  n ∈ names -> lib_entry n = true -> abi_name_of n = "armeabi" ->
  deprecated_warning ∈ deprecated_warnings names.
Proof.
  intros Hn Hlib Habi. unfold deprecated_warnings.
  apply list_elem_of_bind. exists n. split; [|done].
  rewrite Hlib, Habi. cbn. left.
Qed.

(** The two outcomes of [shutil.copy]. *)
Lemma shutil_copy_run (w : World) (src dst : string) (st : St) :
  shutil_copy w src dst st =
  if bool_decide (src ∈ dom (files st)) || w_exists w src
  then (Val tt, {| trace := trace st ++ [EvCopyFile src dst];
                   files := match files st !! src with
                            | Some content => <[ dst := content ]> (files st)
                            | None => files st
                            end |})
  else (Raise (FileNotFoundError src), st).
Proof.
  unfold shutil_copy, bind, os_path_exists.
  by destruct (bool_decide (src ∈ dom (files st)) || w_exists w src).
Qed.

(** The run of [adjust_application_mk] on a package whose entries are
    all accepted. *)
Lemma adjust_accepted (w : World) (apkfile : string) (names : list string) (st : St) :
  is_apk apkfile = true -> w_namelist w = Val names ->
  forallb (fun n => negb (lib_entry n) || abi_accepted n) names = true ->
  adjust_application_mk w apkfile st =
  let st1 := add_events st (adjusting :: deprecated_warnings names) in
  if bool_decide (size (reconciled names) = 0%nat) then
    (Val tt, add_events st1 [LogInfo
       "No lib abis found in apk, using the ones defined in Application.mk file"])
  else
    match files st !! application_mk_path with
    | None => (Raise (FileNotFoundError application_mk_path), st1)
    | Some text =>
        let temp := w_temp w "-application.mk" in
        let content :=
          writelines (map (rewrite_app_abi w (reconciled names)) (readlines text)) in
        shutil_copy w temp application_mk_path
          (snd (os_remove application_mk_path (snd (open_write temp content st1))))
    end.
Proof.
  intros Hapk Hnames Hall. unfold adjust_application_mk.
  rewrite (bind_val _ _ _ _ _ (emit_run _ st)), Hapk.
  unfold lift at 1. rewrite Hnames.
  rewrite (bind_val _ _ (add_events st [adjusting]) names (add_events st [adjusting]))
    by done.
  rewrite (bind_val _ _ _ _ _ (abi_loop_accepted names ∅ _ Hall)).
  rewrite (right_id_L ∅ (∪)), add_events_app. cbn [app].
  cbn zeta. case_bool_decide; [done|].
  unfold bind at 1, open_read at 1. cbn [files add_events].
  destruct (files st !! application_mk_path) as [text|]; [|done].
  done.
Qed.

Lemma adjust_rejected (w : World) (apkfile : string) (names : list string) (st : St) :
  is_apk apkfile = true -> w_namelist w = Val names ->
  (exists n, n ∈ names /\ lib_entry n = true /\ abi_accepted n = false) ->
  exists n, n ∈ names /\ lib_entry n = true /\ abi_accepted n = false /\
    fst (adjust_application_mk w apkfile st) = Raise (unsupported_abi (abi_name_of n)).
Proof.
  intros Hapk Hnames Hbad.
  destruct (first_rejected names Hbad) as (pre & bad & post & -> & Hpre & Hlib & Hrej).
  exists bad. split_and!; try done.
  { apply elem_of_app. right. left. }
  unfold adjust_application_mk.
  rewrite (bind_val _ _ _ _ _ (emit_run _ st)), Hapk.
  unfold lift at 1. rewrite Hnames.
  rewrite (bind_val _ _ (add_events st [adjusting]) (pre ++ bad :: post)
             (add_events st [adjusting])) by done.
  by rewrite (bind_raise _ _ _ _ _ (abi_loop_rejected pre bad post ∅ _ Hpre Hlib Hrej)).
Qed.

Lemma with_namelist_force `{Collaborators} (w : World) (namelist : Res (list string))
    (opts : Options) (apkfile filtercfg custom_loader outapk : string)
    (do_compile : bool) (project_dir source_archive : string) :
  force_keep_libs opts = true ->
  dcc_main (with_namelist w namelist) opts apkfile filtercfg custom_loader outapk
    do_compile project_dir source_archive
  = dcc_main w opts apkfile filtercfg custom_loader outapk
      do_compile project_dir source_archive.
Proof.
  intros Hforce. unfold dcc_main. rewrite Hforce. reflexivity.
Qed.

Lemma armeabi_is_deprecated (n : string) :
  abi_name_of n = "armeabi" ->
  abi_name_of n ∈ depreacated_abis /\ (abi_name_of n ∉ supported_abis).
Proof. intros ->. split; compute_done. Qed.

Lemma adjust_returns_accepted (w : World) (apkfile : string) (names : list string) (st : St) :
  is_apk apkfile = true -> w_namelist w = Val names ->
  fst (adjust_application_mk w apkfile st) = Val tt ->
  forallb (fun n => negb (lib_entry n) || abi_accepted n) names = true.
Proof.
  intros Hapk Hnames Hval.
  destruct (all_accepted_or_rejected names) as [Hall|Hbad]; [done|].
  destruct (adjust_rejected w apkfile names st Hapk Hnames Hbad) as (n & _ & _ & _ & Hr).
  congruence.
Qed.

(** C6. On a package file, [adjust_application_mk] raises for an entry
    under [lib/] whose ABI directory name is neither supported nor the
    deprecated one; with the override [dcc_main] does not depend on the
    entries of the package at all; an entry under the deprecated name
    brings a warning and the modern name into the reconciled set; and
    when the set is not empty, every [APP_ABI] line of [Application.mk]
    is rewritten to the names of the reconciled set, in the order the
    set is iterated in, and the other lines are kept. *)
Theorem adjust_application_mk_reconciles `{Collaborators}
    (w : World) (apkfile : string) (names : list string) (st : St) :
  is_apk apkfile = true -> w_namelist w = Val names ->
  ((exists n, n ∈ names /\ lib_entry n = true /\ abi_accepted n = false) ->
   exists n, n ∈ names /\ lib_entry n = true /\ abi_accepted n = false /\
     fst (adjust_application_mk w apkfile st)
     = Raise (unsupported_abi (abi_name_of n))) /\
  (forall namelist opts filtercfg custom_loader outapk do_compile project_dir
          source_archive,
     force_keep_libs opts = true ->
     dcc_main (with_namelist w namelist) opts apkfile filtercfg custom_loader
       outapk do_compile project_dir source_archive
     = dcc_main w opts apkfile filtercfg custom_loader outapk do_compile
         project_dir source_archive) /\
  (fst (adjust_application_mk w apkfile st) = Val tt ->
   forall n, n ∈ names -> lib_entry n = true -> abi_name_of n = "armeabi" ->
     deprecated_warning ∈ trace (snd (adjust_application_mk w apkfile st)) /\
     "armeabi-v7a" ∈ reconciled names) /\
  (fst (adjust_application_mk w apkfile st) = Val tt ->
   reconciled names <> ∅ ->
   w_temp w "-application.mk" <> application_mk_path ->
   exists text order,
     files st !! application_mk_path = Some text /\
     order ≡ₚ elements (reconciled names) /\
     files (snd (adjust_application_mk w apkfile st)) !! application_mk_path
     = Some (writelines
               (map (fun line =>
                       if startswith line "APP_ABI"
                       then "APP_ABI := " +:+ join " " order +:+ LF
                       else line)
                    (readlines text)))) /\
  (forall x, x ∈ reconciled names <->
     exists n, n ∈ names /\ lib_entry n = true /\
       ((abi_name_of n = x /\ x ∈ supported_abis) \/
        (abi_name_of n ∈ depreacated_abis /\ (abi_name_of n ∉ supported_abis) /\
         x = "armeabi-v7a"))).
Proof.
  intros Hapk Hnames. split_and!.
  - by apply adjust_rejected.
  - intros. by apply with_namelist_force.
  - intros Hval n Hn Hlib Habi.
    pose proof (adjust_returns_accepted w apkfile names st Hapk Hnames Hval) as Hall.
    split.
    + pose proof (deprecated_warnings_elem names n Hn Hlib Habi) as Hw.
      rewrite (adjust_accepted w apkfile names st Hapk Hnames Hall) in Hval |- *.
      cbn zeta in *. case_bool_decide.
      * cbn. set_solver.
      * destruct (files st !! application_mk_path); [|done].
        rewrite shutil_copy_run in Hval |- *.
        destruct (_ || _); [|done]. cbn. set_solver.
    + apply elem_of_reconciled. exists n. split_and!; try done.
      right. destruct (armeabi_is_deprecated n Habi). done.
  - intros Hval Hne Htemp.
    pose proof (adjust_returns_accepted w apkfile names st Hapk Hnames Hval) as Hall.
    rewrite (adjust_accepted w apkfile names st Hapk Hnames Hall) in Hval |- *.
    cbn zeta in *. case_bool_decide as Hsize.
    { apply size_empty_iff in Hsize. apply leibniz_equiv in Hsize. done. }
    destruct (files st !! application_mk_path) as [text|]; [|done].
    exists text, (w_set_order w (reconciled names)).
    split_and!; [done|apply w_set_order_perm|].
    rewrite shutil_copy_run in Hval |- *.
    destruct (_ || _); [|done].
    unfold os_remove, open_write. cbn [snd files].
    rewrite lookup_delete_ne, lookup_insert_eq by done.
    by rewrite lookup_insert_eq.
  - apply elem_of_reconciled.
Qed.

(** *** Steps that add only events of one kind *)

Section EmitsOnly.
Context (P : Event -> bool).

Lemma emits_only_ret {A : Type} (a : A) : emits_only P (ret a).
Proof. intros st. exists []. by rewrite app_nil_r. Qed.

Lemma emits_only_raise {A : Type} (e : Exn) : emits_only P (raise (A := A) e).
Proof. intros st. exists []. by rewrite app_nil_r. Qed.

Lemma emits_only_lift {A : Type} (r : Res A) : emits_only P (lift r).
Proof. intros st. exists []. by rewrite app_nil_r. Qed.

Lemma emits_only_emit (e : Event) : P e = true -> emits_only P (emit e).
Proof. intros He st. exists [e]. split; [done|]. by constructor. Qed.

Lemma emits_only_bind {A B : Type} (m : M A) (f : A -> M B) :
  emits_only P m -> (forall a, emits_only P (f a)) -> emits_only P (bind m f).
Proof.
  intros Hm Hf st. unfold bind. destruct (Hm st) as (t1 & Ht1 & HP1).
  destruct (m st) as [[a|e] st1]; cbn [snd] in *.
  - destruct (Hf a st1) as (t2 & Ht2 & HP2). exists (t1 ++ t2).
    rewrite Ht2, Ht1, app_assoc. split; [done|]. by apply Forall_app.
  - by exists t1.
Qed.

Lemma emits_only_open_read (path : string) : emits_only P (open_read path).
Proof.
  intros st. exists []. rewrite app_nil_r. unfold open_read.
  by destruct (files st !! path).
Qed.

Lemma emits_only_open_write (path content : string) :
  P (EvWriteFile path content) = true -> emits_only P (open_write path content).
Proof. intros He st. exists [EvWriteFile path content]. split; [done|]. by constructor. Qed.

Lemma emits_only_os_remove (path : string) :
  P (EvRemove path) = true -> emits_only P (os_remove path).
Proof. intros He st. exists [EvRemove path]. split; [done|]. by constructor. Qed.

Lemma emits_only_shutil_copy (w : World) (src dst : string) :
  P (EvCopyFile src dst) = true -> emits_only P (shutil_copy w src dst).
Proof.
  intros He st. rewrite shutil_copy_run. destruct (_ || _).
  - exists [EvCopyFile src dst]. split; [done|]. by constructor.
  - exists []. by rewrite app_nil_r.
Qed.

Lemma emits_only_os_path_exists (w : World) (path : string) :
  emits_only P (os_path_exists w path).
Proof. intros st. exists []. by rewrite app_nil_r. Qed.

Lemma emits_only_foldM {A B : Type} (f : B -> A -> M B) (l : list A) :
  (forall b a, emits_only P (f b a)) -> forall b, emits_only P (foldM f b l).
Proof.
  intros Hf. induction l as [|a l IH]; intros b; cbn [foldM].
  - apply emits_only_ret.
  - apply emits_only_bind; [apply Hf|apply IH].
Qed.

Lemma emits_only_forM_emit (t : list Event) :
  Forall (fun e => P e = true) t -> emits_only P (forM emit t).
Proof.
  induction 1 as [|e t He _ IH]; cbn [forM].
  - apply emits_only_ret.
  - apply emits_only_bind; [by apply emits_only_emit|done].
Qed.

End EmitsOnly.

Lemma emits_only_adjust (w : World) (apkfile : string) :
  emits_only early (adjust_application_mk w apkfile).
Proof.
  unfold adjust_application_mk.
  apply emits_only_bind; [by apply emits_only_emit|intros _].
  destruct (is_apk apkfile); [|apply emits_only_raise].
  apply emits_only_bind; [apply emits_only_lift|intros names].
  apply emits_only_bind.
  { apply emits_only_foldM. intros abis n. unfold abi_step.
    destruct (startswith n "lib/"); [|apply emits_only_ret].
    case_bool_decide; [apply emits_only_ret|].
    case_bool_decide; [|apply emits_only_raise].
    apply emits_only_bind; [by apply emits_only_emit|intros _; apply emits_only_ret]. }
  intros abis. case_bool_decide; [by apply emits_only_emit|].
  apply emits_only_bind; [apply emits_only_open_read|intros text].
  apply emits_only_bind; [by apply emits_only_open_write|intros _].
  apply emits_only_bind; [by apply emits_only_os_remove|intros _].
  by apply emits_only_shutil_copy.
Qed.

Section CompileLog.
Context `{Collaborators}.

Lemma compile_method_log opts mf d st m :
  Forall (fun e => early e = true) (cd_log st) ->
  Forall (fun e => early e = true) (cd_log (compile_method opts mf d st m)).
Proof.
  intros Hst. unfold compile_method.
  destruct (220 <? _); cbn [cd_log].
  { apply Forall_app. split; [done|]. by constructor. }
  destruct (should_compile opts mf m); [|done].
  destruct (get_source_method d m) as [e|code]; cbn [cd_log].
  - rewrite !Forall_app. split_and!; [done|by constructor|by constructor].
  - destruct (truthy code); cbn [cd_log];
      (apply Forall_app; split; [done|by constructor]).
Qed.

Lemma compile_fold_log opts mf d l : forall st,
  Forall (fun e => early e = true) (cd_log st) ->
  Forall (fun e => early e = true)
    (cd_log (fold_left (compile_method opts mf d) l st)).
Proof.
  induction l as [|m l IH]; intros st Hst; cbn [fold_left]; [done|].
  by apply IH, compile_method_log.
Qed.

Lemma compile_dexes_log opts filtercfg tmp : forall st st',
  compile_dexes opts filtercfg st tmp = Val st' ->
  Forall (fun e => early e = true) (cd_log st) ->
  Forall (fun e => early e = true) (cd_log st').
Proof.
  induction tmp as [|d tmp IH]; intros st st' Hrun Hst; cbn [compile_dexes] in Hrun.
  - by inversion Hrun; subst.
  - destruct (compile_one_dex opts filtercfg st d) as [st1|e] eqn:Hone; [|done].
    apply (IH _ _ Hrun). unfold compile_one_dex in Hone.
    destruct (new_MethodFilter filtercfg d); [|done].
    inversion Hone. by apply compile_fold_log.
Qed.

Lemma compile_dex_log_early opts tmp filtercfg :
  Forall (fun e => early e = true) (compile_dex_log opts tmp filtercfg).
Proof.
  unfold compile_dex_log.
  destruct (compile_dexes opts filtercfg compile_start tmp) as [st'|] eqn:Hrun; [|done].
  apply (compile_dexes_log _ _ _ _ _ Hrun). done.
Qed.

Lemma emits_only_compile_dex_step (w : World) opts filtercfg :
  emits_only early (compile_dex_step w opts filtercfg).
Proof.
  unfold compile_dex_step.
  apply emits_only_bind; [apply emits_only_lift|intros tmp].
  intros st.
  apply (emits_only_bind early
           (forM emit (compile_dex_log opts tmp (files st !! filtercfg)))
           (fun _ => lift (compile_dex opts tmp (files st !! filtercfg)))).
  - apply emits_only_forM_emit, compile_dex_log_early.
  - intros _. apply emits_only_lift.
Qed.

Lemma emits_only_until_compiled (w : World) opts apkfile filtercfg custom_loader outapk :
  emits_only early
    (dcc_main_until_compiled w opts apkfile filtercfg custom_loader outapk).
Proof.
  unfold dcc_main_until_compiled.
  apply emits_only_bind; [apply emits_only_os_path_exists|intros apk_exists].
  destruct (negb apk_exists).
  { apply emits_only_bind; [by apply emits_only_emit|intros _; apply emits_only_ret]. }
  destruct (negb (truthy outapk)).
  { apply emits_only_bind; [by apply emits_only_emit|intros _; apply emits_only_ret]. }
  destruct (rfind custom_loader "." =? -1).
  { apply emits_only_bind; [by apply emits_only_emit|intros _; apply emits_only_ret]. }
  apply emits_only_bind; [apply emits_only_open_read|intros data].
  apply emits_only_bind; [by apply emits_only_open_write|intros _].
  apply emits_only_bind.
  { destruct (negb (force_keep_libs opts)); [apply emits_only_adjust|apply emits_only_ret]. }
  intros _. apply emits_only_bind; [apply emits_only_compile_dex_step|intros r].
  apply emits_only_ret.
Qed.

End CompileLog.

Section NoMethods.
Context `{Collaborators}.

Lemma report_errors_run (errors : list string) (st : St) :
  report_errors errors st = (Val tt, add_events st (error_report errors)).
Proof.
  unfold report_errors, error_report. destruct errors as [|e errors].
  - cbn. by rewrite add_events_nil.
  - rewrite bool_decide_eq_false_2 by done. cbn [negb].
    unfold bind, emit, add_events. cbn. by rewrite <- !app_assoc.
Qed.

(** C7. When [compile_dex] returns an empty dict, [dcc_main] logs the
    report of the failures and the message, and returns: the state it
    leaves is the one [compile_dex] returned in, with those log records
    added; and the run up to there has added only log records and the
    writes, removals and copies of single files of the bootstrap patch
    and of the ABI reconciliation, so no build, decompile, listing patch,
    repackage or sign step. *)
Theorem no_methods_compiled_returns
    (w : World) (opts : Options)
    (apkfile filtercfg custom_loader outapk : string)
    (do_compile : bool) (project_dir source_archive : string)
    (st st1 : St) (errors : list string) :
  dcc_main_until_compiled w opts apkfile filtercfg custom_loader outapk st
  = (Val (Some (∅, errors)), st1) ->
  dcc_main w opts apkfile filtercfg custom_loader outapk do_compile
    project_dir source_archive st
  = (Val tt, add_events st1 (error_report errors ++ [no_methods_message])) /\
  (exists t, trace st1 = trace st ++ t /\ Forall (fun e => early e = true) t) /\
  (exists tmp configure,
     w_dexes w = Val tmp /\ compile_dex opts tmp configure = Val (∅, errors)).
Proof.
  intros Hun. split_and!.
  - unfold dcc_main. unfold dcc_main_until_compiled in Hun.
    unfold bind at 1 in Hun. unfold bind at 1.
    destruct (os_path_exists w apkfile st) as [[apk_exists|e] st0]; [|done].
    destruct (negb apk_exists). { by cbn in Hun. }
    destruct (negb (truthy outapk)). { by cbn in Hun. }
    destruct (rfind custom_loader "." =? -1). { by cbn in Hun. }
    unfold bind at 1 in Hun. unfold bind at 1.
    destruct (open_read "project/jni/nc/Dex2C.cpp" st0) as [[data|e] st2]; [|done].
    unfold bind at 1 in Hun. unfold bind at 1.
    destruct (open_write _ _ st2) as [[[]|e] st3]; [|done].
    unfold bind at 1 in Hun. unfold bind at 1.
    match type of Hun with
    | context [match ?m st3 with _ => _ end] =>
        destruct (m st3) as [[[]|e] st4]; [|done]
    end.
    unfold bind at 1 in Hun. unfold bind at 1.
    destruct (compile_dex_step w opts filtercfg st4) as [[[cm errs]|e] st5]; [|done].
    cbn in Hun. inversion Hun; subst.
    rewrite (bind_val _ _ _ _ _ (report_errors_run errors st1)).
    rewrite bool_decide_eq_true_2 by apply map_size_empty.
    by rewrite emit_run, add_events_app.
  - pose proof (emits_only_until_compiled w opts apkfile filtercfg custom_loader
                  outapk st) as (t & Ht & HP).
    rewrite Hun in Ht. by exists t.
  - unfold dcc_main_until_compiled in Hun.
    unfold bind at 1 in Hun.
    destruct (os_path_exists w apkfile st) as [[apk_exists|e] st0]; [|done].
    destruct (negb apk_exists). { by cbn in Hun. }
    destruct (negb (truthy outapk)). { by cbn in Hun. }
    destruct (rfind custom_loader "." =? -1). { by cbn in Hun. }
    unfold bind at 1 in Hun.
    destruct (open_read "project/jni/nc/Dex2C.cpp" st0) as [[data|e] st2]; [|done].
    unfold bind at 1 in Hun.
    destruct (open_write _ _ st2) as [[[]|e] st3]; [|done].
    unfold bind at 1 in Hun.
    match type of Hun with
    | context [match ?m st3 with _ => _ end] =>
        destruct (m st3) as [[[]|e] st4]; [|done]
    end.
    unfold bind at 1 in Hun.
    destruct (compile_dex_step w opts filtercfg st4) as [[[cm errs]|e] st5] eqn:Hstep;
      [|done].
    cbn in Hun. inversion Hun; subst.
    unfold compile_dex_step, bind, lift in Hstep.
    destruct (w_dexes w) as [tmp|]; [|done].
    exists tmp, (files st4 !! filtercfg). split; [done|].
    destruct (forM emit _ st4) as [[[]|e] st6]; [|done].
    destruct (compile_dex opts tmp (files st4 !! filtercfg)); [|done].
    by inversion Hstep.
Qed.

End NoMethods.

(* ===================================================================== *)
(** ** Further proofs: the rule file and the three sets of the filter *)
(* ===================================================================== *)

Section FurtherSelection.
Context `{Collaborators}.

(** *** The rule file *)

Lemma startswith_cons (c a : ascii) (s : string) :
  startswith (String c s) (String a "") = bool_decide (a = c).
Proof.
  unfold startswith. cbn. destruct (ascii_dec a c) as [->|Hne].
  - rewrite bool_decide_eq_true_2 by done. by destruct s.
  - by rewrite bool_decide_eq_false_2.
Qed.

Lemma load_filter_line_comment (rs : Rules) (line : string) :
  is_comment_line line = true -> load_filter_line rs line = Val rs.
Proof. unfold is_comment_line, load_filter_line. by intros ->. Qed.

Lemma load_filter_lines_app (rs : Rules) (l1 l2 : list string) :
  load_filter_lines rs (l1 ++ l2) =
  match load_filter_lines rs l1 with
  | Val rs1 => load_filter_lines rs1 l2
  | Raise e => Raise e
  end.
Proof.
  revert rs. induction l1 as [|line l1 IH]; intros rs; cbn; [done|].
  destruct (load_filter_line rs line); [apply IH|done].
Qed.

(** X1. A blank line and a comment line of the rule file change nothing,
    wherever they stand: the rules read from the lines are those read
    from the lines without it, and so is the error, if there is one. *)
Theorem rule_file_comments_ignored (rs : Rules) (l1 : list string) (c : string)
    (l2 : list string) :
  is_comment_line c = true ->
  load_filter_lines rs (l1 ++ c :: l2) = load_filter_lines rs (l1 ++ l2).
Proof.
  intros Hc. rewrite !load_filter_lines_app.
  destruct (load_filter_lines rs l1) as [rs1|e]; [|done].
  cbn. by rewrite load_filter_line_comment.
Qed.

Lemma load_filter_line_exact (rs rs' : Rules) (line : string) (x : string) :
  load_filter_line rs line = Val rs' ->
  x ∈ r_compile_full_match rs' <->
  x ∈ r_compile_full_match rs \/ exact_rule line = Some x.
Proof.
  unfold load_filter_line, exact_rule.
  destruct (strip line) as [|c s] eqn:Hs.
  { cbn. intros [= <-]. naive_solver. }
  cbn [truthy negb orb]. rewrite !startswith_cons.
  repeat case_bool_decide; subst; try discriminate.
  - intros [= <-]. naive_solver.
  - destruct (re_compile _); [|done]. intros [= <-]. cbn. naive_solver.
  - intros [= <-]. cbn. set_solver.
  - destruct (re_compile _); [|done]. intros [= <-]. cbn. naive_solver.
Qed.

Lemma exact_rules_spec (lines : list string) (rs : Rules) (x : string) :
  load_filter_lines no_rules lines = Val rs ->
  x ∈ r_compile_full_match rs <->
  exists line, line ∈ lines /\ exact_rule line = Some x.
Proof.
  assert (forall rs0 rs1, load_filter_lines rs0 lines = Val rs1 ->
            x ∈ r_compile_full_match rs1 <->
            x ∈ r_compile_full_match rs0 \/
            exists line, line ∈ lines /\ exact_rule line = Some x) as Hgen.
  { induction lines as [|line lines IH]; intros rs0 rs1; cbn.
    - intros [= <-]. split; [by left|intros [?|(l & Hl & _)]; [done|]].
      by apply elem_of_nil in Hl.
    - destruct (load_filter_line rs0 line) as [rs2|e] eqn:Hline; [|done].
      intros Hrest. rewrite (IH _ _ Hrest), (load_filter_line_exact _ _ _ _ Hline).
      split.
      + intros [[?|?]|(l & Hl & Hx)]; [by left|right..].
        * exists line. split; [apply list_elem_of_here|done].
        * exists l. split; [by apply list_elem_of_further|done].
      + intros [?|(l & Hl & Hx)]; [by left; left|].
        apply elem_of_cons in Hl as [->|Hl]; [by left; right|].
        right. by exists l. }
  intros Hload. rewrite (Hgen _ _ Hload). cbn. set_solver.
Qed.

Lemma load_filter_line_lists (rs rs' : Rules) (line : string) :
  load_filter_line rs line = Val rs' ->
  match keep_rule line with
  | Some p => exists r, re_compile p = Some r /\
                r_keep_filters rs' = r_keep_filters rs ++ [r]
  | None => r_keep_filters rs' = r_keep_filters rs
  end /\
  match include_rule line with
  | Some p => exists r, re_compile p = Some r /\
                r_compile_filters rs' = r_compile_filters rs ++ [r]
  | None => r_compile_filters rs' = r_compile_filters rs
  end.
Proof.
  unfold load_filter_line, keep_rule, include_rule.
  destruct (strip line) as [|c s] eqn:Hs.
  { cbn. by intros [= <-]. }
  cbn [truthy negb orb]. rewrite !startswith_cons.
  repeat case_bool_decide; subst; try discriminate; cbn [orb].
  - by intros [= <-].
  - destruct (re_compile _) as [r|] eqn:Hr; [|done]. intros [= <-]. cbn.
    split; [by exists r|done].
  - by intros [= <-].
  - destruct (re_compile _) as [r|] eqn:Hr; [|done]. intros [= <-]. cbn.
    split; [done|by exists r].
Qed.

Lemma load_filter_lines_lists (lines : list string) : forall rs0 rs1,
  load_filter_lines rs0 lines = Val rs1 ->
  (exists K, r_keep_filters rs1 = r_keep_filters rs0 ++ K /\
     Forall2 (fun r p => re_compile p = Some r) K (omap keep_rule lines)) /\
  (exists I, r_compile_filters rs1 = r_compile_filters rs0 ++ I /\
     Forall2 (fun r p => re_compile p = Some r) I (omap include_rule lines)).
Proof.
  induction lines as [|line lines IH]; intros rs0 rs1; cbn [load_filter_lines].
  - intros [= <-]. split; exists []; by rewrite app_nil_r.
  - destruct (load_filter_line rs0 line) as [rs2|e] eqn:Hline; [|done].
    intros Hrest. apply IH in Hrest as [(K & HK & HKs) (I & HI & HIs)].
    apply load_filter_line_lists in Hline as [Hk Hi].
    change (omap keep_rule (line :: lines))
      with (match keep_rule line with
            | Some p => p :: omap keep_rule lines
            | None => omap keep_rule lines end).
    change (omap include_rule (line :: lines))
      with (match include_rule line with
            | Some p => p :: omap include_rule lines
            | None => omap include_rule lines end).
    split.
    + destruct (keep_rule line) as [p|].
      * destruct Hk as (r & Hr & Hk). exists (r :: K). rewrite HK, Hk.
        split; [by rewrite <- app_assoc|by constructor].
      * exists K. by rewrite HK, Hk.
    + destruct (include_rule line) as [p|].
      * destruct Hi as (r & Hr & Hi). exists (r :: I). rewrite HI, Hi.
        split; [by rewrite <- app_assoc|by constructor].
      * exists I. by rewrite HI, Hi.
Qed.

(** X2. The rules of a rule file that loads. The keep rules are the
    compiled patterns of the lines that start with the exclamation mark,
    in the order of the file; the include rules those of the lines that
    start with none of the three signs, in the order of the file; and a
    name is an exact name when some line starts with the equals sign and
    has the name behind it. So only the order within the keep rules and
    within the include rules is kept; lines of different kinds can be
    mixed freely. *)
Theorem rule_file_rules_in_order (lines : list string) (rs : Rules) :
  load_filter_lines no_rules lines = Val rs ->
  Forall2 (fun r p => re_compile p = Some r)
    (r_keep_filters rs) (omap keep_rule lines) /\
  Forall2 (fun r p => re_compile p = Some r)
    (r_compile_filters rs) (omap include_rule lines) /\
  (forall x, x ∈ r_compile_full_match rs <->
     exists line, line ∈ lines /\ exact_rule line = Some x).
Proof.
  intros Hload.
  destruct (load_filter_lines_lists _ _ _ Hload) as [(K & HK & HKs) (I & HI & HIs)].
  cbn in HK, HI. subst. split_and!; [done..|].
  intros x. by apply exact_rules_spec.
Qed.

Lemma load_filter_line_bad (rs : Rules) (line p : string) :
  rule_pattern line = Some p -> re_compile p = None ->
  load_filter_line rs line = Raise (ReError p).
Proof.
  unfold rule_pattern, load_filter_line.
  destruct (negb (truthy (strip line)) || startswith (strip line) "#"); [done|].
  cbn [orb].
  destruct (startswith (strip line) "=") eqn:Heq.
  - done.
  - destruct (startswith (strip line) "!").
    + intros [= <-] ->. done.
    + intros [= <-] ->. done.
Qed.

(** X3. A keep rule or an include rule whose pattern [re.compile]
    refuses makes the load raise its error at that line, when the lines
    before it load; and [compile_dex], which builds a filter for every
    dex file, raises it as soon as the package has one. With no dex file
    the rule file is not read at all and the result is empty. *)
Theorem bad_pattern_aborts_compile_dex (opts : Options)
    (pre : list string) (bad : string) (post : list string)
    (rs : Rules) (p : string) (text : string) :
  load_filter_lines no_rules pre = Val rs ->
  rule_pattern bad = Some p -> re_compile p = None ->
  readlines text = pre ++ bad :: post ->
  _load_filter_configure (Some text) = Raise (ReError p) /\
  (forall d tmp, compile_dex opts (d :: tmp) (Some text) = Raise (ReError p)) /\
  compile_dex opts [] (Some text) = Val (∅, []).
Proof.
  intros Hpre Hp Hre Htext.
  assert (_load_filter_configure (Some text) = Raise (ReError p)) as Hload.
  { unfold _load_filter_configure. rewrite Htext, load_filter_lines_app, Hpre.
    cbn. by rewrite (load_filter_line_bad _ _ _ Hp Hre). }
  split_and!; [done| |done].
  intros d tmp. unfold compile_dex. cbn [compile_dexes].
  unfold compile_one_dex, new_MethodFilter. by rewrite Hload.
Qed.

(** *** The conflict set, by positions *)

Lemma lookup_snoc_inv {A : Type} (l : list A) (a x : A) (i : nat) :
  (l ++ [a]) !! i = Some x ->
  (i < length l /\ l !! i = Some x)%nat \/ (i = length l /\ x = a).
Proof.
  intros Hi. destruct (decide (i < length l)%nat) as [Hlt|Hge].
  - left. split; [done|]. by rewrite lookup_app_l in Hi.
  - right. rewrite lookup_app_r in Hi by lia.
    apply list_lookup_singleton_Some in Hi as [Hi ->]. split; [lia|done].
Qed.

Lemma conflict_pos_step (seen : list Method) st (m : Method) :
  conflict_pos_inv seen st -> conflict_pos_inv (seen ++ [m]) (conflict_step st m).
Proof.
  destruct st as [all conf]. intros (Hall & Hseen & Hconf). cbn [fst snd] in *.
  unfold conflict_step.
  destruct (all !! get_method_triple m false) as [y|] eqn:Hy;
    unfold conflict_pos_inv; cbn [fst snd].
  - destruct (Hall _ _ Hy) as [Hyin Hyk].
    apply list_elem_of_lookup in Hyin as [i0 Hi0].
    pose proof (lookup_lt_Some _ _ _ Hi0) as Hi0lt.
    split_and!.
    + intros k z Hz. destruct (Hall _ _ Hz) as [? ?].
      split; [apply elem_of_app; by left|done].
    + intros x Hx. apply elem_of_app in Hx as [Hx|Hx].
      * destruct (Hseen _ Hx) as (z & Hz & Hor). exists z. split; [done|].
        destruct Hor as [?|?]; [by left|right; set_solver].
      * apply list_elem_of_singleton in Hx as ->. exists y. split; [done|].
        right. set_solver.
    + intros x. split.
      * intros Hx. apply elem_of_union in Hx as [Hx|Hx].
        { apply elem_of_singleton in Hx as ->.
          exists i0, (length seen), m. split_and!; [lia| | |done].
          - by rewrite lookup_app_l.
          - rewrite lookup_app_r by lia. by rewrite Nat.sub_diag. }
        apply elem_of_union in Hx as [Hx|Hx].
        { apply elem_of_singleton in Hx as ->.
          exists (length seen), i0, y. split_and!; [lia| | |done].
          - rewrite lookup_app_r by lia. by rewrite Nat.sub_diag.
          - by rewrite lookup_app_l. }
        apply Hconf in Hx as (i & j & x' & Hij & Hi & Hj & Heq).
        exists i, j, x'. split_and!; [done| | |done].
        -- rewrite lookup_app_l; [done|by eapply lookup_lt_Some].
        -- rewrite lookup_app_l; [done|by eapply lookup_lt_Some].
      * intros (i & j & x' & Hij & Hi & Hj & Heq).
        apply lookup_snoc_inv in Hi as [[Hilt Hi]|[-> ->]];
          [|set_solver].
        apply lookup_snoc_inv in Hj as [[Hjlt Hj]|[-> ->]].
        -- assert (x ∈ conf); [|set_solver].
           apply Hconf. by exists i, j, x'.
        -- assert (x ∈ seen) as Hxin by (by eapply list_elem_of_lookup_2).
           destruct (Hseen _ Hxin) as (z & Hz & Hor).
           rewrite Heq, Hy in Hz. injection Hz as <-.
           destruct Hor as [->|?]; set_solver.
  - split_and!.
    + intros k z Hz. destruct (decide (k = get_method_triple m false)) as [->|Hne].
      * rewrite lookup_insert_eq in Hz. injection Hz as <-.
        split; [apply elem_of_app; right; apply list_elem_of_singleton; done|done].
      * rewrite lookup_insert_ne in Hz by done. destruct (Hall _ _ Hz).
        split; [apply elem_of_app; by left|done].
    + intros x Hx. apply elem_of_app in Hx as [Hx|Hx].
      * destruct (Hseen _ Hx) as (z & Hz & Hor). exists z. split; [|done].
        rewrite lookup_insert_ne; [done|]. intros Heq. by rewrite Heq, Hz in Hy.
      * apply list_elem_of_singleton in Hx as ->. exists m.
        split; [by rewrite lookup_insert_eq|by left].
    + assert (forall x, x ∈ seen ->
                get_method_triple x false <> get_method_triple m false) as Hfresh.
      { intros x Hx Heq. destruct (Hseen _ Hx) as (z & Hz & _).
        by rewrite Heq, Hy in Hz. }
      intros x. rewrite Hconf. split.
      * intros (i & j & x' & Hij & Hi & Hj & Heq).
        exists i, j, x'. split_and!; [done| | |done].
        -- rewrite lookup_app_l; [done|by eapply lookup_lt_Some].
        -- rewrite lookup_app_l; [done|by eapply lookup_lt_Some].
      * intros (i & j & x' & Hij & Hi & Hj & Heq).
        apply lookup_snoc_inv in Hi as [[Hilt Hi]|[-> ->]];
          apply lookup_snoc_inv in Hj as [[Hjlt Hj]|[-> ->]].
        -- by exists i, j, x'.
        -- exfalso. eapply Hfresh; [by eapply list_elem_of_lookup_2|done].
        -- exfalso. eapply Hfresh; [by eapply list_elem_of_lookup_2|done].
        -- done.
Qed.

Lemma conflict_pos_fold (l : list Method) : forall seen st,
  conflict_pos_inv seen st ->
  conflict_pos_inv (seen ++ l) (fold_left conflict_step l st).
Proof.
  induction l as [|m l IH]; intros seen st Hinv; cbn.
  - by rewrite app_nil_r.
  - replace (seen ++ m :: l) with ((seen ++ [m]) ++ l) by by rewrite <- app_assoc.
    apply IH. by apply conflict_pos_step.
Qed.

(** X4. The conflict set is exact: a method is in it when, and only
    when, the dex file lists at another position a method of the same
    class, name and parameters, whatever the two return types are. *)
Theorem conflict_methods_exact (vm : DalvikVM) (x : Method) :
  x ∈ _init_conflict_methods vm <->
  exists i j x', i <> j /\
    vm_methods vm !! i = Some x /\ vm_methods vm !! j = Some x' /\
    get_method_triple x false = get_method_triple x' false.
Proof.
  unfold _init_conflict_methods.
  assert (conflict_pos_inv [] (∅, ∅)) as Hinit.
  { split_and!; cbn.
    - intros k y Hk. by rewrite lookup_empty in Hk.
    - intros z Hz. by apply elem_of_nil in Hz.
    - intros z. split; [set_solver|]. intros (i & j & x' & _ & Hi & _). done. }
  apply (conflict_pos_fold (vm_methods vm)) in Hinit as (_ & _ & Hconf).
  apply Hconf.
Qed.

(** *** The set of the native names *)

Lemma native_fold_spec (l : list Method) : forall (acc : gset (string * string)) c n,
  (c, n) ∈ fold_left native_step l acc <->
  (c, n) ∈ acc \/
  exists m, m ∈ l /\ m_class_name m = c /\ m_name m = n /\
    "native" ∈ get_access_method (m_access_flags m).
Proof.
  induction l as [|m l IH]; intros acc c n; cbn [fold_left].
  - split; [by left|]. intros [?|(m & Hm & _)]; [done|]. by apply elem_of_nil in Hm.
  - rewrite IH. unfold native_step, get_method_triple.
    case_bool_decide as Hnat.
    + split.
      * intros [Hin|(m' & Hm' & ?)].
        -- apply elem_of_union in Hin as [Hin|Hin]; [|by left].
           apply elem_of_singleton in Hin. injection Hin as -> ->.
           right. exists m. split; [apply list_elem_of_here|done].
        -- right. exists m'. split; [by apply list_elem_of_further|done].
      * intros [Hin|(m' & Hm' & Hc & Hn & Hacc)]; [left; set_solver|].
        apply elem_of_cons in Hm' as [->|Hm'].
        -- left. subst. set_solver.
        -- right. by exists m'.
    + split.
      * intros [Hin|(m' & Hm' & ?)]; [by left|].
        right. exists m'. split; [by apply list_elem_of_further|done].
      * intros [Hin|(m' & Hm' & Hc & Hn & Hacc)]; [by left|].
        apply elem_of_cons in Hm' as [->|Hm']; [done|].
        right. by exists m'.
Qed.

(** X5. The set of native names holds the class and name of every
    method of the dex file whose access flags read native, and nothing
    else; and no method that shares class and name with one of them, an
    overload with other parameters included, is ever selected, whatever
    the rules and the annotations say. *)
Theorem native_overloads_never_compiled (vm : DalvikVM) :
  (forall c n, (c, n) ∈ _init_native_methods vm <->
     exists m, m ∈ vm_methods vm /\ m_class_name m = c /\ m_name m = n /\
       "native" ∈ get_access_method (m_access_flags m)) /\
  (forall opts filtercfg mf m m',
     new_MethodFilter filtercfg vm = Val mf ->
     m ∈ vm_methods vm ->
     "native" ∈ get_access_method (m_access_flags m) ->
     m_class_name m' = m_class_name m -> m_name m' = m_name m ->
     should_compile opts mf m' = false).
Proof.
  assert (forall c n, (c, n) ∈ _init_native_methods vm <->
     exists m, m ∈ vm_methods vm /\ m_class_name m = c /\ m_name m = n /\
       "native" ∈ get_access_method (m_access_flags m)) as Hspec.
  { intros c n. unfold _init_native_methods. rewrite native_fold_spec. set_solver. }
  split; [done|].
  intros opts filtercfg mf m m' Hmf Hm Hnat Hc Hn.
  destruct (should_compile opts mf m') eqn:Hsc; [|done].
  apply should_compile_true_inv in Hsc as (_ & _ & _ & _ & Hnot & _).
  destruct (new_MethodFilter_fields _ _ _ Hmf) as (_ & Hnm & _).
  exfalso. apply Hnot. rewrite Hnm, Hspec. exists m. by split_and!.
Qed.

(** *** What the result of compile_dex never holds *)

(** X6. Without a rule file the filter has no rule, and the only way
    into the result is the marker annotation: every key of the dict
    [compile_dex] returns is then the identity of a method of the
    annotated set of its dex file; and [compile_dex] does return. *)
Theorem no_rule_file_only_annotated (opts : Options) (tmp : list DalvikVM) :
  (exists X errs, compile_dex opts tmp None = Val (X, errs)) /\
  (forall X errs T, compile_dex opts tmp None = Val (X, errs) -> T ∈ dom X ->
     exists d m, d ∈ tmp /\ m ∈ vm_methods d /\
       get_method_triple m true = T /\ m ∈ _init_annotation_methods d).
Proof.
  split.
  - by apply (compile_dex_total opts None no_rules).
  - intros X errs T Hrun HT.
    apply (compile_dex_keys _ _ _ _ _ _ Hrun) in HT
      as (d & mf & m & code & Hd & Hmf & Hm & -> & Hc).
    exists d, m. split_and!; [done..|].
    destruct Hc as (_ & Hsc & _).
    apply should_compile_true_inv in Hsc as (_ & _ & _ & _ & _ & _ & Hwhy).
    unfold new_MethodFilter in Hmf. cbn in Hmf. injection Hmf as <-.
    cbn in Hwhy. destruct Hwhy as [Hin|[Hin|Hin]]; [set_solver|done|done].
Qed.

(** X7. A static initializer is never translated: no key of the dict
    [compile_dex] returns has the name of the static initializer,
    whatever the rules, the annotations and the dex files are. *)
Theorem static_initializer_never_compiled (opts : Options) (tmp : list DalvikVM)
    (filtercfg : option string) X errs (c p : string) :
  compile_dex opts tmp filtercfg = Val (X, errs) ->
  (c, "<clinit>", p) ∉ dom X.
Proof.
  intros Hrun HT.
  apply (compile_dex_keys _ _ _ _ _ _ Hrun) in HT
    as (d & mf & m & code & Hd & Hmf & Hm & HT & Hc).
  destruct Hc as (_ & Hsc & _).
  apply should_compile_true_inv in Hsc as (_ & _ & _ & Hname & _).
  unfold get_method_triple in HT. injection HT as _ Hn _. by rewrite <- Hn in Hname.
Qed.

End FurtherSelection.

(* ===================================================================== *)
(** ** Further proofs: the dict and the error list of compile_dex *)
(* ===================================================================== *)

Lemma accumulated_spec {A : Type} (F : list A) : forall E,
  accumulated E F = concat (map (fun k => E ++ take k F) (seq 1 (length F))).
Proof.
  induction F as [|r F IH]; intros E; [done|].
  cbn [accumulated length]. rewrite IH.
  change (seq 1 (S (length F))) with (1%nat :: seq 2 (length F)).
  rewrite <- (fmap_S_seq 1). cbn [map concat take]. f_equal.
  change (fmap S (seq 1 (length F))) with (map S (seq 1 (length F))).
  rewrite map_map. f_equal. apply map_ext. intros k.
  cbn [take]. by rewrite <- app_assoc.
Qed.

Lemma accumulated_nil {A : Type} (F : list A) :
  accumulated [] F = repeated_prefixes F.
Proof. by rewrite accumulated_spec. Qed.

Lemma accumulated_length {A : Type} (F : list A) : forall E,
  (2 * length (accumulated E F) =
   2 * length E * length F + length F * (length F + 1))%nat.
Proof.
  induction F as [|r F IH]; intros E; cbn [accumulated length]; [lia|].
  pose proof (IH (E ++ [r])) as IH'. rewrite length_app in IH'.
  rewrite !length_app. cbn [length] in *. nia.
Qed.

Lemma omap_cons_match {A B : Type} (f : A -> option B) (a : A) (l : list A) :
  omap f (a :: l) =
  match f a with Some b => b :: omap f l | None => omap f l end.
Proof. done. Qed.

Section FurtherCompileDex.
Context `{Collaborators}.

Lemma compile_method_translated opts mf d st m :
  let st' := compile_method opts mf d st m in
  compiled_method_code st' =
    match translated opts mf d m with
    | Some (T, code) => <[T := code]> (compiled_method_code st)
    | None => compiled_method_code st
    end /\
  X_compiled_method_code st' =
    match translated opts mf d m with
    | Some (T, code) =>
        <[T := code]> (compiled_method_code st) ∪ X_compiled_method_code st
    | None => X_compiled_method_code st
    end /\
  errors st' = errors st ++ option_list (failure opts mf d m) /\
  X_errors st' =
    match failure opts mf d m with
    | Some r => X_errors st ++ (errors st ++ [r])
    | None => X_errors st
    end.
Proof.
  unfold compile_method, translated, failure.
  rewrite (Z.leb_antisym 220).
  destruct (220 <? len _); cbn [negb andb option_list].
  { by rewrite app_nil_r. }
  destruct (should_compile opts mf m); cbn [option_list].
  - destruct (get_source_method d m) as [e|code]; cbn [option_list].
    + done.
    + destruct (truthy code); cbn; by rewrite app_nil_r.
  - by rewrite app_nil_r.
Qed.

Lemma compile_fold_translated opts mf d (l : list Method) : forall st,
  let st' := fold_left (compile_method opts mf d) l st in
  compiled_method_code st ⊆ X_compiled_method_code st ->
  compiled_method_code st' ⊆ X_compiled_method_code st' /\
  X_compiled_method_code st' =
    list_to_map (rev (omap (translated opts mf d) l)) ∪ X_compiled_method_code st.
Proof.
  induction l as [|m l IH]; intros st; cbn [fold_left].
  - intros Hsub. split; [done|]. cbn. by rewrite (left_id_L ∅ (∪)).
  - intros Hsub. rewrite omap_cons_match.
    destruct (compile_method_translated opts mf d st m) as (Hc & HX & _).
    cbn zeta in Hc, HX.
    destruct (translated opts mf d m) as [[T code]|] eqn:Htr.
    + assert (X_compiled_method_code (compile_method opts mf d st m)
              = <[T := code]> (X_compiled_method_code st)) as HX'.
      { rewrite HX, <- insert_union_l. by rewrite map_subseteq_union. }
      destruct (IH (compile_method opts mf d st m)) as [Hsub' Hfold].
      { rewrite Hc, HX'. by apply insert_mono. }
      split; [done|]. cbn zeta in Hfold. rewrite Hfold, HX'.
      cbn [rev]. rewrite list_to_map_app, list_to_map_cons, list_to_map_nil.
      by rewrite insert_empty, <- (assoc_L (∪)), <- insert_union_singleton_l.
    + destruct (IH (compile_method opts mf d st m)) as [Hsub' Hfold].
      { by rewrite Hc, HX. }
      split; [done|]. cbn zeta in Hfold. by rewrite Hfold, HX.
Qed.

Lemma compile_fold_failures opts mf d (l : list Method) : forall st,
  let st' := fold_left (compile_method opts mf d) l st in
  errors st' = errors st ++ omap (failure opts mf d) l /\
  X_errors st' = X_errors st ++ accumulated (errors st) (omap (failure opts mf d) l).
Proof.
  induction l as [|m l IH]; intros st; cbn [fold_left].
  - cbn. by rewrite !app_nil_r.
  - rewrite omap_cons_match. destruct (compile_method_translated opts mf d st m) as (_ & _ & He & HXe).
    cbn zeta in He, HXe.
    destruct (IH (compile_method opts mf d st m)) as [IHe IHX].
    cbn zeta in IHe, IHX. rewrite IHe, IHX, He, HXe.
    destruct (failure opts mf d m) as [r|]; cbn [option_list accumulated].
    + by rewrite <- !app_assoc.
    + by rewrite !app_nil_r.
Qed.

Lemma compile_dexes_exact opts filtercfg (tmp : list DalvikVM) : forall st st',
  compile_dexes opts filtercfg st tmp = Val st' ->
  X_compiled_method_code st' =
    list_to_map (rev (tmp ≫= translations opts filtercfg))
    ∪ X_compiled_method_code st /\
  X_errors st' =
    X_errors st ++ (tmp ≫= fun d => repeated_prefixes (failures opts filtercfg d)).
Proof.
  induction tmp as [|d tmp IH]; intros st st'; cbn [compile_dexes].
  - intros [= <-]. cbn. by rewrite (left_id_L ∅ (∪)), app_nil_r.
  - unfold compile_one_dex.
    destruct (new_MethodFilter filtercfg d) as [mf|e] eqn:Hmf; [|done].
    intros Hrest. apply IH in Hrest as [HX HE].
    rewrite HX, HE. clear HX HE.
    match goal with
    | |- context [fold_left _ _ ?s] =>
        destruct (compile_fold_translated opts mf d (vm_methods d) s) as [_ HX];
          [cbn; apply map_empty_subseteq|];
        destruct (compile_fold_failures opts mf d (vm_methods d) s) as [_ HE]
    end.
    cbn zeta in HX, HE. rewrite HX, HE. cbn [X_compiled_method_code X_errors errors].
    change ((d :: tmp) ≫= translations opts filtercfg)
      with (translations opts filtercfg d ++ (tmp ≫= translations opts filtercfg)).
    change ((d :: tmp) ≫= fun d => repeated_prefixes (failures opts filtercfg d))
      with (repeated_prefixes (failures opts filtercfg d) ++
            (tmp ≫= fun d => repeated_prefixes (failures opts filtercfg d))).
    unfold translations, failures. rewrite Hmf.
    rewrite rev_app_distr, list_to_map_app, accumulated_nil.
    by rewrite (assoc_L (∪)), <- app_assoc.
Qed.

(** X8. The dict [compile_dex] returns is built by updates: it holds
    the translations of all dex files, read in order, and where two of
    them have the same identity the later one stands. So the source
    under an identity is the one of the last method translated under
    it. *)
Theorem compile_dex_last_translation_stands
    (opts : Options) (tmp : list DalvikVM) (filtercfg : option string) X errs :
  compile_dex opts tmp filtercfg = Val (X, errs) ->
  X = list_to_map (rev (tmp ≫= translations opts filtercfg)) /\
  (forall l1 T code l2,
     tmp ≫= translations opts filtercfg = l1 ++ (T, code) :: l2 ->
     T ∉ l2.*1 -> X !! T = Some code).
Proof.
  unfold compile_dex.
  destruct (compile_dexes opts filtercfg compile_start tmp) as [st'|e] eqn:Hrun;
    [|done].
  intros [= <- <-]. apply compile_dexes_exact in Hrun as [HX _].
  cbn in HX. rewrite (right_id_L ∅ (∪)) in HX.
  split; [done|].
  intros l1 T code l2 Hl Hnot. rewrite HX, Hl.
  rewrite rev_app_distr. cbn [rev]. rewrite <- app_assoc. cbn [app].
  rewrite list_to_map_app, lookup_union_r.
  - by rewrite list_to_map_cons, lookup_insert_eq.
  - apply not_elem_of_list_to_map_1. intros Hin. apply Hnot.
    apply list_elem_of_fmap in Hin as (x & -> & Hx). apply list_elem_of_fmap.
    exists x. split; [done|].
    apply list_elem_of_In, in_rev. by apply list_elem_of_In.
Qed.

(** X9. The error list [compile_dex] returns repeats records: at every
    failure the failure records of the dex file so far are added again,
    so a dex file with the failures f1, f2, ..., fn contributes f1, then
    f1 f2, and so on up to f1 ... fn, which are n(n+1)/2 records. *)
Theorem compile_dex_errors_repeat
    (opts : Options) (tmp : list DalvikVM) (filtercfg : option string) X errs :
  compile_dex opts tmp filtercfg = Val (X, errs) ->
  errs = (tmp ≫= fun d => repeated_prefixes (failures opts filtercfg d)) /\
  (forall d, tmp = [d] ->
     (2 * length errs =
      length (failures opts filtercfg d) * (length (failures opts filtercfg d) + 1))%nat).
Proof.
  unfold compile_dex.
  destruct (compile_dexes opts filtercfg compile_start tmp) as [st'|e] eqn:Hrun;
    [|done].
  intros [= <- <-]. apply compile_dexes_exact in Hrun as [_ HE].
  cbn [compile_start X_errors app] in HE.
  split; [done|].
  intros d ->. rewrite HE. cbn. rewrite app_nil_r, <- accumulated_nil.
  pose proof (accumulated_length (failures opts filtercfg d) []) as Hlen.
  cbn [length] in Hlen. lia.
Qed.

End FurtherCompileDex.

(* ===================================================================== *)
(** ** Further proofs: the listing patcher on a whole listing *)
(* ===================================================================== *)

Lemma bind_cons_list {A B : Type} (f : A -> list B) (a : A) (l : list A) :
  (a :: l) ≫= f = f a ++ (l ≫= f).
Proof. done. Qed.

Lemma scan_listing_segments cm (segs : list Segment) : forall class_name,
  segments_ok cm class_name segs ->
  scan_listing cm class_name (segs ≫= segment_lines) = segs ≫= segment_patched.
Proof.
  induction segs as [|[lines|raw items stop] segs IH]; intros class_name Hok.
  - apply scan_listing_nil.
  - destruct Hok as [Hun Hok]. rewrite !bind_cons_list. cbn [segment_lines segment_patched].
    rewrite scan_listing_unselected by done. by rewrite IH.
  - destruct Hok as (Hsel & Hitems & Hstop & Hok). rewrite !bind_cons_list.
    cbn [segment_lines segment_patched].
    rewrite <- !app_comm_cons, <- !app_assoc. cbn [app].
    rewrite scan_listing_selected by done. by rewrite IH.
Qed.

Lemma native_class_methods_segments (cm : gmap Triple string)
    (text : string) (segs : list Segment) :
  readlines text = segs ≫= segment_lines ->
  segments_ok cm "" segs ->
  native_class_methods text cm = writelines (segs ≫= segment_patched).
Proof.
  intros Hlines Hok. unfold native_class_methods.
  by rewrite Hlines, scan_listing_segments.
Qed.

(** X10. The patcher on a whole listing. When the lines of the file
    read as stretches that hold no header of a compiled method and as
    compiled methods with a faithful body and an end line, the file that
    is written back is the same sequence with every stretch as it was
    and every compiled method reduced to its header with the modifier,
    the annotation blocks it keeps, and one end line. *)
Theorem native_class_methods_by_segments (cm : gmap Triple string)
    (text : string) (segs : list Segment) :
  readlines text = segs ≫= segment_lines ->
  segments_ok cm "" segs ->
  native_class_methods text cm = writelines (segs ≫= segment_patched).
Proof. apply native_class_methods_segments. Qed.

(** *** Strings: white space, the last word, the parts of a header *)

Lemma all_chars_app (P : ascii -> bool) (a b : string) :
  all_chars P (a +:+ b) = all_chars P a && all_chars P b.
Proof.
  induction a as [|c a IH]; [done|].
  rewrite append_cons. cbn [all_chars]. by rewrite IH, andb_assoc.
Qed.

Lemma all_chars_impl (P Q : ascii -> bool) (s : string) :
  (forall c, P c = true -> Q c = true) ->
  all_chars P s = true -> all_chars Q s = true.
Proof.
  intros HPQ. induction s as [|c s IH]; [done|]. cbn [all_chars].
  intros [Hc Hs]%andb_true_iff. by rewrite (HPQ _ Hc), IH.
Qed.

Lemma lstrip_blank_app (lead : string) (c : ascii) (x : string) :
  blank lead = true -> isspace c = false ->
  lstrip (lead +:+ String c x) = String c x.
Proof.
  intros Hlead Hc. induction lead as [|a lead IH].
  - rewrite append_nil_l. cbn [lstrip]. by rewrite Hc.
  - unfold blank in Hlead. cbn [all_chars] in Hlead.
    apply andb_true_iff in Hlead as [Ha Hlead].
    rewrite append_cons. cbn [lstrip]. rewrite Ha. by apply IH.
Qed.

Lemma rstrip_blank (t : string) : blank t = true -> rstrip t = "".
Proof.
  induction t as [|a t IH]; [done|]. unfold blank. cbn [all_chars].
  intros [Ha Ht]%andb_true_iff. cbn [rstrip]. by rewrite (IH Ht), Ha.
Qed.

Lemma rstrip_visible_end (y : string) (c : ascii) (trail : string) :
  isspace c = false -> blank trail = true ->
  rstrip (y +:+ String c trail) = y +:+ String c "".
Proof.
  intros Hc Htrail. induction y as [|a y IH].
  - rewrite !append_nil_l. cbn [rstrip]. by rewrite (rstrip_blank _ Htrail), Hc.
  - rewrite !append_cons. cbn [rstrip]. rewrite IH.
    destruct y; by rewrite ?append_cons, ?append_nil_l.
Qed.

Lemma visible_snoc (tok : string) :
  visible tok = true ->
  exists y c, tok = y +:+ String c "" /\ isspace c = false.
Proof.
  unfold visible. induction tok as [|a tok IH]; [done|].
  cbn [truthy all_chars andb]. intros [Ha Htok]%andb_true_iff.
  destruct tok as [|b tok'].
  - exists "", a. split; [done|]. by destruct (isspace a).
  - destruct IH as (y & c & Hy & Hc); [done|].
    exists (String a y), c. by rewrite append_cons, <- Hy.
Qed.

Ltac norm_app :=
  repeat (rewrite append_assoc || rewrite append_cons || rewrite append_nil_l).

Lemma strip_plain (lead x tok trail : string) (h : ascii) :
  blank lead = true -> blank trail = true -> isspace h = false ->
  visible tok = true ->
  strip (lead +:+ String h x +:+ tok +:+ trail) = String h x +:+ tok.
Proof.
  intros Hlead Htrail Hh Htok. unfold strip.
  rewrite append_cons, lstrip_blank_app by done.
  destruct (visible_snoc _ Htok) as (y & c & -> & Hc).
  replace (String h (x +:+ (y +:+ String c "") +:+ trail))
    with ((String h x +:+ y) +:+ String c trail) by by norm_app.
  rewrite rstrip_visible_end by done. by norm_app.
Qed.

Lemma split_nonempty (c : ascii) (s : string) : split c s <> [].
Proof.
  induction s as [|a s IH]; [done|]. cbn [split].
  destruct (Ascii.eqb a c); [done|]. by destruct (split c s).
Qed.

Lemma split_app_sep (c : ascii) (a b : string) :
  split c (a +:+ String c b) = split c a ++ split c b.
Proof.
  induction a as [|x a IH].
  - rewrite append_nil_l. cbn [split]. by rewrite Ascii.eqb_refl.
  - rewrite append_cons. cbn [split]. rewrite IH.
    destruct (Ascii.eqb x c); [done|].
    pose proof (split_nonempty c a). by destruct (split c a).
Qed.

Lemma split_no_sep (c : ascii) (s : string) :
  all_chars (fun x => negb (Ascii.eqb x c)) s = true -> split c s = [s].
Proof.
  induction s as [|a s IH]; [done|]. cbn [all_chars split].
  intros [Ha Hs]%andb_true_iff. apply negb_true_iff in Ha. by rewrite Ha, IH.
Qed.

Lemma visible_no_space (tok : string) :
  visible tok = true ->
  all_chars (fun x => negb (Ascii.eqb x " ")) tok = true.
Proof.
  unfold visible. intros [_ Hv]%andb_true_iff. revert Hv.
  apply all_chars_impl. intros c Hc.
  destruct (Ascii.eqb_spec c " ") as [->|_]; [by vm_compute in Hc|done].
Qed.

Lemma last_word_app (a tok : string) :
  visible tok = true -> last_word (a +:+ " " +:+ tok) = tok.
Proof.
  intros Hv. unfold last_word, last_item.
  change (" " +:+ tok) with (String " " tok).
  rewrite split_app_sep, (split_no_sep _ _ (visible_no_space _ Hv)).
  apply last_last.
Qed.

Lemma prefix_inv (p s : string) :
  String.prefix p s = true -> exists r, s = p +:+ r.
Proof.
  revert s. induction p as [|c p IH]; intros s; [by exists s|].
  destruct s as [|a s]; [done|]. cbn [String.prefix].
  destruct (ascii_dec c a) as [->|_]; [|done].
  intros (r & ->)%IH. by exists r.
Qed.

Lemma prefix_app (p a b : string) :
  String.prefix p a = true -> String.prefix p (a +:+ b) = true.
Proof.
  intros (r & ->)%prefix_inv. rewrite append_assoc. apply prefix_refl_app.
Qed.

Lemma find_from_app_some (sub b : string) : forall (a : string) (i : nat),
  exists j, find_from i (a +:+ sub +:+ b) sub = Some j.
Proof.
  induction a as [|c a IH]; intros i.
  - rewrite append_nil_l. exists i.
    destruct (sub +:+ b) eqn:Hs; cbn [find_from]; rewrite <- ?Hs;
      by rewrite prefix_refl_app.
  - rewrite append_cons. cbn [find_from].
    destruct (String.prefix sub _); [by exists i|]. apply IH.
Qed.

Lemma find_app_some (a sub b : string) : 0 <= find (a +:+ sub +:+ b) sub.
Proof.
  unfold find. destruct (find_from_app_some sub b a 0) as [j ->]. lia.
Qed.

Lemma snoc_inj (a b : string) (c d : ascii) :
  a +:+ String c "" = b +:+ String d "" -> a = b /\ c = d.
Proof.
  revert b. induction a as [|x a IH]; intros [|y b]; norm_app.
  - by intros [= ->].
  - intros [= -> Hb]. by destruct b.
  - intros [= -> Ha]. by destruct a.
  - intros [= -> Hab]. apply IH in Hab as [-> ->]. done.
Qed.

Lemma app_eq_snoc (a b body : string) (c : ascii) :
  a +:+ b = body +:+ String c "" ->
  (b = "" /\ a = body +:+ String c "") \/
  (exists b', b = b' +:+ String c "" /\ a +:+ b' = body).
Proof.
  revert body. induction a as [|x a IH]; intros body; norm_app.
  - intros ->. right. by exists body.
  - destruct body as [|y body]; norm_app.
    + intros [= -> Hab]. left. destruct a; [|done]. destruct b; [|done]. done.
    + intros [= -> Hab]. apply IH in Hab as [[-> ->]|(b' & -> & <-)].
      * by left.
      * right. by exists b'.
Qed.

(** *** A plain header, before and after the rewrite *)

Lemma plain_header_strip (lead head mid tok trail : string) :
  blank lead = true -> blank trail = true ->
  startswith head ".method" = true -> visible tok = true ->
  strip (lead +:+ head +:+ mid +:+ tok +:+ trail) = head +:+ mid +:+ tok.
Proof.
  intros Hlead Htrail Hhead Htok.
  destruct (prefix_inv _ _ Hhead) as (r & ->).
  replace (lead +:+ (".method" +:+ r) +:+ mid +:+ tok +:+ trail)
    with (lead +:+ String "." ("method" +:+ r +:+ mid) +:+ tok +:+ trail)
    by by norm_app.
  rewrite strip_plain by done. by norm_app.
Qed.

Lemma plain_header_facts cm class_name (raw : string) :
  plain_header raw -> find (strip raw) " native " < 0 ->
  let raw' := native_header raw (strip raw) in
  is_selected cm class_name raw' = is_selected cm class_name raw /\
  0 <= find (strip raw') " native " /\
  (terminated raw -> terminated raw').
Proof.
  intros (lead & head & tok & trail & -> & Hlead & Htrail & Hhead & Htok & Honce) Hnat.
  cbn zeta.
  assert (strip (lead +:+ head +:+ " " +:+ tok +:+ trail) = head +:+ " " +:+ tok)
    as Hstrip by by apply plain_header_strip.
  assert (last_word (head +:+ " " +:+ tok) = tok) as Hlast by by apply last_word_app.
  assert (native_header (lead +:+ head +:+ " " +:+ tok +:+ trail)
            (strip (lead +:+ head +:+ " " +:+ tok +:+ trail))
          = lead +:+ head +:+ " native " +:+ tok +:+ trail) as Hnew.
  { rewrite (native_header_absent _ (lead +:+ head +:+ " ") trail).
    - rewrite Hstrip, Hlast. by rewrite !append_assoc.
    - done.
    - rewrite Hstrip, Hlast. by rewrite !append_assoc.
    - by rewrite Hstrip, Hlast. }
  rewrite Hnew.
  assert (strip (lead +:+ head +:+ " native " +:+ tok +:+ trail)
          = head +:+ " native " +:+ tok) as Hstrip'
    by (apply plain_header_strip; by try right).
  assert (last_word (head +:+ " native " +:+ tok) = tok) as Hlast'.
  { change (" native " +:+ tok) with (" native" +:+ " " +:+ tok).
    rewrite <- append_assoc. by apply last_word_app. }
  split_and!.
  - unfold is_selected, header_key. rewrite Hstrip, Hstrip', Hlast, Hlast'.
    destruct (prefix_inv _ _ Hhead) as (r & ->).
    unfold startswith. rewrite !append_assoc, !prefix_refl_app. done.
  - rewrite Hstrip'. apply find_app_some.
  - intros (body & Hraw & Hbody).
    destruct (visible_snoc _ Htok) as (y & c & -> & Hc).
    assert (lead +:+ head +:+ " " +:+ (y +:+ String c "") +:+ trail
            = (lead +:+ head +:+ " " +:+ y +:+ String c "") +:+ trail) as Hsplit
      by by norm_app.
    rewrite Hsplit in Hraw. unfold LF in Hraw.
    apply app_eq_snoc in Hraw as [[-> Hx]|(t' & -> & Hx)].
    + replace (lead +:+ head +:+ " " +:+ y +:+ String c "")
        with ((lead +:+ head +:+ " " +:+ y) +:+ String c "") in Hx by by norm_app.
      apply snoc_inj in Hx as [_ ->]. by vm_compute in Hc.
    + exists (lead +:+ head +:+ " native " +:+ (y +:+ String c "") +:+ t').
      split; [unfold LF; by norm_app|].
      subst body. unfold lf_free in *.
      rewrite !all_chars_app in Hbody. rewrite !all_chars_app.
      repeat match goal with
             | Hand : _ && _ = true |- _ => apply andb_true_iff in Hand as [? ?]
             end.
      repeat match goal with
             | Hf : all_chars _ _ = true |- _ => rewrite Hf; clear Hf
             end.
      reflexivity.
Qed.

Lemma body_lines_blocks (items : list BodyItem) :
  body_lines (List.filter is_block items) = body_blocks items.
Proof.
  unfold body_lines, body_blocks.
  induction items as [|[line|start content stop] items IH]; cbn; [done..|].
  by rewrite IH.
Qed.

Lemma body_blocks_blocks (items : list BodyItem) :
  body_blocks (List.filter is_block items) = body_blocks items.
Proof.
  unfold body_blocks.
  induction items as [|[line|start content stop] items IH]; cbn; [done..|].
  by rewrite IH.
Qed.

Lemma item_ok_blocks (items : list BodyItem) :
  Forall item_ok items -> Forall item_ok (List.filter is_block items).
Proof.
  induction 1 as [|[line|start content stop] items Hit _ IH]; cbn; [done..|].
  by constructor.
Qed.

Lemma patched_segment_lines (seg : Segment) :
  segment_lines (patched_segment seg) = segment_patched seg.
Proof. destruct seg; cbn; [done|]. by rewrite body_lines_blocks. Qed.

Lemma header_ok_native cm class_name raw :
  0 <= find (strip raw) " native " \/ plain_header raw ->
  let raw' := native_header raw (strip raw) in
  is_selected cm class_name raw' = is_selected cm class_name raw /\
  0 <= find (strip raw') " native " /\
  (terminated raw -> terminated raw').
Proof.
  intros Hok. cbn zeta.
  destruct (Z_lt_le_dec (find (strip raw) " native ") 0) as [Hlt|Hge].
  - destruct Hok as [?|Hplain]; [lia|]. by apply plain_header_facts.
  - by rewrite native_header_present.
Qed.

Lemma patched_segment_patched (seg : Segment) :
  header_ok seg -> segment_patched (patched_segment seg) = segment_patched seg.
Proof.
  destruct seg as [lines|raw items stop]; cbn; [done|]. intros Hok.
  destruct (header_ok_native ∅ "" raw Hok) as (_ & Hnat & _). cbn zeta in Hnat.
  by rewrite native_header_present, body_blocks_blocks.
Qed.

Lemma patched_segments_ok cm (segs : list Segment) : forall class_name,
  segments_ok cm class_name segs -> Forall header_ok segs ->
  segments_ok cm class_name (map patched_segment segs).
Proof.
  induction segs as [|[lines|raw items stop] segs IH]; intros class_name Hok Hhead;
    [done|..]; apply Forall_cons in Hhead as [Hh Hhead]; cbn.
  - destruct Hok as [Hun Hok]. split; [done|]. by apply IH.
  - destruct Hok as (Hsel & Hitems & Hstop & Hok).
    destruct (header_ok_native cm class_name raw Hh) as (Hsel' & _). cbn zeta in Hsel'.
    split_and!; [by rewrite Hsel'|by apply item_ok_blocks|done|by apply IH].
Qed.

Lemma bind_map_list {A B C : Type} (f : A -> B) (g : B -> list C) (l : list A) :
  (map f l) ≫= g = l ≫= (fun a => g (f a)).
Proof. induction l as [|a l IH]; [done|]. cbn [map]. by rewrite !bind_cons_list, IH. Qed.

Lemma bind_ext_Forall {A B : Type} (P : A -> Prop) (f g : A -> list B) (l : list A) :
  (forall a, P a -> f a = g a) -> Forall P l -> l ≫= f = l ≫= g.
Proof.
  intros Hfg. induction 1 as [|a l Ha _ IH]; [done|].
  by rewrite !bind_cons_list, IH, Hfg.
Qed.

(** The lines the patcher leaves are lines it leaves as they are. *)
Lemma scan_listing_idempotent cm class_name (segs : list Segment) :
  segments_ok cm class_name segs -> Forall header_ok segs ->
  scan_listing cm class_name (segs ≫= segment_patched) = segs ≫= segment_patched.
Proof.
  intros Hok Hhead.
  assert (segs ≫= segment_patched = map patched_segment segs ≫= segment_lines) as Hl.
  { rewrite bind_map_list. apply (bind_ext_Forall (fun _ => True)).
    - intros seg _. by rewrite patched_segment_lines.
    - by apply Forall_forall. }
  rewrite Hl at 1.
  rewrite scan_listing_segments by by apply patched_segments_ok.
  rewrite bind_map_list. apply (bind_ext_Forall header_ok); [|done].
  intros seg Hseg. by apply patched_segment_patched.
Qed.

(** *** Lines that end with their line feed *)

Lemma readlines_go_line (rest : string) : forall (body : string) (cur : string -> string),
  lf_free body = true ->
  readlines_go cur (body +:+ LF +:+ rest) = cur (body +:+ LF) :: readlines rest.
Proof.
  unfold LF. induction body as [|c body IH]; intros cur Hfree.
  - norm_app. cbn [readlines_go]. done.
  - unfold lf_free in Hfree. cbn [all_chars] in Hfree.
    apply andb_true_iff in Hfree as [Hc Hfree]. apply negb_true_iff in Hc.
    rewrite (append_cons c body (String "010" "" +:+ rest)).
    rewrite (append_cons c body (String "010" "")).
    cbn [readlines_go]. rewrite Hc.
    by rewrite (IH (fun x => cur (String c x))).
Qed.

Lemma readlines_writelines (ls : list string) :
  Forall terminated ls -> readlines (writelines ls) = ls.
Proof.
  induction 1 as [|l ls (body & -> & Hbody) _ IH]; [done|].
  rewrite writelines_cons, append_assoc. unfold readlines at 1.
  by rewrite readlines_go_line, IH.
Qed.

Lemma terminated_end_method : terminated (".end method" +:+ LF).
Proof. by exists ".end method". Qed.

Lemma Forall_bind_list {A B : Type} (P : B -> Prop) (f : A -> list B) (l : list A) :
  Forall P (l ≫= f) <-> Forall (fun a => Forall P (f a)) l.
Proof.
  induction l as [|a l IH]; [by split; constructor|].
  rewrite bind_cons_list, Forall_app, Forall_cons. by rewrite IH.
Qed.

Lemma body_blocks_terminated (items : list BodyItem) :
  Forall terminated (body_lines items) -> Forall terminated (body_blocks items).
Proof.
  unfold body_lines, body_blocks.
  induction items as [|[line|start content stop] items IH]; cbn [map concat];
    [done|..].
  - cbn [item_lines app]. intros [_ ?]%Forall_cons. by apply IH.
  - rewrite !Forall_app. intros [? ?]. split; [done|by apply IH].
Qed.

Lemma patched_terminated (segs : list Segment) :
  Forall header_ok segs ->
  Forall terminated (segs ≫= segment_lines) ->
  Forall terminated (segs ≫= segment_patched).
Proof.
  rewrite !Forall_bind_list. intros Hhead Hterm.
  induction Hhead as [|seg segs Hh _ IH]; [done|].
  apply Forall_cons in Hterm as [Hseg Hterm]. constructor; [|by apply IH].
  destruct seg as [lines|raw items stop]; [done|]. cbn in *.
  apply Forall_cons in Hseg as [Hraw Hrest]. apply Forall_app in Hrest as [Hbody _].
  constructor.
  - by apply (header_ok_native ∅ "" raw Hh).
  - apply Forall_app. split; [by apply body_blocks_terminated|].
    constructor; [apply terminated_end_method|done].
Qed.

(** X11. The patcher is idempotent on the listings it is made for: when
    the headers of the compiled methods have the modifier already or are
    plain headers, and every line ends with its line feed, patching the
    patched file gives the patched file. ([native_compiled_dexes] patches
    the listing of a class once for every compiled method of the class.) *)
Theorem native_class_methods_idempotent (cm : gmap Triple string)
    (text : string) (segs : list Segment) :
  readlines text = segs ≫= segment_lines ->
  segments_ok cm "" segs ->
  Forall header_ok segs ->
  Forall terminated (readlines text) ->
  native_class_methods (native_class_methods text cm) cm
  = native_class_methods text cm.
Proof.
  intros Hlines Hok Hhead Hterm.
  rewrite (native_class_methods_segments cm text segs) by done.
  unfold native_class_methods at 1.
  rewrite readlines_writelines.
  - by rewrite scan_listing_idempotent.
  - apply patched_terminated; [done|]. by rewrite <- Hlines.
Qed.

(* ===================================================================== *)
(** ** Further proofs: the stages of the driver *)
(* ===================================================================== *)

(** *** Running the steps *)

Lemma os_path_exists_run (w : World) (path : string) (st : St) :
  os_path_exists w path st = (Val (path_exists w st path), st).
Proof. done. Qed.

Lemma bind_exists {B : Type} (w : World) (path : string) (f : bool -> M B) st :
  bind (os_path_exists w path) f st = f (path_exists w st path) st.
Proof. done. Qed.

Lemma bind_emit {B : Type} (e : Event) (f : unit -> M B) st :
  bind (emit e) f st = f tt (add_events st [e]).
Proof. done. Qed.

Lemma bind_ret {A B : Type} (a : A) (f : A -> M B) st : bind (ret a) f st = f a st.
Proof. done. Qed.

Lemma bind_inv {A B : Type} (m : M A) (f : A -> M B) st b st' :
  bind m f st = (Val b, st') ->
  exists a st1, m st = (Val a, st1) /\ f a st1 = (Val b, st').
Proof.
  unfold bind. destruct (m st) as [[a|e] st1]; [|done]. intros Hf. by exists a, st1.
Qed.

Lemma path_exists_add_events (w : World) (st : St) (t : list Event) (path : string) :
  path_exists w (add_events st t) path = path_exists w st path.
Proof. done. Qed.

(** *** get_application_class_file *)

Lemma find_class_file_run (w : World) (dir fileName : string) (folders : list string)
    (st : St) :
  exists r, find_class_file w dir fileName folders st = (Val r, st) /\
    ((r = "" /\
      forall f, f ∈ folders ->
        path_exists w st (dir +:+ "/" +:+ f +:+ "/" +:+ fileName) = false) \/
     (exists before f after, folders = before ++ f :: after /\
        r = dir +:+ "/" +:+ f +:+ "/" +:+ fileName /\
        path_exists w st r = true /\
        forall g, g ∈ before ->
          path_exists w st (dir +:+ "/" +:+ g +:+ "/" +:+ fileName) = false)).
Proof.
  induction folders as [|f folders IH]; cbn [find_class_file].
  - exists "". split; [done|]. left. split; [done|]. intros f Hf. by apply elem_of_nil in Hf.
  - rewrite bind_exists.
    destruct (path_exists w st (dir +:+ "/" +:+ f +:+ "/" +:+ fileName)) eqn:Hex.
    + eexists. split; [done|]. right. exists [], f, folders.
      split_and!; [done..|]. intros g Hg. by apply elem_of_nil in Hg.
    + destruct IH as (r & Hrun & Hr). exists r. split; [done|].
      destruct Hr as [[-> Hnone]|(before & g & after & -> & -> & Hg & Hbefore)].
      * left. split; [done|]. intros g [->|Hg]%elem_of_cons; [done|by apply Hnone].
      * right. exists (f :: before), g, after. split_and!; [done..|].
        intros g' [->|Hg']%elem_of_cons; [done|by apply Hbefore].
Qed.

Lemma append_not_empty (a : string) (c : ascii) (b : string) : a +:+ String c b <> "".
Proof. by destruct a. Qed.

(** X18. [get_application_class_file] changes nothing and never
    raises. It answers the empty string when the manifest names no
    application class or no listing tree has the listing of the class;
    otherwise it answers the path of the listing under the first listing
    tree, in the order given, that has it. *)
Theorem get_application_class_file_first_match (w : World)
    (decompiled_dir : string) (smali_folders : list string)
    (application_name : string) (st : St) :
  exists r,
    get_application_class_file w decompiled_dir smali_folders application_name st
    = (Val r, st) /\
    (r = "" <->
     application_name = "" \/
     forall f, f ∈ smali_folders ->
       path_exists w st (class_path decompiled_dir f application_name) = false) /\
    (r <> "" ->
     exists before f after, smali_folders = before ++ f :: after /\
       r = class_path decompiled_dir f application_name /\
       path_exists w st r = true /\
       forall g, g ∈ before ->
         path_exists w st (class_path decompiled_dir g application_name) = false).
Proof.
  unfold get_application_class_file, class_path.
  destruct (String.eqb_spec application_name "") as [->|Hname]; cbn [negb].
  - exists "". split_and!; [done| |done]. split; [by left|done].
  - destruct (find_class_file_run w decompiled_dir
                (replace application_name "." "/" +:+ ".smali") smali_folders st)
      as (r & Hrun & Hr).
    exists r. split_and!; [done| |].
    + destruct Hr as [[-> Hnone]|(before & f & after & -> & -> & Hf & Hbefore)].
      * split; [by right|done].
      * split; [by intros ?%append_not_empty|].
        intros [?|Hnone]; [done|]. rewrite Hnone in Hf; [done|].
        apply elem_of_app. right. apply list_elem_of_here.
    + intros Hne. destruct Hr as [[-> _]|Hr]; [done|]. done.
Qed.

(** *** The module name of Android.mk *)

Lemma str_take_app (a b : string) : str_take (String.length a) (a +:+ b) = a.
Proof.
  induction a as [|c a IH]; [by destruct b|].
  rewrite append_cons. cbn [String.length str_take]. by rewrite IH.
Qed.

Lemma str_drop_app (a b : string) : str_drop (String.length a) (a +:+ b) = b.
Proof.
  induction a as [|c a IH]; [by destruct b|].
  rewrite append_cons. cbn [String.length str_drop]. by rewrite IH.
Qed.

Lemma find_from_here (i : nat) (s sub : string) :
  String.prefix sub s = true -> find_from i s sub = Some i.
Proof. destruct s; cbn [find_from]; by intros ->. Qed.

Lemma find_from_assign (b : string) : forall (a : string) (i : nat),
  find_from i a ":=" = None ->
  find_from i (a +:+ ":=" +:+ b) ":=" = Some (i + String.length a)%nat.
Proof.
  induction a as [|c a IH]; intros i Hnone.
  - rewrite append_nil_l. cbn [String.length]. rewrite Nat.add_0_r.
    apply find_from_here, prefix_refl_app.
  - rewrite append_cons. cbn [find_from String.length] in *.
    destruct (String.prefix ":=" (String c a)) eqn:Hp; [done|].
    assert (String.prefix ":=" (String c (a +:+ ":=" +:+ b)) = false) as ->.
    { cbn [String.prefix] in *. destruct (ascii_dec ":" c) as [<-|_]; [|done].
      destruct a as [|d a].
      - rewrite append_nil_l. by change (":=" +:+ b) with (String ":" (String "=" b)).
      - rewrite append_cons. cbn [String.prefix] in *.
        destruct (ascii_dec "=" d); [by destruct a|done]. }
    rewrite IH by done. f_equal. lia.
Qed.

Lemma split_once_assign (name value : string) :
  find name ":=" = -1 ->
  split_once (name +:+ ":=" +:+ value) ":=" = Some (name, value).
Proof.
  unfold find, split_once. destruct (find_from 0 name ":=") eqn:Hf; [lia|]. intros _.
  rewrite (find_from_assign value name 0 Hf). cbn [Nat.add].
  rewrite str_take_app. f_equal. f_equal.
  replace (name +:+ ":=" +:+ value) with ((name +:+ ":=") +:+ value) by by norm_app.
  replace (String.length name + String.length ":=")%nat
    with (String.length (name +:+ ":=")); [apply str_drop_app|].
  clear. induction name as [|c name IH]; [done|].
  rewrite append_cons. cbn [String.length]. by rewrite IH.
Qed.

Lemma split_once_none (line sep : string) :
  find line sep = -1 -> split_once line sep = None.
Proof. unfold find, split_once. destruct (find_from 0 line sep); [lia|done]. Qed.

Lemma read_local_module_skip (pre rest : list string) :
  (forall l, l ∈ pre -> startswith l "LOCAL_MODULE" = false) ->
  read_local_module (pre ++ rest) = read_local_module rest.
Proof.
  induction pre as [|l pre IH]; intros Hpre; [done|].
  cbn [app read_local_module]. rewrite Hpre by apply list_elem_of_here.
  apply IH. intros l' Hl'. apply Hpre. by apply list_elem_of_further.
Qed.

(** X13. The module name is read from the first line of [Android.mk]
    that starts with [LOCAL_MODULE], whatever follows these letters: the
    text behind the first assignment sign of that line, stripped. Without
    such a line the answer is [None]; when that line has no assignment
    sign the unpacking raises [ValueError]. Later lines are not read. *)
Theorem read_local_module_first_line :
  (forall lines,
     read_local_module lines = Val None <->
     forall l, l ∈ lines -> startswith l "LOCAL_MODULE" = false) /\
  (forall pre line post,
     (forall l, l ∈ pre -> startswith l "LOCAL_MODULE" = false) ->
     startswith line "LOCAL_MODULE" = true ->
     (forall name value,
        line = name +:+ ":=" +:+ value -> find name ":=" = -1 ->
        read_local_module (pre ++ line :: post) = Val (Some (strip value))) /\
     (find line ":=" = -1 ->
      read_local_module (pre ++ line :: post)
      = Raise (ValueError "not enough values to unpack (expected 2, got 1)"))).
Proof.
  split.
  - induction lines as [|l lines IH]; cbn [read_local_module].
    + split; [|done]. intros _ l Hl. by apply elem_of_nil in Hl.
    + destruct (startswith l "LOCAL_MODULE") eqn:Hl.
      * split.
        -- destruct (split_once l ":=") as [[? ?]|]; done.
        -- intros Hall. rewrite Hall in Hl; [done|apply list_elem_of_here].
      * rewrite IH. split.
        -- intros Hall l' [->|Hl']%elem_of_cons; [done|by apply Hall].
        -- intros Hall l' Hl'. apply Hall. by apply list_elem_of_further.
  - intros pre line post Hpre Hline. rewrite read_local_module_skip by done.
    cbn [read_local_module]. rewrite Hline. split.
    + intros name value -> Hname. by rewrite split_once_assign.
    + intros Hnone. by rewrite split_once_none.
Qed.

(** *** native_compiled_dexes *)

Lemma todo_loop_run (w : World) (cands : list string) : forall (acc : list string) st,
  foldM (fun todo smali_path =>
           found <- os_path_exists w smali_path ;;
           ret (if found then todo ++ [smali_path] else todo))
        acc cands st
  = (Val (acc ++ List.filter (path_exists w st) cands), st).
Proof.
  induction cands as [|p cands IH]; intros acc st; cbn [foldM List.filter].
  - by rewrite app_nil_r.
  - unfold bind at 1. rewrite bind_exists. unfold ret at 1.
    rewrite IH. destruct (path_exists w st p); [|done].
    by rewrite <- app_assoc.
Qed.

Lemma native_compiled_dexes_run (w : World) (dir : string)
    (cm : gmap Triple string) (st : St) :
  native_compiled_dexes w dir cm st
  = forM (patch_listing cm)
      (List.filter (path_exists w st) (listing_candidates w dir cm)) st.
Proof.
  unfold native_compiled_dexes.
  by rewrite (bind_val _ _ _ _ _ (todo_loop_run w _ [] st)).
Qed.

Lemma patch_listing_run (cm : gmap Triple string) (p : string) (st : St) :
  patch_listing cm p st =
  match files st !! p with
  | Some text =>
      (Val tt,
       {| trace := trace st ++ [EvPatchListing p;
                                EvWriteFile p (native_class_methods text cm)];
          files := <[p := native_class_methods text cm]> (files st) |})
  | None => (Raise (FileNotFoundError p), st)
  end.
Proof.
  unfold patch_listing, bind, open_read, emit, open_write.
  destruct (files st !! p); [|done]. cbn. by rewrite <- app_assoc.
Qed.

Lemma forM_patch_changed (cm : gmap Triple string) (p : string)
    (l : list string) : forall st,
  files (snd (forM (patch_listing cm) l st)) !! p <> files st !! p ->
  p ∈ l /\ p ∈ dom (files st).
Proof.
  induction l as [|p0 l IH]; intros st; cbn [forM]; [done|].
  unfold bind. rewrite patch_listing_run.
  destruct (files st !! p0) as [text|] eqn:Hp0; [|done].
  match goal with |- context [forM _ l ?s] => set (st1 := s) end.
  intros Hchanged.
  destruct (decide (files (snd (forM (patch_listing cm) l st1)) !! p
                    = files st1 !! p)) as [Heq|Hne].
  - rewrite Heq in Hchanged. subst st1. cbn [files] in Hchanged.
    destruct (decide (p = p0)) as [->|Hpp].
    + split; [apply list_elem_of_here|]. by apply elem_of_dom.
    + by rewrite lookup_insert_ne in Hchanged.
  - apply IH in Hne as [Hin Hdom]. split; [by apply list_elem_of_further|].
    subst st1. cbn [files] in Hdom. rewrite dom_insert in Hdom.
    apply elem_of_union in Hdom as [->%elem_of_singleton|?]; [|done].
    by apply elem_of_dom.
Qed.

Lemma elem_of_listing_candidates (w : World) (dir : string)
    (cm : gmap Triple string) (p : string) :
  p ∈ listing_candidates w dir cm <->
  exists classes T, classes ∈ w_listdir w dir /\ 0 <= find classes "smali" /\
    T ∈ dom cm /\ p = smali_path_of dir classes T.
Proof.
  unfold listing_candidates. rewrite list_elem_of_bind. split.
  - intros (classes & Hp & Hc).
    apply list_elem_of_fmap in Hp as (T & -> & HT).
    apply list_elem_of_fmap in HT as ([T' code] & -> & HT).
    apply list_elem_of_In, filter_In in Hc as [Hc Hsm].
    exists classes, T'. split_and!; [by apply list_elem_of_In|lia| |done].
    rewrite (w_items_perm w) in HT. apply elem_of_map_to_list in HT.
    by apply elem_of_dom.
  - intros (classes & T & Hc & Hsm & HT & ->).
    apply elem_of_dom in HT as [code HT]. exists classes. split.
    + apply list_elem_of_fmap. exists T. split; [done|].
      apply list_elem_of_fmap. exists (T, code). split; [done|].
      rewrite (w_items_perm w). by apply elem_of_map_to_list.
    + apply list_elem_of_In, filter_In. split; [by apply list_elem_of_In|].
      by apply Z.leb_le.
Qed.

(** X12. [native_compiled_dexes] writes no file but listings: a file
    whose text it changes is a file of the state at a path made of the
    decompiled package, an entry of it whose name contains [smali], and
    the class of a compiled method without its first and last
    character. With no compiled method it changes nothing at all. *)
Theorem native_compiled_dexes_touches_only_listings (w : World)
    (decompiled_dir : string) (compiled_methods : gmap Triple string)
    (st : St) (p : string) :
  files (snd (native_compiled_dexes w decompiled_dir compiled_methods st)) !! p
  <> files st !! p ->
  p ∈ dom (files st) /\
  exists classes T,
    classes ∈ w_listdir w decompiled_dir /\ 0 <= find classes "smali" /\
    T ∈ dom compiled_methods /\ p = smali_path_of decompiled_dir classes T.
Proof.
  rewrite native_compiled_dexes_run. intros [Hin Hdom]%forM_patch_changed.
  split; [done|]. apply elem_of_listing_candidates.
  apply list_elem_of_In, filter_In in Hin as [Hin _]. by apply list_elem_of_In.
Qed.

Lemma forM_patch_effect (cm : gmap Triple string) (l : list string) : forall st,
  (forall p, p ∈ l -> exists text, files st !! p = Some text /\
     native_class_methods (native_class_methods text cm) cm
     = native_class_methods text cm) ->
  fst (forM (patch_listing cm) l st) = Val tt /\
  (forall p text, p ∈ l -> files st !! p = Some text ->
     files (snd (forM (patch_listing cm) l st)) !! p
     = Some (native_class_methods text cm)).
Proof.
  induction l as [|p0 l IH]; intros st Hl; cbn [forM].
  - split; [done|]. intros p text Hp. by apply elem_of_nil in Hp.
  - unfold bind. rewrite patch_listing_run.
    destruct (Hl p0) as (text0 & Hp0 & Hidem0); [apply list_elem_of_here|].
    rewrite Hp0.
    match goal with |- context [forM _ l ?s] => set (st1 := s) end.
    assert (forall p, files st1 !! p =
              if decide (p = p0) then Some (native_class_methods text0 cm)
              else files st !! p) as Hst1.
    { intros p. subst st1. cbn [files]. destruct (decide (p = p0)) as [->|Hne].
      - by rewrite lookup_insert_eq.
      - by rewrite lookup_insert_ne. }
    destruct (IH st1) as [Hval Heff].
    { intros p Hp. rewrite Hst1. destruct (decide (p = p0)) as [->|Hne].
      - eexists. split; [done|]. by rewrite Hidem0.
      - apply Hl. by apply list_elem_of_further. }
    split; [done|]. intros p text Hp Htext.
    destruct (decide (p ∈ l)) as [Hin|Hnot].
    + destruct (decide (p = p0)) as [->|Hne].
      * rewrite Hp0 in Htext. injection Htext as <-.
        rewrite (Heff p0 (native_class_methods text0 cm)); [by rewrite Hidem0|done|].
        rewrite Hst1. by rewrite decide_True.
      * apply Heff; [done|]. rewrite Hst1. by rewrite decide_False.
    + apply elem_of_cons in Hp as [->|?]; [|done].
      rewrite Hp0 in Htext. injection Htext as <-.
      destruct (decide (files (snd (forM (patch_listing cm) l st1)) !! p0
                        = files st1 !! p0)) as [->|Hne].
      * rewrite Hst1. by rewrite decide_True.
      * by apply forM_patch_changed in Hne as [? _].
Qed.

Lemma forM_patch_trace (cm : gmap Triple string) (l : list string) : forall st,
  (forall p, p ∈ l -> exists text, files st !! p = Some text /\
     native_class_methods (native_class_methods text cm) cm
     = native_class_methods text cm) ->
  trace (snd (forM (patch_listing cm) l st))
  = trace st ++ (l ≫= patch_events (files st) cm).
Proof.
  induction l as [|p0 l IH]; intros st Hl; cbn [forM].
  - cbn. by rewrite app_nil_r.
  - unfold bind. rewrite patch_listing_run.
    destruct (Hl p0) as (text0 & Hp0 & Hidem0); [apply list_elem_of_here|].
    rewrite Hp0.
    match goal with |- context [forM _ l ?s] => set (st1 := s) end.
    assert (forall p, files st1 !! p =
              if decide (p = p0) then Some (native_class_methods text0 cm)
              else files st !! p) as Hst1.
    { intros p. subst st1. cbn [files]. destruct (decide (p = p0)) as [->|Hne].
      - by rewrite lookup_insert_eq.
      - by rewrite lookup_insert_ne. }
    rewrite IH.
    2:{ intros p Hp. rewrite Hst1. destruct (decide (p = p0)) as [->|Hne].
        - eexists. split; [done|]. by rewrite Hidem0.
        - apply Hl. by apply list_elem_of_further. }
    rewrite bind_cons_list.
    rewrite (bind_ext_Forall (fun _ => True) (patch_events (files st1) cm)
               (patch_events (files st) cm) l).
    + subst st1. cbn [trace]. unfold patch_events at 2. rewrite Hp0. cbn [from_option id].
      by rewrite <- app_assoc.
    + intros p _. unfold patch_events. rewrite Hst1.
      destruct (decide (p = p0)) as [->|Hne]; [|done].
      rewrite Hp0. cbn [from_option id]. by rewrite Hidem0.
    + by apply Forall_forall.
Qed.

(** X16. [native_compiled_dexes] patches the listing of a class once for
    every compiled method of the class and every listing tree that has
    the listing: the patcher runs over the candidate paths that exist, in
    their order, a path as often as it occurs among them. When the
    listings it finds are files of the state on which the patcher is
    idempotent, it returns, every pass writes what the first pass over
    the listing wrote, and every listing is left as one pass of the
    patcher leaves it. *)
Theorem native_compiled_dexes_one_pass (w : World)
    (decompiled_dir : string) (compiled_methods : gmap Triple string) (st : St) :
  (forall p, p ∈ listing_candidates w decompiled_dir compiled_methods ->
     path_exists w st p = true ->
     exists text, files st !! p = Some text /\
       native_class_methods (native_class_methods text compiled_methods)
         compiled_methods
       = native_class_methods text compiled_methods) ->
  fst (native_compiled_dexes w decompiled_dir compiled_methods st) = Val tt /\
  trace (snd (native_compiled_dexes w decompiled_dir compiled_methods st))
  = trace st ++
    (List.filter (path_exists w st)
       (listing_candidates w decompiled_dir compiled_methods)
     ≫= patch_events (files st) compiled_methods) /\
  (forall p text,
     p ∈ listing_candidates w decompiled_dir compiled_methods ->
     files st !! p = Some text ->
     files (snd (native_compiled_dexes w decompiled_dir compiled_methods st)) !! p
     = Some (native_class_methods text compiled_methods)).
Proof.
  intros Hl. rewrite native_compiled_dexes_run.
  assert (Hfound : forall p,
            p ∈ List.filter (path_exists w st)
                  (listing_candidates w decompiled_dir compiled_methods) ->
            exists text, files st !! p = Some text /\
              native_class_methods (native_class_methods text compiled_methods)
                compiled_methods
              = native_class_methods text compiled_methods).
  { intros p [Hp Hex]%list_elem_of_In%filter_In. apply Hl; [|done].
    by apply list_elem_of_In. }
  destruct (forM_patch_effect compiled_methods _ st Hfound) as [Hval Heff].
  split_and!; [done|by apply forM_patch_trace|].
  intros p text Hp Htext. apply Heff; [|done].
  apply list_elem_of_In, filter_In. split; [by apply list_elem_of_In|].
  unfold path_exists. rewrite bool_decide_eq_true_2; [done|]. by apply elem_of_dom.
Qed.

(** *** Strings: cancellation *)

Lemma append_inv_head (a b c : string) : a +:+ b = a +:+ c -> b = c.
Proof. induction a as [|x a IH]; norm_app; [done|]. intros [= ?]. by apply IH. Qed.

Lemma length_append (a b : string) :
  String.length (a +:+ b) = (String.length a + String.length b)%nat.
Proof. induction a as [|x a IH]; norm_app; [done|]. cbn [String.length]. by rewrite IH. Qed.

Lemma append_eq_length (a b a' b' : string) :
  a +:+ b = a' +:+ b' -> String.length a = String.length a' -> a = a' /\ b = b'.
Proof.
  revert a'. induction a as [|x a IH]; intros [|y a']; norm_app; try done.
  cbn [String.length]. intros [= -> Hab] [= Hlen].
  destruct (IH _ Hab Hlen) as [-> ->]. done.
Qed.

Lemma append_inv_tail (a b c : string) : a +:+ c = b +:+ c -> a = b.
Proof.
  intros Heq. apply (append_eq_length a c b c Heq).
  apply (f_equal String.length) in Heq. rewrite !length_append in Heq. lia.
Qed.

(** *** write_compiled_methods *)

(** *** os.path.join on plain parts *)

Lemma truthy_append (a b : string) : truthy a = true -> truthy (a +:+ b) = true.
Proof. by destruct a. Qed.

Lemma endswith_snoc_ne (s : string) (x c : ascii) :
  x <> c -> endswith (s +:+ String x "") (String c "") = false.
Proof.
  intros Hne. induction s as [|a s IH].
  - rewrite append_nil_l. cbn. destruct (Ascii.eqb_spec x c); done.
  - rewrite append_cons. cbn [endswith]. rewrite IH, orb_false_r.
    apply String.eqb_neq. intros [= -> Heq].
    destruct s; discriminate.
Qed.

Lemma os_path_join_plain (a b : string) :
  truthy a = true -> endswith a "/" = false -> startswith b "/" = false ->
  os_path_join a b = path_join a b.
Proof. intros Ha He Hb. unfold os_path_join. by rewrite Hb, Ha, He. Qed.

Section WriteCompiledMethods.
Context `{Collaborators} (w : World).

Lemma os_source_dir_plain (project_dir : string) :
  truthy project_dir = true -> endswith project_dir "/" = false ->
  os_source_dir project_dir = source_dir_of project_dir /\
  truthy (source_dir_of project_dir) = true /\
  endswith (source_dir_of project_dir) "/" = false.
Proof.
  intros Ht He. unfold os_source_dir, source_dir_of.
  rewrite (os_path_join_plain project_dir "jni") by done.
  assert (endswith (path_join project_dir "jni") "/" = false) as He1.
  { unfold path_join.
    replace (project_dir +:+ "/" +:+ "jni")
      with ((project_dir +:+ "/jn") +:+ String "i" "") by by norm_app.
    by apply endswith_snoc_ne. }
  rewrite os_path_join_plain; [|by apply truthy_append|done|done].
  split_and!; [done|by apply truthy_append; apply truthy_append|].
  unfold path_join.
  replace ((project_dir +:+ "/" +:+ "jni") +:+ "/" +:+ "nc")
    with ((project_dir +:+ "/jni/n") +:+ String "c" "") by by norm_app.
  by apply endswith_snoc_ne.
Qed.

Lemma os_cpp_path_plain (project_dir : string) (T : Triple) :
  truthy project_dir = true -> endswith project_dir "/" = false ->
  startswith (jni_longname_of T) "/" = false ->
  os_cpp_path project_dir T = cpp_path project_dir T.
Proof.
  intros Ht He Hn. unfold os_cpp_path, cpp_path.
  destruct (os_source_dir_plain project_dir Ht He) as (-> & Ht' & He').
  by rewrite os_path_join_plain.
Qed.

Lemma os_method_list_path_plain (project_dir : string) :
  truthy project_dir = true -> endswith project_dir "/" = false ->
  os_method_list_path project_dir = method_list_path project_dir.
Proof.
  intros Ht He. unfold os_method_list_path, method_list_path.
  destruct (os_source_dir_plain project_dir Ht He) as (-> & Ht' & He').
  by rewrite os_path_join_plain.
Qed.

Lemma cpp_path_inj (project_dir : string) (T T' : Triple) :
  cpp_path project_dir T' = cpp_path project_dir T ->
  jni_longname_of T' = jni_longname_of T.
Proof.
  unfold cpp_path, path_join. rewrite !append_assoc.
  intros Heq%append_inv_head%append_inv_head. by apply append_inv_tail in Heq.
Qed.

Lemma cpp_path_not_list (project_dir : string) (T : Triple) :
  cpp_path project_dir T <> method_list_path project_dir.
Proof.
  unfold cpp_path, method_list_path, path_join. rewrite !append_assoc.
  intros Heq%append_inv_head%append_inv_head.
  change "compiled_methods.txt" with ("compiled_methods" +:+ ".txt") in Heq.
  apply append_eq_length in Heq as [_ Heq]; [done|].
  apply (f_equal String.length) in Heq. rewrite !length_append in Heq.
  cbn [String.length] in Heq. cbn [String.length]. lia.
Qed.

Lemma write_compiled_method_run (project_dir : string) (item : Triple * string) st :
  exists t,
    write_compiled_method w (source_dir_of project_dir) item st
    = (Val tt, {| trace := trace st ++ t;
                  files := write_step project_dir (files st) item |}).
Proof.
  destruct item as [T code]. unfold write_compiled_method.
  rewrite bind_exists. unfold write_step, cpp_path, cpp_text. cbn [fst snd].
  destruct (path_exists w st _).
  - unfold bind at 1. rewrite emit_run. unfold open_write. cbn.
    eexists. by rewrite <- app_assoc.
  - unfold bind at 1. unfold ret at 1. unfold open_write. by eexists.
Qed.

Lemma forM_write_run (project_dir : string) (items : list (Triple * string)) :
  forall st, exists t,
    forM (write_compiled_method w (source_dir_of project_dir)) items st
    = (Val tt, {| trace := trace st ++ t;
                  files := fold_left (write_step project_dir) items (files st) |}).
Proof.
  induction items as [|item items IH]; intros st; cbn [forM fold_left].
  - exists []. rewrite app_nil_r. by destruct st.
  - destruct (write_compiled_method_run project_dir item st) as [t1 Hrun].
    rewrite (bind_val _ _ _ _ _ Hrun).
    destruct (IH {| trace := trace st ++ t1;
                    files := write_step project_dir (files st) item |}) as [t2 ->].
    exists (t1 ++ t2). cbn [trace files]. by rewrite app_assoc.
Qed.

Lemma write_fold_untouched (project_dir : string) (p : string)
    (items : list (Triple * string)) : forall f,
  (forall T code, (T, code) ∈ items -> cpp_path project_dir T <> p) ->
  fold_left (write_step project_dir) items f !! p = f !! p.
Proof.
  induction items as [|[T code] items IH]; intros f Hp; cbn [fold_left]; [done|].
  rewrite IH.
  - unfold write_step. cbn [fst snd]. rewrite lookup_insert_ne; [done|].
    apply (Hp T code), list_elem_of_here.
  - intros T' code' Hin. apply (Hp T' code'). by apply list_elem_of_further.
Qed.

Lemma write_fold_kept (project_dir : string) (T : Triple) (code : string)
    (items : list (Triple * string)) : forall f,
  (forall T' code', (T', code') ∈ items ->
     cpp_path project_dir T' = cpp_path project_dir T -> code' = code) ->
  f !! cpp_path project_dir T = Some (cpp_text code) ->
  fold_left (write_step project_dir) items f !! cpp_path project_dir T
  = Some (cpp_text code).
Proof.
  induction items as [|[T' code'] items IH]; intros f Hsame Hf; cbn [fold_left]; [done|].
  apply IH.
  - intros T2 code2 Hin. apply (Hsame T2 code2). by apply list_elem_of_further.
  - unfold write_step. cbn [fst snd].
    destruct (decide (cpp_path project_dir T' = cpp_path project_dir T)) as [Heq|Hne].
    + rewrite Heq, lookup_insert_eq.
      by rewrite (Hsame T' code' (list_elem_of_here _ _) Heq).
    + by rewrite lookup_insert_ne.
Qed.

Lemma write_fold_written (project_dir : string) (T : Triple) (code : string)
    (items : list (Triple * string)) : forall f,
  (T, code) ∈ items ->
  (forall T' code', (T', code') ∈ items ->
     cpp_path project_dir T' = cpp_path project_dir T -> code' = code) ->
  fold_left (write_step project_dir) items f !! cpp_path project_dir T
  = Some (cpp_text code).
Proof.
  induction items as [|[T' code'] items IH]; intros f Hin Hsame; cbn [fold_left].
  - by apply elem_of_nil in Hin.
  - apply elem_of_cons in Hin as [[= <- <-]|Hin].
    + apply write_fold_kept.
      * intros T2 code2 Hin2. apply (Hsame T2 code2). by apply list_elem_of_further.
      * unfold write_step. cbn [fst snd]. by rewrite lookup_insert_eq.
    + apply IH; [done|]. intros T2 code2 Hin2. apply (Hsame T2 code2).
      by apply list_elem_of_further.
Qed.

Lemma write_compiled_methods_model (project_dir : string)
    (compiled_methods : gmap Triple string) (st : St) :
  let r := write_compiled_methods w project_dir compiled_methods st in
  fst r = Val tt /\
  (forall T code, compiled_methods !! T = Some code ->
     (forall T', T' ∈ dom compiled_methods ->
        jni_longname_of T' = jni_longname_of T -> T' = T) ->
     files (snd r) !! cpp_path project_dir T = Some (cpp_text code)) /\
  (exists order, order ≡ₚ (map_to_list compiled_methods).*1 /\
     files (snd r) !! method_list_path project_dir
     = Some (join LF (join_triple <$> order))) /\
  (forall p, files (snd r) !! p <> files st !! p ->
     p = method_list_path project_dir \/
     exists T, T ∈ dom compiled_methods /\ p = cpp_path project_dir T).
Proof.
  cbn zeta. unfold write_compiled_methods.
  fold (source_dir_of project_dir). rewrite bind_exists.
  set (st0 := snd ((if negb (path_exists w st (source_dir_of project_dir))
                    then emit (EvMakeDirs (source_dir_of project_dir))
                    else ret tt) st)).
  assert ((if negb (path_exists w st (source_dir_of project_dir))
           then emit (EvMakeDirs (source_dir_of project_dir))
           else ret tt) st = (Val tt, st0) /\ files st0 = files st) as [Hfirst Hfiles0].
  { subst st0. by destruct (negb _). }
  rewrite (bind_val _ _ _ _ _ Hfirst).
  destruct (forM_write_run project_dir (w_items w compiled_methods) st0) as [t Hloop].
  rewrite (bind_val _ _ _ _ _ Hloop).
  unfold open_write. cbn [fst snd files trace]. rewrite Hfiles0.
  fold (method_list_path project_dir).
  assert (forall T code, (T, code) ∈ w_items w compiled_methods <->
            compiled_methods !! T = Some code) as Hitems.
  { intros T code. rewrite (w_items_perm w). apply elem_of_map_to_list. }
  split_and!.
  - done.
  - intros T code HT Hinj.
    rewrite lookup_insert_ne by (intros Heq; by apply (cpp_path_not_list project_dir T)).
    apply write_fold_written; [by apply Hitems|].
    intros T' code' Hin Hpath. apply Hitems in Hin.
    rewrite (Hinj T') in Hin.
    + rewrite HT in Hin. by injection Hin.
    + by apply elem_of_dom.
    + by apply cpp_path_inj in Hpath.
  - exists ((w_items w compiled_methods).*1). split.
    + by rewrite (w_items_perm w).
    + by rewrite lookup_insert_eq.
  - intros p Hchanged.
    destruct (decide (p = method_list_path project_dir)) as [->|Hlist]; [by left|].
    right. rewrite lookup_insert_ne in Hchanged by done.
    destruct (decide (exists T, T ∈ dom compiled_methods /\ p = cpp_path project_dir T))
      as [?|Hnone]; [done|].
    exfalso. apply Hchanged. apply write_fold_untouched.
    intros T code Hin <-. apply Hnone. exists T. split; [|done].
    apply Hitems in Hin. by apply elem_of_dom.
Qed.

(** X15. What [write_compiled_methods] leaves when it returns, for a
    project directory that is not empty and does not end with the
    separator, and mangled names that do not start with it (so that
    [os.path.join] puts one separator between the parts): for every
    compiled method whose mangled name no other compiled method has, the
    source file of the method with the include line before the code; a
    list of the full names of the compiled methods, one per line, in the
    order in which the dict is iterated; and no other file is changed. *)
Theorem write_compiled_methods_files (project_dir : string)
    (compiled_methods : gmap Triple string) (st : St) :
  truthy project_dir = true -> endswith project_dir "/" = false ->
  (forall T, T ∈ dom compiled_methods ->
     startswith (jni_longname_of T) "/" = false) ->
  fst (write_compiled_methods w project_dir compiled_methods st) = Val tt ->
  (forall T code, compiled_methods !! T = Some code ->
     (forall T', T' ∈ dom compiled_methods ->
        jni_longname_of T' = jni_longname_of T -> T' = T) ->
     files (snd (write_compiled_methods w project_dir compiled_methods st))
       !! os_cpp_path project_dir T = Some (cpp_text code)) /\
  (exists order, order ≡ₚ (map_to_list compiled_methods).*1 /\
     files (snd (write_compiled_methods w project_dir compiled_methods st))
       !! os_method_list_path project_dir
     = Some (join LF (join_triple <$> order))) /\
  (forall p,
     files (snd (write_compiled_methods w project_dir compiled_methods st)) !! p
     <> files st !! p ->
     p = os_method_list_path project_dir \/
     exists T, T ∈ dom compiled_methods /\ p = os_cpp_path project_dir T).
Proof.
  intros Ht He Hnames _.
  destruct (write_compiled_methods_model project_dir compiled_methods st)
    as (_ & Hcpp & Hlist & Hframe).
  rewrite os_method_list_path_plain by done.
  split_and!.
  - intros T code HT Hinj. rewrite os_cpp_path_plain; [by apply Hcpp|done|done|].
    apply Hnames. by apply elem_of_dom.
  - done.
  - intros p Hp. destruct (Hframe p Hp) as [?|(T & HT & ->)]; [by left|].
    right. exists T. split; [done|]. symmetry. apply os_cpp_path_plain; auto.
Qed.

End WriteCompiledMethods.

(** *** Steps that add only events of one kind, continued *)

Section EmitsOnlyMore.
Context (P : Event -> bool).

Lemma emits_only_forM {A : Type} (f : A -> M unit) (l : list A) :
  (forall a, emits_only P (f a)) -> emits_only P (forM f l).
Proof.
  intros Hf. induction l as [|a l IH]; cbn [forM].
  - apply emits_only_ret.
  - apply emits_only_bind; [apply Hf|done].
Qed.

Lemma emits_only_check_call (w : World) (tool : string) (e : Event) :
  P e = true -> emits_only P (check_call w tool e).
Proof.
  intros He. unfold check_call.
  apply emits_only_bind; [by apply emits_only_emit|intros _].
  destruct (w_tool_fails w e); [apply emits_only_raise|apply emits_only_ret].
Qed.

Lemma emits_only_except (m : M unit) (handler : string -> M unit) :
  emits_only P m -> (forall tool, emits_only P (handler tool)) ->
  emits_only P (except_called_process_error m handler).
Proof.
  intros Hm Hh st. unfold except_called_process_error.
  destruct (Hm st) as (t1 & Ht1 & HP1).
  destruct (m st) as [[[]|e] st1]; cbn [snd] in *; [by exists t1|].
  destruct e; try by exists t1.
  destruct (Hh tool st1) as (t2 & Ht2 & HP2). exists (t1 ++ t2).
  rewrite Ht2, Ht1, app_assoc. split; [done|]. by apply Forall_app.
Qed.

Lemma emits_only_state (g : St -> gmap string string) :
  emits_only P (fun st => (Val tt, {| trace := trace st; files := g st |})).
Proof. intros st. exists []. by rewrite app_nil_r. Qed.

End EmitsOnlyMore.

(** One step of the proof that a computation adds only events that pass
    the test; [side] proves that an event passes it. *)
Ltac emits_only_step side :=
  lazymatch goal with
  | |- emits_only _ (bind _ _) => apply emits_only_bind; [|intros ?]
  | |- emits_only _ (ret _) => apply emits_only_ret
  | |- emits_only _ (raise _) => apply emits_only_raise
  | |- emits_only _ (lift _) => apply emits_only_lift
  | |- emits_only _ (emit _) => apply emits_only_emit; side
  | |- emits_only _ (open_read _) => apply emits_only_open_read
  | |- emits_only _ (open_write _ _) => apply emits_only_open_write; side
  | |- emits_only _ (os_remove _) => apply emits_only_os_remove; side
  | |- emits_only _ (shutil_copy _ _ _) => apply emits_only_shutil_copy; side
  | |- emits_only _ (move_unsigned _ _ _) => apply emits_only_shutil_copy; side
  | |- emits_only _ (os_path_exists _ _) => apply emits_only_os_path_exists
  | |- emits_only _ (check_call _ _ _) => apply emits_only_check_call; side
  | |- emits_only _ (forM _ _) => apply emits_only_forM; intros ?
  | |- emits_only _ (foldM _ _ _) => apply emits_only_foldM; intros ? ?
  | |- emits_only _ (except_called_process_error _ _) =>
      apply emits_only_except; [|intros ?]
  | |- emits_only _ (fun st => (Val tt, {| trace := trace st; files := _ |})) =>
      apply emits_only_state
  | |- emits_only _ (if ?b then _ else _) => destruct b
  | |- emits_only _ (match ?x with _ => _ end) => destruct x
  end.

Ltac emits_only_steps side := repeat (emits_only_step side).

(** *** copy_compiled_libs *)

Section CopyCompiledLibs.
Context `{Collaborators} (w : World) (opts : Options).

Lemma emits_only_copy_lib (P : Event -> bool) (c d abi : string) :
  (forall e, P e = true) -> emits_only P (copy_lib w opts c d abi).
Proof.
  intros HP. unfold copy_lib. emits_only_steps ltac:(apply HP).
Qed.

Lemma copy_lib_returns (c d abi : string) (st st' : St) :
  force_keep_libs opts = false ->
  copy_lib w opts c d abi st = (Val tt, st') ->
  exists t src, trace st' = trace st ++ t /\
    EvCopyFile src (path_join d abi) ∈ t.
Proof.
  intros Hforce. unfold copy_lib. rewrite bind_exists.
  intros (src & st1 & Hsrc & Hrest)%bind_inv.
  assert (exists t1, trace st1 = trace st ++ t1 /\ files st1 = files st) as (t1 & Ht1 & Hf1).
  { destruct (negb (path_exists w st (path_join c abi)) && (abi =? "armeabi")%string).
    - rewrite bind_emit in Hsrc. injection Hsrc as _ <-. by exists [LogWarning "Use armeabi-v7a for armeabi"].
    - injection Hsrc as _ <-. exists []. by rewrite app_nil_r. }
  rewrite bind_exists in Hrest.
  destruct (negb (path_exists w st1 src)).
  { by rewrite Hforce in Hrest. }
  apply bind_inv in Hrest as (text & st2 & Hread & Hrest).
  unfold open_read in Hread. destruct (files st1 !! android_mk_path); [|done].
  injection Hread as _ <-.
  apply bind_inv in Hrest as (lmv & st3 & Hlift & Hrest).
  unfold lift in Hlift. injection Hlift as _ <-.
  destruct lmv as [value|]; [|done].
  rewrite shutil_copy_run in Hrest. destruct (_ || _); [|done].
  injection Hrest as <-. cbn [trace].
  eexists _, _. split; [by rewrite Ht1, <- app_assoc|].
  apply elem_of_app. right. apply list_elem_of_here.
Qed.

Lemma forM_copy_lib_returns (c d : string) (l : list string) : forall st,
  force_keep_libs opts = false ->
  fst (forM (copy_lib w opts c d) l st) = Val tt ->
  forall abi, abi ∈ l -> exists src,
    EvCopyFile src (path_join d abi) ∈ trace (snd (forM (copy_lib w opts c d) l st)).
Proof.
  induction l as [|a l IH]; intros st Hforce Hval abi Habi.
  - by apply elem_of_nil in Habi.
  - cbn [forM] in *. unfold bind in *.
    destruct (copy_lib w opts c d a st) as [[[]|e] st1] eqn:Hstep; [|done].
    apply elem_of_cons in Habi as [->|Habi].
    + destruct (copy_lib_returns _ _ _ _ _ Hforce Hstep) as (t & src & Ht & Hin).
      exists src.
      destruct (emits_only_forM (fun _ => true) (copy_lib w opts c d) l
                  (fun a => emits_only_copy_lib _ c d a (fun _ => eq_refl)) st1)
        as (t2 & Ht2 & _).
      rewrite Ht2, Ht. apply elem_of_app. left. apply elem_of_app. by right.
    + by apply IH.
Qed.

(** X14. Without the option that keeps the libraries,
    [copy_compiled_libs] returns only when every ABI directory of the
    decompiled package has received a library: if it returns, and the
    project has libraries and the package a library directory, the run
    has copied a file into the directory of every ABI listed there. *)
Theorem copy_compiled_libs_serves_every_abi
    (project_dir decompiled_dir : string) (st : St) :
  force_keep_libs opts = false ->
  path_exists w st (path_join project_dir "libs") = true ->
  path_exists w st (path_join decompiled_dir "lib") = true ->
  fst (copy_compiled_libs w opts project_dir decompiled_dir st) = Val tt ->
  forall abi, abi ∈ w_listdir w (path_join decompiled_dir "lib") ->
    exists src,
      EvCopyFile src (path_join (path_join decompiled_dir "lib") abi)
      ∈ trace (snd (copy_compiled_libs w opts project_dir decompiled_dir st)).
Proof.
  intros Hforce Hlibs Hlib. unfold copy_compiled_libs.
  rewrite bind_exists, Hlibs. cbn [negb]. rewrite bind_exists, Hlib. cbn [negb].
  by apply forM_copy_lib_returns.
Qed.

End CopyCompiledLibs.

(* ===================================================================== *)
(** ** Further proofs: dcc_main *)
(* ===================================================================== *)

Lemma bind_open_read {B : Type} (path content : string) (f : string -> M B) st :
  files st !! path = Some content -> bind (open_read path) f st = f content st.
Proof. intros Hf. unfold bind, open_read. by rewrite Hf. Qed.

Lemma bind_open_write {B : Type} (path content : string) (f : unit -> M B) st :
  bind (open_write path content) f st
  = f tt {| trace := trace st ++ [EvWriteFile path content];
            files := <[path := content]> (files st) |}.
Proof. done. Qed.

Lemma bind_case {A B : Type} (m : M A) (f : A -> M B) st :
  bind m f st =
  match m st with
  | (Val a, st') => f a st'
  | (Raise e, st') => (Raise e, st')
  end.
Proof. done. Qed.

Lemma emits_only_weaken {A : Type} (P Q : Event -> bool) (m : M A) :
  (forall e, P e = true -> Q e = true) -> emits_only P m -> emits_only Q m.
Proof.
  intros HPQ Hm st. destruct (Hm st) as (t & Ht & HP). exists t. split; [done|].
  eapply Forall_impl; [done|]. intros e. apply HPQ.
Qed.

(** *** Strings: replacing a string by itself *)

Lemma replace_go_drop (old new : string) : forall (s : string) (k : nat),
  replace_go k s old new = replace_go 0 (str_drop k s) old new.
Proof.
  induction s as [|c s IH]; intros [|k]; cbn [replace_go str_drop];
    first [done|apply IH].
Qed.

Lemma str_drop_length (s : string) : forall k,
  (String.length (str_drop k s) <= String.length s)%nat.
Proof.
  induction s as [|c s IH]; intros [|k]; cbn [str_drop String.length]; try lia.
  specialize (IH k). lia.
Qed.

Lemma replace_go_same (old : string) : old <> "" -> forall (n : nat) (s : string),
  (String.length s <= n)%nat -> replace_go 0 s old old = s.
Proof.
  intros Hold. induction n as [|n IH]; intros [|c s] Hlen; cbn [String.length] in Hlen;
    try done; try lia.
  cbn [replace_go].
  destruct (String.prefix old (String c s)) eqn:Hp.
  - destruct (prefix_inv _ _ Hp) as (rest & Hrest).
    destruct old as [|o old]; [done|]. rewrite append_cons in Hrest.
    injection Hrest as -> ->.
    cbn [String.length].
    replace (S (String.length old) - 1)%nat with (String.length old) by lia.
    rewrite replace_go_drop, str_drop_app, append_cons.
    rewrite IH; [done|].
    rewrite length_append in Hlen. lia.
  - rewrite IH; [done|lia].
Qed.

Lemma replace_same (s old : string) : replace s old old = s.
Proof.
  unfold replace. destruct old as [|o old].
  - induction s as [|c s IH]; [done|]. cbn [replace_empty].
    by rewrite append_nil_l, IH.
  - apply (replace_go_same (String o old) ltac:(done) (String.length s) s). lia.
Qed.

Section FurtherMain.
Context `{Collaborators} (w : World) (opts : Options).

(** *** The two halves of dcc_main *)

Lemma dcc_main_split (apkfile filtercfg custom_loader outapk : string)
    (do_compile : bool) (project_dir source_archive : string) (st : St) :
  dcc_main w opts apkfile filtercfg custom_loader outapk do_compile
    project_dir source_archive st
  = match dcc_main_until_compiled w opts apkfile filtercfg custom_loader outapk st with
    | (Val None, st1) => (Val tt, st1)
    | (Val (Some r), st1) =>
        dcc_main_from_compiled w opts apkfile custom_loader outapk do_compile
          project_dir source_archive r st1
    | (Raise e, st1) => (Raise e, st1)
    end.
Proof.
  unfold dcc_main, dcc_main_until_compiled. rewrite !bind_exists.
  destruct (negb (path_exists w st apkfile)); [reflexivity|].
  destruct (negb (truthy outapk)); [reflexivity|].
  destruct (rfind custom_loader "." =? -1); [reflexivity|].
  rewrite !bind_case.
  destruct (open_read "project/jni/nc/Dex2C.cpp" st) as [[data|e] st2]; [|reflexivity].
  rewrite !bind_open_write. rewrite !bind_case.
  match goal with
  | |- context [match ?m ?s with _ => _ end] =>
      destruct (m s) as [[[]|e] st4]; [|reflexivity]
  end.
  rewrite !bind_case.
  destruct (compile_dex_step w opts filtercfg st4) as [[[cm errs]|e] st5];
    reflexivity.
Qed.

(** X19. [dcc_main] refuses three kinds of arguments before it touches
    anything: an input package that does not exist, an empty output
    name, and a loader class without a package. Each time it logs one
    error and returns; no file is read or written and no tool is run. *)
Theorem dcc_main_refuses_bad_arguments
    (apkfile filtercfg custom_loader outapk : string)
    (do_compile : bool) (project_dir source_archive : string) (st : St) :
  path_exists w st apkfile = false \/ outapk = "" \/ rfind custom_loader "." = -1 ->
  exists msg,
    dcc_main w opts apkfile filtercfg custom_loader outapk do_compile
      project_dir source_archive st
    = (Val tt, add_events st [LogError msg]).
Proof.
  intros Hbad. unfold dcc_main. rewrite bind_exists.
  destruct (path_exists w st apkfile); cbn [negb]; [|by eexists].
  destruct outapk as [|c outapk]; cbn [truthy negb]; [by eexists|].
  destruct (Z.eqb_spec (rfind custom_loader ".") (-1)) as [Heq|Hne]; [by eexists|].
  by destruct Hbad as [?|[?|?]].
Qed.

(** X21. An input that is no package file is refused late: without the
    option that keeps the libraries, [dcc_main] on an existing input
    whose name does not end in [.apk] raises from the ABI reconciliation,
    after it has rewritten the bootstrap source for the loader. *)
Theorem dcc_main_rejects_non_apk
    (apkfile filtercfg custom_loader outapk : string)
    (do_compile : bool) (project_dir source_archive : string) (st : St)
    (data : string) :
  path_exists w st apkfile = true -> outapk <> "" ->
  rfind custom_loader "." <> -1 ->
  files st !! dex2c_cpp_path = Some data ->
  force_keep_libs opts = false -> is_apk apkfile = false ->
  let r := dcc_main w opts apkfile filtercfg custom_loader outapk do_compile
             project_dir source_archive st in
  fst r = Raise (Exception (apkfile +:+ " is not an apk file")) /\
  exists data',
    trace (snd r) = trace st ++ [EvWriteFile dex2c_cpp_path data'; adjusting] /\
    files (snd r) = <[dex2c_cpp_path := data']> (files st).
Proof.
  intros Hapk Hout Hloader Hdata Hforce Hisapk. cbn zeta.
  unfold dcc_main. rewrite bind_exists, Hapk. cbn [negb].
  destruct outapk as [|c outapk]; [done|]. cbn [truthy negb].
  destruct (Z.eqb_spec (rfind custom_loader ".") (-1)) as [Heq|_]; [done|].
  rewrite (bind_open_read _ _ _ _ Hdata), bind_open_write.
  rewrite Hforce. cbn [negb].
  unfold adjust_application_mk. rewrite Hisapk.
  unfold bind, emit, raise. cbn.
  split; [done|]. eexists. split; [by rewrite <- app_assoc|done].
Qed.

End FurtherMain.

(** *** The events of the stages *)

Section StageEvents.
Context `{Collaborators} (w : World) (opts : Options).
Context (P : Event -> bool).

Lemma emits_only_find_class_file (dir fileName : string) (folders : list string) :
  emits_only P (find_class_file w dir fileName folders).
Proof.
  induction folders as [|f folders IH]; cbn [find_class_file].
  - apply emits_only_ret.
  - apply emits_only_bind; [apply emits_only_os_path_exists|intros found].
    destruct found; [apply emits_only_ret|done].
Qed.

Lemma emits_only_get_application_class_file (dir : string) (folders : list string)
    (name : string) :
  emits_only P (get_application_class_file w dir folders name).
Proof.
  unfold get_application_class_file.
  destruct (negb _); [apply emits_only_find_class_file|apply emits_only_ret].
Qed.

Lemma emits_only_write_compiled_methods (project_dir : string)
    (cm : gmap Triple string) :
  emits_only writing (write_compiled_methods w project_dir cm).
Proof.
  unfold write_compiled_methods.
  emits_only_steps ltac:(reflexivity).
  unfold write_compiled_method.
  match goal with |- emits_only _ (let '(_, _) := ?x in _) => destruct x end.
  emits_only_steps ltac:(reflexivity).
Qed.

Lemma emits_only_prepare_project (do_compile : bool)
    (project_dir source_archive : string) (cm : gmap Triple string) :
  (forall e, repackaging e = false -> P e = true) ->
  emits_only P (prepare_project w do_compile project_dir source_archive cm).
Proof.
  intros HP. unfold prepare_project.
  repeat first
    [ apply (emits_only_weaken writing);
        [intros e He; apply HP; by destruct e
        |apply emits_only_write_compiled_methods]
    | emits_only_step ltac:(by apply HP) ].
Qed.

Lemma emits_only_native_compiled_dexes (dir : string) (cm : gmap Triple string) :
  (forall e, packing e = false -> P e = true) ->
  emits_only P (native_compiled_dexes w dir cm).
Proof.
  intros HP. unfold native_compiled_dexes.
  emits_only_steps ltac:(by apply HP).
  unfold patch_listing. emits_only_steps ltac:(by apply HP).
Qed.

Lemma emits_only_copy_compiled_libs (project_dir dir : string) :
  (forall e, packing e = false -> P e = true) ->
  emits_only P (copy_compiled_libs w opts project_dir dir).
Proof.
  intros HP. unfold copy_compiled_libs.
  emits_only_steps ltac:(by apply HP).
  unfold copy_lib. emits_only_steps ltac:(by apply HP).
Qed.

Lemma emits_only_inject_init_call (custom_loader : string) (content : list string) :
  (forall e, packing e = false -> P e = true) ->
  emits_only P (inject_init_call custom_loader content).
Proof.
  intros HP. unfold inject_init_call. emits_only_steps ltac:(by apply HP).
Qed.

Lemma emits_only_sign (unsigned_apk signed_apk : string) :
  (forall e, P e = true) -> emits_only P (sign w unsigned_apk signed_apk).
Proof. intros HP. unfold sign. emits_only_steps ltac:(by apply HP). Qed.

End StageEvents.

(** *** The project stage and the build *)

Section BuildFailure.
Context `{Collaborators} (w : World) (opts : Options).

Lemma write_compiled_methods_val (project_dir : string)
    (cm : gmap Triple string) (st : St) :
  fst (write_compiled_methods w project_dir cm st) = Val tt.
Proof.
  unfold write_compiled_methods. fold (source_dir_of project_dir).
  rewrite bind_exists, bind_case.
  destruct (negb (path_exists w st (source_dir_of project_dir)));
    cbn [emit ret]; rewrite bind_case;
    match goal with
    | |- context [forM _ _ ?s] =>
        destruct (forM_write_run w project_dir (w_items w cm) s) as [t ->]
    end; done.
Qed.

Lemma prepare_project_val (do_compile : bool) (project_dir source_archive : string)
    (cm : gmap Triple string) (st : St) :
  fst (prepare_project w do_compile project_dir source_archive cm st)
  = Val (working_project_dir w project_dir).
Proof.
  unfold prepare_project, working_project_dir.
  destruct (truthy project_dir).
  - rewrite bind_exists, bind_case.
    destruct (negb (path_exists w st project_dir)); cbn [emit ret];
      rewrite bind_case;
      match goal with
      | |- context [write_compiled_methods w ?p cm ?s] =>
          pose proof (write_compiled_methods_val p cm s) as Hw;
          destruct (write_compiled_methods w p cm s) as [[[]|e] st2]; [done|done]
      end.
  - cbn zeta. rewrite !bind_emit, bind_case.
    match goal with
    | |- context [write_compiled_methods w ?p cm ?s] =>
        pose proof (write_compiled_methods_val p cm s) as Hw;
        destruct (write_compiled_methods w p cm s) as [[[]|e] st2]; [|done]
    end.
    by destruct (negb do_compile).
Qed.

(** X22. When the native build fails, the run stops there: [dcc_main]
    raises the error of the build tool, and between the return of
    [compile_dex] and the call of the build tool nothing of the package
    has been touched: no decompiler, patcher, manifest editor, packer or
    signer has run. *)
Theorem build_failure_stops_the_run
    (apkfile filtercfg custom_loader outapk : string)
    (project_dir source_archive : string)
    (st st1 : St) (cm : gmap Triple string) (errors : list string) :
  dcc_main_until_compiled w opts apkfile filtercfg custom_loader outapk st
  = (Val (Some (cm, errors)), st1) ->
  cm <> ∅ ->
  w_tool_fails w (EvNdkBuild (working_project_dir w project_dir)) = true ->
  let r := dcc_main w opts apkfile filtercfg custom_loader outapk true
             project_dir source_archive st in
  fst r = Raise (CalledProcessError "ndk-build") /\
  exists t,
    trace (snd r)
    = trace st1 ++ t ++ [EvNdkBuild (working_project_dir w project_dir)] /\
    Forall (fun e => repackaging e = false) t.
Proof.
  intros Hun Hcm Hfail. cbn zeta. rewrite dcc_main_split, Hun.
  unfold dcc_main_from_compiled.
  rewrite (bind_val _ _ _ _ _ (report_errors_run errors st1)).
  rewrite bool_decide_eq_false_2 by by rewrite map_size_empty_iff.
  set (st2 := add_events st1 (error_report errors)).
  pose proof (prepare_project_val true project_dir source_archive cm st2) as Hval.
  destruct (emits_only_prepare_project w (fun e => negb (repackaging e)) true
              project_dir source_archive cm
              ltac:(intros e He; cbn beta; by rewrite He) st2) as (t & Ht & HP).
  rewrite bind_case.
  destruct (prepare_project w true project_dir source_archive cm st2)
    as [[pd|e] st3]; [|done].
  cbn [fst snd] in *. injection Hval as ->.
  unfold check_call. rewrite bind_case, bind_emit, Hfail.
  unfold raise. cbn [fst snd add_events trace].
  split; [done|].
  exists (error_report errors ++ t). split.
  - rewrite Ht. subst st2. cbn [add_events trace]. by rewrite <- !app_assoc.
  - apply Forall_app. split.
    + unfold error_report. destruct errors; repeat constructor.
    + eapply Forall_impl; [done|]. intros e He. by apply negb_true_iff in He.
Qed.

End BuildFailure.

(** *** The package stage *)

Lemma never_returns_bind {A B : Type} (m : M A) (f : A -> M B) :
  (forall a, never_returns (f a)) -> never_returns (bind m f).
Proof.
  intros Hf st. unfold bind. destruct (m st) as [[a|e] st1].
  - apply Hf.
  - by exists e, st1.
Qed.

Section PackageStage.
Context `{Collaborators} (w : World) (opts : Options).

Lemma emits_only_repackage (P : Event -> bool)
    (apkfile custom_loader outapk project_dir : string) (cm : gmap Triple string) :
  (forall e, P e = true) ->
  emits_only P (repackage w opts apkfile custom_loader outapk project_dir cm).
Proof.
  intros HP. unfold repackage.
  repeat first
    [ apply emits_only_native_compiled_dexes; intros; apply HP
    | apply emits_only_copy_compiled_libs; intros; apply HP
    | apply emits_only_get_application_class_file
    | apply emits_only_inject_init_call; intros; apply HP
    | apply emits_only_sign; exact HP
    | emits_only_step ltac:(apply HP) ].
Qed.

Lemma emits_only_from_compiled (P : Event -> bool)
    (apkfile custom_loader outapk : string) (do_compile : bool)
    (project_dir source_archive : string) (r : gmap Triple string * list string) :
  (forall e, P e = true) ->
  emits_only P (dcc_main_from_compiled w opts apkfile custom_loader outapk
                  do_compile project_dir source_archive r).
Proof.
  intros HP. unfold dcc_main_from_compiled, report_errors. destruct r as [cm errors].
  repeat first
    [ apply emits_only_prepare_project; intros; apply HP
    | apply emits_only_repackage; exact HP
    | emits_only_step ltac:(apply HP) ].
Qed.

(** X24. The package stage needs a listing tree and a fresh directory
    for the loader. When the decompiled package has no listing tree, or
    the directory of the package of the loader class exists already
    under the last listing tree, the stage raises in every state, and it
    has not packed or signed anything. (The loader has a package, as
    [dcc_main] has checked before.) *)
Theorem repackage_needs_a_fresh_loader_directory
    (apkfile custom_loader outapk project_dir : string) (cm : gmap Triple string) :
  rfind custom_loader "." <> -1 ->
  (last (get_smali_folders w (w_temp w "dcc-apktool-")) = None \/
   exists f, last (get_smali_folders w (w_temp w "dcc-apktool-")) = Some f /\
     w_exists w (loader_dir w custom_loader f) = true) ->
  never_returns (repackage w opts apkfile custom_loader outapk project_dir cm) /\
  emits_only (fun e => negb (packing e))
    (repackage w opts apkfile custom_loader outapk project_dir cm).
Proof.
  intros _ Hlast. unfold loader_dir in Hlast.
  assert (forall e, packing e = false -> negb (packing e) = true) as HP
    by (by intros e ->).
  split.
  - unfold repackage.
    repeat (apply never_returns_bind; intros ?).
    intros st. destruct Hlast as [->|(f & -> & Hex)]; [by eexists _, _|].
    rewrite bind_exists. unfold path_exists. rewrite Hex, orb_true_r.
    by eexists _, _.
  - unfold repackage.
    repeat first
      [ lazymatch goal with
        | |- emits_only _ (match last _ with _ => _ end) =>
            let st0 := fresh "st" in
            intros st0; exists []; rewrite app_nil_r; split; [|constructor];
            destruct Hlast as [->|(f & -> & Hex)]; [reflexivity|];
            rewrite bind_exists; unfold path_exists; rewrite Hex, orb_true_r;
            reflexivity
        end
      | apply emits_only_native_compiled_dexes; exact HP
      | apply emits_only_copy_compiled_libs; exact HP
      | apply emits_only_get_application_class_file
      | apply emits_only_inject_init_call; exact HP
      | emits_only_step ltac:(reflexivity) ].
Qed.

(** X20. With the loader the templates are written for, the rewrite of
    the bootstrap source changes nothing: what [dcc_main] writes to the
    bootstrap source first of all is, character by character, what it
    has read from it. *)
Theorem default_loader_keeps_bootstrap_source
    (apkfile filtercfg outapk : string)
    (do_compile : bool) (project_dir source_archive : string) (st : St)
    (data : string) :
  path_exists w st apkfile = true -> outapk <> "" ->
  files st !! dex2c_cpp_path = Some data ->
  exists t,
    trace (snd (dcc_main w opts apkfile filtercfg default_loader outapk do_compile
                  project_dir source_archive st))
    = trace st ++ EvWriteFile dex2c_cpp_path data :: t.
Proof.
  intros Hapk Hout Hdata.
  rewrite dcc_main_split.
  unfold dcc_main_until_compiled. rewrite bind_exists, Hapk. cbn [negb].
  destruct outapk as [|c outapk]; [done|]. cbn [truthy negb].
  change (rfind default_loader "." =? -1) with false. cbn iota.
  rewrite (bind_open_read _ _ _ _ Hdata).
  change (replace default_loader "." "/") with "amimo/dcc/DccApplication".
  change ("Java_" +:+ replace default_loader "." "_")
    with "Java_amimo_dcc_DccApplication".
  rewrite !replace_same. rewrite bind_open_write.
  match goal with
  | |- context [bind ?m ?f ?s] =>
      assert (emits_only early (bind m f)) as Hrest;
        [|destruct (Hrest s) as (t1 & Ht1 & _);
          destruct (bind m f s) as [[[r|]|e] st1]]
  end.
  - apply emits_only_bind.
    + destruct (negb (force_keep_libs opts));
        [apply emits_only_adjust|apply emits_only_ret].
    + intros _. apply emits_only_bind; [apply emits_only_compile_dex_step|].
      intros r. apply emits_only_ret.
  - destruct (emits_only_from_compiled (fun _ => true) apkfile default_loader
                (String c outapk) do_compile project_dir source_archive r
                (fun _ => eq_refl) st1) as (t2 & Ht2 & _).
    cbn [snd] in Ht1. exists (t1 ++ t2). rewrite Ht2, Ht1. cbn [snd trace].
    by rewrite <- !app_assoc.
  - exists t1. cbn [snd] in *. rewrite Ht1. cbn [trace]. by rewrite <- !app_assoc.
  - exists t1. cbn [snd] in *. rewrite Ht1. cbn [trace]. by rewrite <- !app_assoc.
Qed.

End PackageStage.

(** *** The ABI reconciliation on a package without libraries *)

Lemma reconciled_no_libs (names : list string) :
  (forall n, n ∈ names -> lib_entry n = false) ->
  reconciled names = ∅ /\ deprecated_warnings names = [] /\
  forallb (fun n => negb (lib_entry n) || abi_accepted n) names = true.
Proof.
  induction names as [|n names IH]; intros Hnone; [done|].
  destruct IH as (Hr & Hd & Hf).
  { intros n' Hn'. apply Hnone. by apply list_elem_of_further. }
  rewrite reconciled_cons, deprecated_warnings_cons, Hr, Hd.
  cbn [forallb]. rewrite Hf.
  unfold reconciled_of, deprecated_warnings. cbn.
  rewrite (Hnone n) by apply list_elem_of_here. cbn.
  split_and!; [set_solver|done|done].
Qed.

(** X25. A package without an entry under [lib/] is left alone by the
    ABI reconciliation: [adjust_application_mk] logs that it keeps the
    ABI names of [Application.mk], opens neither that file nor a
    temporary one, and returns. *)
Theorem adjust_application_mk_without_libraries
    (w : World) (apkfile : string) (names : list string) (st : St) :
  is_apk apkfile = true -> w_namelist w = Val names ->
  (forall n, n ∈ names -> lib_entry n = false) ->
  adjust_application_mk w apkfile st
  = (Val tt,
     add_events st
       [adjusting;
        LogInfo "No lib abis found in apk, using the ones defined in Application.mk file"]).
Proof.
  intros Hapk Hnames Hnone.
  destruct (reconciled_no_libs names Hnone) as (Hr & Hd & Hf).
  rewrite (adjust_accepted w apkfile names st Hapk Hnames Hf).
  cbn zeta. rewrite Hr, Hd. rewrite bool_decide_eq_true_2 by done.
  by rewrite add_events_app.
Qed.

(** X26. The name of the ABI directory is always there to be read: an
    entry that starts with [lib/] splits at the slashes into [lib] and
    at least one more part, so taking the second part cannot fail, and
    the ABI name is that part, stripped. *)
Theorem lib_entry_names_an_abi (file_name : string) :
  lib_entry file_name = true ->
  exists a rest,
    split "/" file_name = "lib" :: a :: rest /\
    abi_name_of file_name = strip a.
Proof.
  unfold lib_entry, startswith. intros (r & ->)%prefix_inv.
  change ("lib/" +:+ r) with ("lib" +:+ String "/" r).
  unfold abi_name_of. rewrite split_app_sep.
  change (split "/" "lib") with ["lib"].
  pose proof (split_nonempty "/" r) as Hne.
  destruct (split "/" r) as [|a rest]; [done|].
  by exists a, rest.
Qed.

(** *** The fallback of copy_compiled_libs for the deprecated ABI *)

(** X27. The directory of the deprecated ABI gets the modern library:
    when the project has built no library under [armeabi] but has the
    directory [armeabi-v7a], and [Android.mk] names the module, the
    step of [copy_compiled_libs] for the ABI directory [armeabi] warns
    and takes the library of the module from [armeabi-v7a]. When that
    file is there it is copied into the [armeabi] directory of the
    package and the step returns; when it is not, [shutil.copy] raises
    [FileNotFoundError] for it and nothing is copied. *)
Theorem armeabi_directory_gets_v7a_library
    (w : World) (opts : Options) (compiled_libs_dir decompiled_libs_dir : string)
    (st : St) (text value : string) :
  path_exists w st (path_join compiled_libs_dir "armeabi") = false ->
  path_exists w st (path_join compiled_libs_dir "armeabi-v7a") = true ->
  files st !! android_mk_path = Some text ->
  read_local_module (readlines text) = Val (Some value) ->
  let libnc :=
    path_join (path_join compiled_libs_dir "armeabi-v7a") ("lib" +:+ value +:+ ".so") in
  let r := copy_lib w opts compiled_libs_dir decompiled_libs_dir "armeabi" st in
  fst r = (if path_exists w st libnc then Val tt
           else Raise (FileNotFoundError libnc)) /\
  trace (snd r)
  = trace st ++ LogWarning "Use armeabi-v7a for armeabi" ::
      (if path_exists w st libnc
       then [EvCopyFile libnc (path_join decompiled_libs_dir "armeabi")]
       else []).
Proof.
  intros Hold Hnew Hmk Hvalue. cbn zeta.
  assert (Hrun :
    copy_lib w opts compiled_libs_dir decompiled_libs_dir "armeabi" st
    = shutil_copy w
        (path_join (path_join compiled_libs_dir "armeabi-v7a")
           ("lib" +:+ value +:+ ".so"))
        (path_join decompiled_libs_dir "armeabi")
        (add_events st [LogWarning "Use armeabi-v7a for armeabi"])).
  { unfold copy_lib.
    rewrite bind_exists, Hold. cbn [negb andb String.eqb Ascii.eqb Bool.eqb].
    rewrite bind_case, bind_emit. unfold ret at 1.
    rewrite bind_exists, path_exists_add_events, Hnew. cbn [negb].
    rewrite (bind_open_read _ text) by done.
    rewrite bind_case. unfold lift at 1. by rewrite Hvalue. }
  rewrite Hrun, shutil_copy_run.
  change (bool_decide (?p ∈ dom (files (add_events st ?t))) || w_exists w ?p)
    with (path_exists w st p).
  destruct (path_exists w st (path_join (path_join _ "armeabi-v7a") _));
    cbn [fst snd trace add_events]; (split; [done|]); by rewrite <- ?app_assoc.
Qed.

(** *** The static initializer that is appended *)

(** X28. When no line of the listing of the application class names
    the static initializer, the injection appends one block and changes
    no line; and the block has what a later run looks for: the name of
    the static initializer, a registers directive, and the call of the
    loader. *)
Theorem inject_init_call_appends_initializer
    (custom_loader : string) (content : list string) (st : St) :
  next_index mentions_clinit 0 content = None ->
  inject_init_call custom_loader content st
  = (Val (content ++ [code_block_to_append custom_loader]), st) /\
  mentions_clinit (code_block_to_append custom_loader) = true /\
  mentions_directive (code_block_to_append custom_loader) = true /\
  contains (line_to_insert custom_loader) (code_block_to_append custom_loader) = true.
Proof.
  intros Hnone. unfold inject_init_call. rewrite Hnone. split; [done|].
  assert (forall sub a b, code_block_to_append custom_loader = a +:+ sub +:+ b ->
            contains sub (code_block_to_append custom_loader) = true) as Hsub.
  { intros sub a b ->. unfold contains.
    by destruct (find_from_app_some sub b a 0) as [j ->]. }
  split_and!.
  - apply (Hsub _ (LF +:+ spaces 16 +:+ ".method static final constructor ")
             ("()V" +:+ LF +:+ spaces 20 +:+ ".registers 0" +:+ LF +:+ LF +:+
              spaces 16 +:+ line_to_insert custom_loader +:+ LF +:+ LF +:+
              spaces 20 +:+ "return-void" +:+ LF +:+
              spaces 16 +:+ ".end method" +:+ LF +:+ spaces 16)).
    reflexivity.
  - unfold mentions_directive. apply orb_true_iff. right.
    apply (Hsub _ (LF +:+ spaces 16 +:+ ".method static final constructor <clinit>()V"
                   +:+ LF +:+ spaces 20)
             (" 0" +:+ LF +:+ LF +:+
              spaces 16 +:+ line_to_insert custom_loader +:+ LF +:+ LF +:+
              spaces 20 +:+ "return-void" +:+ LF +:+
              spaces 16 +:+ ".end method" +:+ LF +:+ spaces 16)).
    reflexivity.
  - apply (Hsub _ (LF +:+ spaces 16 +:+ ".method static final constructor <clinit>()V"
                   +:+ LF +:+ spaces 20 +:+ ".registers 0" +:+ LF +:+ LF +:+ spaces 16)
             (LF +:+ LF +:+ spaces 20 +:+ "return-void" +:+ LF +:+
              spaces 16 +:+ ".end method" +:+ LF +:+ spaces 16)).
    unfold code_block_to_append. by norm_app.
Qed.

(** *** The path of a listing *)

Lemma len_cons (c : ascii) (s : string) : len (String c s) = 1 + len s.
Proof. unfold len. cbn [String.length]. lia. Qed.

(** X29. The listing of a class is looked for where its descriptor
    says: for the descriptor of the class, between its first letter and
    its semicolon, the path under the listing tree is that text with the
    listing suffix. *)
Theorem smali_path_of_class_descriptor (decompiled_dir classes body name proto : string) :
  smali_path_of decompiled_dir classes ("L" +:+ body +:+ ";", name, proto)
  = decompiled_dir +:+ "/" +:+ classes +:+ "/" +:+ body +:+ ".smali".
Proof.
  unfold smali_path_of, path_join.
  assert (slice ("L" +:+ body +:+ ";") 1 (-1) = body) as ->.
  { change ("L" +:+ body +:+ ";") with (String "L" (body +:+ ";")).
    assert (bound (String "L" (body +:+ ";")) 1 = 1%nat) as Hb1.
    { unfold bound. change (1 <? 0) with false. cbn iota.
      rewrite len_cons. unfold len. lia. }
    assert (bound (String "L" (body +:+ ";")) (-1) = S (String.length body)) as Hb2.
    { unfold bound. change (-1 <? 0) with true. cbn iota.
      rewrite len_cons. unfold len. rewrite length_append. cbn [String.length]. lia. }
    unfold slice. rewrite Hb1, Hb2. cbn [str_drop].
    replace (S (String.length body) - 1)%nat with (String.length body) by lia.
    apply str_take_app. }
  by norm_app.
Qed.

(** *** The project stage *)

Section ProjectStage.
Context `{Collaborators} (w : World).

Lemma write_compiled_methods_trace (project_dir : string)
    (cm : gmap Triple string) (st : St) :
  exists t st', write_compiled_methods w project_dir cm st = (Val tt, st') /\
    trace st' = trace st ++ t /\
    Forall (fun e => archiving e = false) t.
Proof.
  pose proof (write_compiled_methods_val w project_dir cm st) as Hval.
  destruct (emits_only_write_compiled_methods w project_dir cm st) as (t & Ht & HP).
  destruct (write_compiled_methods w project_dir cm st) as [[[]|e] st'];
    [|done].
  exists t, st'. split_and!; [done..|].
  eapply Forall_impl; [done|]. intros e He. by destruct e.
Qed.

(** X30. The generated project is archived in one case only: when no
    build is asked for and no source directory is given. Then the
    project stage archives the temporary project and moves the archive
    to the given name; with a source directory, or with a build, it
    archives nothing, whatever archive name is given. *)
Theorem archive_only_without_build_and_source_dir
    (do_compile : bool) (project_dir source_archive : string)
    (cm : gmap Triple string) (st : St) :
  exists t,
    trace (snd (prepare_project w do_compile project_dir source_archive cm st))
    = trace st ++ t /\
    if negb do_compile && negb (truthy project_dir) then
      exists t0, t = t0 ++
        [EvArchive (w_temp w "dcc-project-") (w_temp w "-dcc" +:+ ".zip");
         EvMoveFile (w_temp w "-dcc" +:+ ".zip") source_archive] /\
        Forall (fun e => archiving e = false) t0
    else Forall (fun e => archiving e = false) t.
Proof.
  unfold prepare_project.
  destruct (truthy project_dir); cbn [negb andb].
  - rewrite andb_false_r. rewrite bind_exists, bind_case.
    destruct (negb (path_exists w st project_dir)); cbn [emit ret];
      rewrite bind_case;
      match goal with
      | |- context [write_compiled_methods w ?p cm ?s] =>
          destruct (write_compiled_methods_trace p cm s) as (t & st' & -> & Ht & HP)
      end; cbn [ret snd].
    + exists (EvCopyTree "project" project_dir :: t). rewrite Ht. cbn [trace].
      split; [by rewrite <- app_assoc|by constructor].
    + by exists t.
  - cbn zeta. rewrite !bind_emit, bind_case.
    match goal with
    | |- context [write_compiled_methods w ?p cm ?s] =>
        destruct (write_compiled_methods_trace p cm s) as (t & st' & -> & Ht & HP)
    end.
    destruct do_compile; cbn [negb andb].
    + rewrite bind_ret. cbn [ret snd].
      exists (EvRmTree (w_temp w "dcc-project-") ::
              EvCopyTree "project" (w_temp w "dcc-project-") :: t).
      rewrite Ht. cbn [trace add_events]. split; [by rewrite <- !app_assoc|].
      by repeat constructor.
    + rewrite bind_case, bind_emit. cbn [emit ret snd trace add_events].
      eexists. split.
      * rewrite Ht. cbn [trace add_events]. rewrite <- !app_assoc. cbn [app]. done.
      * exists (EvRmTree (w_temp w "dcc-project-") ::
                EvCopyTree "project" (w_temp w "dcc-project-") :: t).
        split; [done|by repeat constructor].
Qed.

(** *** The warning before a source file is overwritten *)

Lemma path_exists_write_step (project_dir : string) (item : Triple * string)
    (st st' : St) (p : string) :
  files st' = write_step project_dir (files st) item ->
  path_exists w st p = true -> path_exists w st' p = true.
Proof.
  unfold path_exists, write_step. intros -> [Hin|Hw]%orb_true_iff.
  - apply bool_decide_eq_true in Hin. rewrite bool_decide_eq_true_2; [done|].
    rewrite dom_insert. set_solver.
  - by rewrite Hw, orb_true_r.
Qed.

Lemma forM_write_warns (project_dir : string) (T : Triple) (code : string)
    (items : list (Triple * string)) : forall st,
  (T, code) ∈ items ->
  path_exists w st (cpp_path project_dir T) = true ->
  LogWarning ("Overwrite file " +:+ cpp_path project_dir T +:+ " " +:+ repr_triple T)
  ∈ trace (snd (forM (write_compiled_method w (source_dir_of project_dir)) items st)).
Proof.
  induction items as [|[T' code'] items IH]; intros st Hin Hex.
  - by apply elem_of_nil in Hin.
  - cbn [forM]. rewrite bind_case.
    destruct (decide ((T', code') = (T, code))) as [[= -> ->]|Hne].
    + unfold write_compiled_method at 1. fold (cpp_path project_dir T).
      rewrite bind_exists, Hex. rewrite bind_case, emit_run. unfold open_write at 1.
      match goal with
      | |- context [forM _ items ?s] =>
          destruct (forM_write_run w project_dir items s) as [t ->]
      end.
      cbn [snd trace add_events]. apply elem_of_app. left.
      apply elem_of_app. left. apply elem_of_app. right. apply list_elem_of_here.
    + destruct (write_compiled_method_run w project_dir (T', code') st) as [t Hrun].
      rewrite Hrun. apply IH.
      * apply elem_of_cons in Hin as [?|?]; [by subst|done].
      * by apply (path_exists_write_step project_dir (T', code') st).
Qed.

Lemma write_compiled_methods_warns
    (project_dir : string) (cm : gmap Triple string) (st : St)
    (T : Triple) (code : string) :
  cm !! T = Some code ->
  path_exists w st (cpp_path project_dir T) = true ->
  LogWarning ("Overwrite file " +:+ cpp_path project_dir T +:+ " " +:+ repr_triple T)
  ∈ trace (snd (write_compiled_methods w project_dir cm st)).
Proof.
  intros HT Hex. unfold write_compiled_methods. fold (source_dir_of project_dir).
  rewrite bind_exists, bind_case.
  set (first := (if negb (path_exists w st (source_dir_of project_dir))
                 then emit (EvMakeDirs (source_dir_of project_dir))
                 else ret tt) st).
  assert (exists st0, first = (Val tt, st0) /\
            path_exists w st0 (cpp_path project_dir T) = true) as (st0 & -> & Hex0).
  { subst first. destruct (negb _); eexists; (split; [done|]); done. }
  rewrite bind_case.
  pose proof (forM_write_warns project_dir T code (w_items w cm) st0) as Hwarn.
  destruct (forM_write_run w project_dir (w_items w cm) st0) as [t Hrun].
  rewrite Hrun in Hwarn |- *. unfold open_write. cbn [snd trace] in *.
  apply elem_of_app. left. apply Hwarn; [|done].
  rewrite (w_items_perm w). by apply elem_of_map_to_list.
Qed.

(** X23. A source file that is there already is overwritten with a
    warning: when [write_compiled_methods] returns, for every compiled
    method whose source file exists when it starts, the log has the
    warning that names the file and the method, the method as Python
    prints a tuple of strings. The project directory is not empty and
    does not end with the separator, and the mangled name does not
    start with it, so that [os.path.join] puts one separator between
    the parts. *)
Theorem write_compiled_methods_warns_before_overwriting
    (project_dir : string) (cm : gmap Triple string) (st : St)
    (T : Triple) (code : string) :
  truthy project_dir = true -> endswith project_dir "/" = false ->
  startswith (jni_longname_of T) "/" = false ->
  fst (write_compiled_methods w project_dir cm st) = Val tt ->
  cm !! T = Some code ->
  path_exists w st (os_cpp_path project_dir T) = true ->
  LogWarning ("Overwrite file " +:+ os_cpp_path project_dir T +:+ " " +:+ repr_triple T)
  ∈ trace (snd (write_compiled_methods w project_dir cm st)).
Proof.
  intros Ht He Hn _ HT. rewrite (os_cpp_path_plain project_dir T) by done.
  by apply (write_compiled_methods_warns project_dir cm st T code).
Qed.

End ProjectStage.

(** *** Running the further scenarios *)

Lemma is_terminated_spec (line : string) :
  is_terminated line = true -> terminated line.
Proof.
  induction line as [|c s IH]; [done|]. cbn [is_terminated].
  destruct (Ascii.eqb_spec c "010") as [->|Hc].
  - destruct s; [|done]. intros _. by exists "".
  - intros (body & -> & Hbody)%IH. exists (String c body). split; [done|].
    unfold lf_free in *. cbn [all_chars]. rewrite Hbody, andb_true_r.
    apply negb_true_iff. by apply Ascii.eqb_neq.
Qed.

Lemma terminated_lines (ls : list string) :
  forallb is_terminated ls = true -> Forall terminated ls.
Proof.
  induction ls as [|l ls IH]; [done|]. cbn [forallb].
  intros [Hl Hls]%andb_true_iff. constructor; [by apply is_terminated_spec|by apply IH].
Qed.

Lemma until_compiled_some
    (r : Res (option (gmap Triple string * list string)) * St) :
  match fst r with Val (Some _) => true | _ => false end = true ->
  r = (Val (Some (compiled_of r, errors_of r)), snd r).
Proof. by destruct r as [[[[cm errs]|]|e] st]. Qed.

(* ===================================================================== *)
(** ** The theorems on the example *)
(* ===================================================================== *)

Import Example.

Ltac run := vm_compute; reflexivity.
Ltac holds := compute_done.
Ltac here := apply list_elem_of_In; cbn; tauto.
Ltac differs := vm_compute; discriminate.

Lemma example_run (d : DalvikVM) (cfg : string) :
  is_val (run_of d cfg) = true ->
  compile_dex (H := example_collaborators) example_options [d] (Some cfg)
  = Val (fst (result_of d cfg), snd (result_of d cfg)).
Proof. apply is_val_pair. Qed.

Lemma example_filter (d : DalvikVM) (cfg : string) :
  is_val (@new_MethodFilter example_collaborators (Some cfg) d) = true ->
  new_MethodFilter (H := example_collaborators) (Some cfg) d = Val (filter_of d cfg).
Proof. apply is_val_eq. Qed.

(** Scenario 1: [bar(I)V] has an exact rule and collides with
    [bar(I)I]; neither is compiled. *)
Lemma conflict_methods_never_compiled_witness :
  bar_v ∈ _init_conflict_methods dex /\
  should_compile example_options (filter_of dex rules) bar_v = false /\
  get_method_triple bar_v true ∉ dom (fst (result_of dex rules)).
Proof.
  assert (Hc : bar_v ∈ _init_conflict_methods dex) by holds.
  destruct (@conflict_methods_never_compiled example_collaborators
              example_options (Some rules)) as (Hsc & Hkey & _).
  split_and!.
  - exact Hc.
  - apply Hsc. holds.
  - apply (Hkey dex (fst (result_of dex rules)) (snd (result_of dex rules)));
      [apply example_run; run|exact Hc].
Defined.

(** C1 as stated fails for a package of several dex files: the first
    dex file has [bar(I)V] in its conflict set, the second defines the
    method without a rival, and the triple is a key of the dict
    [compile_dex] returns for the two. *)
Lemma conflict_across_dex_files_counterexample :
  bar_v ∈ _init_conflict_methods dex /\
  is_val (compile_dex (H := example_collaborators) example_options
            [dex; second_dex] (Some rules)) = true /\
  get_method_triple bar_v true
  ∈ dom (fst (val_or (∅, [])
                (compile_dex (H := example_collaborators) example_options
                   [dex; second_dex] (Some rules)))).
Proof. split_and!; [holds|run|holds]. Qed.

(** [baz] has an exact rule and an include rule, and a keep rule matches
    it: it is excluded. *)
Lemma should_compile_order_witness :
  any_search (_keep_filters (filter_of dex rules_keep_baz)) (full_name_of baz) = true /\
  full_name_of baz ∈ _compile_full_match (filter_of dex rules_keep_baz) /\
  should_compile example_options (filter_of dex rules_keep_baz) baz = false.
Proof.
  split_and!.
  - run.
  - holds.
  - apply (@should_compile_order example_collaborators). run.
Defined.

(** The long name matches an include rule and is not compiled. *)
Lemma long_jni_name_never_compiled_witness :
  220 < len (@jni_longname_of example_collaborators
               (get_method_triple longm true)) /\
  any_search (_compile_filters (filter_of long_dex rules_long)) (full_name_of longm) = true /\
  get_method_triple longm true ∉ dom (fst (result_of long_dex rules_long)).
Proof.
  assert (Hlong : 220 < len (@jni_longname_of example_collaborators
                               (get_method_triple longm true))) by run.
  split_and!; [exact Hlong|run|].
  apply (proj1 (@long_jni_name_never_compiled example_collaborators
                  example_options longm Hlong)
           [long_dex] (Some rules_long)
           (fst (result_of long_dex rules_long)) (snd (result_of long_dex rules_long))).
  apply example_run; run.
Defined.

(** [broken] fails in the translator; its record is in the error list
    and [baz], which comes before it, and the synthetic method, which
    comes after it, are compiled. *)
Lemma translator_failure_is_not_fatal_witness :
  error_record broken "unsupported opcode"
    ∈ snd (result_of dex rules) /\
  get_method_triple baz true ∈ dom (fst (result_of dex rules)) /\
  get_method_triple access0 true ∈ dom (fst (result_of dex rules)).
Proof.
  destruct (@translator_failure_is_not_fatal example_collaborators
              example_options [dex] (Some rules)) as [_ Hrun].
  assert (Hin : dex ∈ [dex]) by apply list_elem_of_here.
  assert (Hmf : new_MethodFilter (H := example_collaborators) (Some rules) dex
                = Val (filter_of dex rules)) by (apply example_filter; run).
  pose proof (Hrun _ _ (example_run dex rules ltac:(run)) dex (filter_of dex rules)) as Hd.
  split_and!.
  - apply (Hd broken Hin Hmf); [here|].
    split_and!; [vm_compute; discriminate|run|run].
  - apply (proj2 (Hd baz Hin Hmf ltac:(here)) "/* baz */").
    split_and!; [vm_compute; discriminate|run|run|run].
  - apply (proj2 (Hd access0 Hin Hmf ltac:(here)) "/* access$000 */").
    split_and!; [vm_compute; discriminate|run|run|run].
Defined.

(** The synthetic method carries the marker and its class does too; it
    is compiled, by its include rule. *)
Lemma annotated_methods_exclude_synthetic_native_witness :
  is_synthetic_method (Collaborators := example_collaborators) access0 = true /\
  should_compile example_options (filter_of dex rules) access0 = true /\
  (access0 ∉ annotated_methods (filter_of dex rules)) /\
  (full_name_of access0 ∈ _compile_full_match (filter_of dex rules) \/
   any_search (_compile_filters (filter_of dex rules)) (full_name_of access0) = true).
Proof.
  assert (Hmf : new_MethodFilter (H := example_collaborators) (Some rules) dex
                = Val (filter_of dex rules)) by (apply example_filter; run).
  assert (Hsyn : is_synthetic_method (Collaborators := example_collaborators) access0 = true)
    by run.
  assert (Hsc : should_compile example_options (filter_of dex rules) access0 = true) by run.
  split_and!; [exact Hsyn|exact Hsc| |];
    apply (proj2 (@annotated_methods_exclude_synthetic_native
                    example_collaborators (Some rules) dex (filter_of dex rules)
                    access0 Hmf) example_options Hsyn Hsc).
Defined.

(** [baz] has no annotation of its own; its class carries the marker. *)
Lemma class_annotation_marks_all_methods_witness :
  class_is_annotated Foo = true /\
  baz ∈ _init_annotation_methods (H := example_collaborators) dex.
Proof.
  split; [run|].
  apply (proj1 (@class_annotation_marks_all_methods example_collaborators dex Foo)).
  - apply list_elem_of_here.
  - run.
  - here.
  - run.
  - run.
Defined.

Lemma bar_body_ok : Forall item_ok bar_body.
Proof.
  unfold bar_body.
  repeat match goal with
         | |- Forall _ (_ :: _) => constructor
         | |- Forall _ [] => constructor
         | |- item_ok (Plain _) => split; [differs|run]
         | |- item_ok (Block _ _ _) => split_and!; [run| |run]
         end.
  intros l Hl. by apply elem_of_nil in Hl.
Qed.

(** The listing of the example: nothing changes when no method of it is
    compiled; when [bar] is, its header gets the modifier, the runtime
    annotation stays, and the rest of the body goes. *)
Lemma native_class_methods_rewrite_witness :
  native_class_methods listing compiled_other = listing /\
  readlines (native_class_methods listing compiled_bar) =
    listing_head ++
    [ ".method public native bar(I)V" +:+ LF;
      deprecated_start; end_annotation; end_method ] ++ listing_tail /\
  native_header bar_header (strip bar_header) =
    ".method public " +:+ ("native " +:+ "bar(I)V") +:+ LF.
Proof.
  destruct (native_class_methods_rewrite compiled_other) as (Hid & _).
  destruct (native_class_methods_rewrite compiled_bar) as (_ & Hpre & Hsel & _ & Habs).
  split_and!.
  - apply Hid. run.
  - unfold native_class_methods, listing.
    replace (readlines (writelines listing_lines)) with listing_lines by run.
    unfold listing_lines.
    rewrite (Hpre "" listing_head) by run.
    replace (fold_left class_after listing_head "") with "LFoo;" by run.
    rewrite (Hsel "LFoo;" bar_header bar_body end_method listing_tail
               ltac:(run) bar_body_ok ltac:(run)).
    run.
  - apply (Habs bar_header ".method public " LF); [run|run|split; run].
Defined.

(** C4 as stated fails: the system annotation of the compiled method
    [bar] opens an annotation block and does not name the marker, and no
    line of the block is in the listing written back. *)
Lemma annotation_block_counterexample :
  is_selected compiled_bar "LFoo;" bar_header = true /\
  throws_start ∈ readlines listing /\
  opens_annotation throws_start = true /\
  names_marker throws_start = false /\
  throws_start ∉ readlines (native_class_methods listing compiled_bar).
Proof.
  split_and!; [run|compute_done|run|run|compute_done].
Qed.

(** The listing of the application class of the example, with a locals
    directive: the call goes right after it. Without one, the lines are
    returned as they are, with the error in the log. *)
Lemma inject_init_call_spec_witness :
  inject_init_call "my.Loader" (readlines (app_listing locals)) (start rules)
  = (Val (take 3 (readlines (app_listing locals)) ++
          line_to_insert "my.Loader" ::
          drop 3 (readlines (app_listing locals))), start rules) /\
  inject_init_call "my.Loader" (readlines (app_listing nop)) (start rules)
  = (Val (readlines (app_listing nop)), add_events (start rules) [clinit_error]).
Proof.
  split.
  - pose proof (inject_init_call_spec "my.Loader" (readlines (app_listing locals)) 1
                  (start rules) ltac:(run)) as Hspec.
    replace (next_index mentions_directive 0 (drop 1 (readlines (app_listing locals))))
      with (Some 1%nat) in Hspec by run.
    destruct Hspec as (directive & _ & _ & _ & Hrun). exact Hrun.
  - pose proof (inject_init_call_spec "my.Loader" (readlines (app_listing nop)) 1
                  (start rules) ltac:(run)) as Hspec.
    replace (next_index mentions_directive 0 (drop 1 (readlines (app_listing nop))))
      with (@None nat) in Hspec by run.
    exact (proj1 Hspec).
Defined.

(** C5 as stated fails: the static initializer of the application class
    has no locals or registers directive, and the run does not abort. It
    logs the error, goes on to rebuild and sign the package, and
    returns. *)
Lemma missing_directive_counterexample :
  next_index mentions_clinit 0 (readlines (app_listing nop)) = Some 1%nat /\
  next_index mentions_directive 0 (drop 1 (readlines (app_listing nop))) = None /\
  fst (run_main false [dex] libs nop rules) = Val tt /\
  clinit_error ∈ trace (snd (run_main false [dex] libs nop rules)) /\
  EvApktoolCompile decompiled_dir "t/-unsigned.apk"
    ∈ trace (snd (run_main false [dex] libs nop rules)) /\
  EvSign "t/-unsigned.apk" "out.apk" ∈ trace (snd (run_main false [dex] libs nop rules)).
Proof.
  split_and!; [run|run|run|compute_done|compute_done|compute_done].
Qed.

(** The package of the example has libraries under the deprecated name
    and under [x86]; with one under [mips] besides, the reconciliation
    raises. *)
Lemma adjust_application_mk_reconciles_witness :
  (exists n, n ∈ mips_libs /\ lib_entry n = true /\ abi_accepted n = false /\
     fst (adjust_application_mk (world [dex] mips_libs locals) "app.apk" (start rules))
     = Raise (unsupported_abi (abi_name_of n))) /\
  run_main true [dex] mips_libs locals rules = run_main true [dex] libs locals rules /\
  deprecated_warning
    ∈ trace (snd (adjust_application_mk (world [dex] libs locals) "app.apk" (start rules))) /\
  (exists text order,
     files (start rules) !! application_mk_path = Some text /\
     order ≡ₚ elements (reconciled libs) /\
     files (snd (adjust_application_mk (world [dex] libs locals) "app.apk" (start rules)))
       !! application_mk_path
     = Some (writelines
               (map (fun line =>
                       if startswith line "APP_ABI"
                       then "APP_ABI := " +:+ join " " order +:+ LF
                       else line)
                    (readlines text)))).
Proof.
  destruct (adjust_application_mk_reconciles (H := example_collaborators)
              (world [dex] mips_libs locals) "app.apk" mips_libs (start rules)
              ltac:(run) eq_refl) as (Hraise & _).
  destruct (adjust_application_mk_reconciles (H := example_collaborators)
              (world [dex] libs locals) "app.apk" libs (start rules)
              ltac:(run) eq_refl) as (_ & Hforce & Hwarn & Hwrite & _).
  assert (Hval : fst (adjust_application_mk (world [dex] libs locals) "app.apk" (start rules))
                 = Val tt) by run.
  split_and!.
  - apply Hraise. exists "lib/mips/libfoo.so". split_and!; [left|run|run].
  - unfold run_main.
    change (world [dex] mips_libs locals)
      with (with_namelist (world [dex] libs locals) (Val mips_libs)).
    by rewrite Hforce.
  - apply (Hwarn Hval "lib/armeabi/libfoo.so"); [compute_done|run|run].
  - apply (Hwrite Hval).
    + assert (Hin : "x86" ∈ reconciled libs) by compute_done.
      intros Heq. rewrite Heq in Hin. by apply not_elem_of_empty in Hin.
    + compute_done.
Defined.

(** The shape of a run up to the return of [compile_dex], read off its
    result by computation. *)
Lemma until_compiled_empty
    (r : Res (option (gmap Triple string * list string)) * St) (errors : list string) :
  match fst r with
  | Val (Some (cm, errs)) =>
      bool_decide (size cm = 0%nat) && bool_decide (errs = errors)
  | _ => false
  end = true ->
  r = (Val (Some (∅, errors)), snd r).
Proof.
  destruct r as [[[[cm errs]|]|e] st]; cbn; try done.
  intros [Hcm Herr]%andb_true_iff.
  apply bool_decide_eq_true in Hcm, Herr. apply map_size_empty_iff in Hcm.
  by subst.
Qed.

(** The only rule of the rule file selects the method the translator
    fails on: the failure is reported, the message follows, and the run
    is over. *)
Lemma no_methods_compiled_returns_witness :
  run_main false [plain_dex] libs locals ("broken" +:+ LF)
  = (Val tt,
     add_events
       (snd (dcc_main_until_compiled (H := example_collaborators)
               (world [plain_dex] libs locals) example_options
               "app.apk" "filter.txt" "my.Loader" "out.apk"
               (start ("broken" +:+ LF))))
       (error_report ["LFoo;broken()V:unsupported opcode"] ++ [no_methods_message])).
Proof.
  apply (no_methods_compiled_returns (H := example_collaborators)).
  apply until_compiled_empty. run.
Defined.

(* ===================================================================== *)
(** ** The further theorems on the example *)
(* ===================================================================== *)

Import Scenario.

(** A comment between an include rule and a keep rule. *)
Lemma rule_file_comments_ignored_witness :
  is_comment_line ("# rules" +:+ LF) = true /\
  load_filter_lines (H := example_collaborators) no_rules
    (["baz" +:+ LF] ++ ("# rules" +:+ LF) :: ["!never" +:+ LF])
  = load_filter_lines no_rules (["baz" +:+ LF] ++ ["!never" +:+ LF]).
Proof.
  split; [run|].
  apply (@rule_file_comments_ignored example_collaborators). run.
Defined.

(** The rule file of the example: three include rules, one keep rule
    and one exact name. *)
Lemma rule_file_rules_in_order_witness :
  Forall2 (fun r p => re_compile (Collaborators := example_collaborators) p = Some r)
    (r_keep_filters rules_loaded) (omap keep_rule (readlines rules)) /\
  Forall2 (fun r p => re_compile (Collaborators := example_collaborators) p = Some r)
    (r_compile_filters rules_loaded) (omap include_rule (readlines rules)) /\
  (forall x,
     x ∈ r_compile_full_match rules_loaded <->
     exists line, line ∈ readlines rules /\ exact_rule line = Some x).
Proof.
  apply (@rule_file_rules_in_order example_collaborators (readlines rules)
           rules_loaded).
  run.
Defined.

(** The second line of the rule file has a pattern that does not
    compile. *)
Lemma bad_pattern_aborts_compile_dex_witness :
  compile_dex (H := picky_collaborators) example_options [dex] (Some bad_rules)
  = Raise (ReError "(") /\
  compile_dex (H := picky_collaborators) example_options [] (Some bad_rules)
  = Val (∅, []).
Proof.
  destruct (@bad_pattern_aborts_compile_dex picky_collaborators example_options
              ["baz" +:+ LF] ("!(" +:+ LF) ["bar" +:+ LF]
              rules_before_bad
              "(" bad_rules ltac:(run) ltac:(run) ltac:(run) ltac:(run))
    as (_ & Hdex & Hnone).
  split; [apply Hdex|exact Hnone].
Defined.

(** [nat0] is native; the overload [nat0(I)V] has an exact rule and is
    not selected. *)
Lemma native_overloads_never_compiled_witness :
  full_name_of nat0_int ∈ _compile_full_match (filter_of dex rules_nat) /\
  should_compile example_options (filter_of dex rules_nat) nat0_int = false.
Proof.
  split; [holds|].
  apply (proj2 (@native_overloads_never_compiled example_collaborators dex)
           example_options (Some rules_nat) (filter_of dex rules_nat) nat0 nat0_int).
  - apply example_filter. run.
  - here.
  - holds.
  - reflexivity.
  - reflexivity.
Defined.

(** Without a rule file [baz] is compiled, for the marker of its class. *)
Lemma no_rule_file_only_annotated_witness :
  exists d m, d ∈ [dex] /\ m ∈ vm_methods d /\
    get_method_triple m true = get_method_triple baz true /\
    m ∈ _init_annotation_methods (H := example_collaborators) d.
Proof.
  apply (proj2 (@no_rule_file_only_annotated example_collaborators
                  example_options [dex])
           (fst (val_or (∅, []) (compile_dex (H := example_collaborators)
                                   example_options [dex] None)))
           (snd (val_or (∅, []) (compile_dex (H := example_collaborators)
                                   example_options [dex] None)))).
  - apply is_val_pair. run.
  - holds.
Defined.

(** The static initializer has an exact rule and is not compiled. *)
Lemma static_initializer_never_compiled_witness :
  full_name_of clinit ∈ _compile_full_match (filter_of clinit_dex rules_clinit) /\
  ("LFoo;", "<clinit>", "()V") ∉ dom (fst (result_of clinit_dex rules_clinit)).
Proof.
  split; [holds|].
  apply (@static_initializer_never_compiled example_collaborators example_options
           [clinit_dex] (Some rules_clinit) _ (snd (result_of clinit_dex rules_clinit))).
  apply example_run. run.
Defined.

(** [baz] is in both dex files, and the source of the second stands. *)
Lemma compile_dex_last_translation_stands_witness :
  fst (val_or (∅, [])
         (compile_dex (H := tagging_collaborators) example_options
            [plain_dex; small_dex] (Some rules_baz)))
    !! get_method_triple baz true
  = Some "/* baz of classes2 */".
Proof.
  apply (proj2 (@compile_dex_last_translation_stands tagging_collaborators
                  example_options [plain_dex; small_dex] (Some rules_baz) _
                  (snd (val_or (∅, [])
                          (compile_dex (H := tagging_collaborators) example_options
                             [plain_dex; small_dex] (Some rules_baz))))
                  ltac:(apply is_val_pair; run))
           [(get_method_triple baz true, "/* baz of classes */")]
           (get_method_triple baz true) "/* baz of classes2 */" []).
  - run.
  - apply not_elem_of_nil.
Defined.

(** Two failures in one dex file give three records. *)
Lemma compile_dex_errors_repeat_witness :
  snd (result_of two_broken rules_broken)
  = [ "LFoo;broken()V:unsupported opcode";
      "LFoo;broken()V:unsupported opcode";
      "LFoo;broken(I)V:unsupported opcode" ].
Proof.
  rewrite (proj1 (@compile_dex_errors_repeat example_collaborators example_options
                    [two_broken] (Some rules_broken) _ _
                    (example_run two_broken rules_broken ltac:(run)))).
  run.
Defined.

Lemma listing_segments_ok : segments_ok compiled_bar "" listing_segments.
Proof.
  cbn [listing_segments segments_ok].
  split_and!; [run|run|apply bar_body_ok|run|run|done].
Qed.

(** The listing of the example, with [bar] compiled. *)
Lemma native_class_methods_by_segments_witness :
  native_class_methods listing compiled_bar
  = writelines
      (listing_head ++
       [ ".method public native bar(I)V" +:+ LF;
         deprecated_start; end_annotation; end_method ] ++ listing_tail).
Proof.
  rewrite (native_class_methods_by_segments compiled_bar listing listing_segments
             ltac:(run) listing_segments_ok).
  run.
Defined.

Lemma listing_headers_ok : Forall header_ok listing_segments.
Proof.
  constructor; [exact I|]. constructor; [|constructor; [exact I|constructor]].
  right. exists "", ".method public", "bar(I)V", LF.
  unfold occurs_once. split_and!; run.
Qed.

(** Patching the patched listing of the example changes nothing. *)
Lemma native_class_methods_idempotent_witness :
  native_class_methods (native_class_methods listing compiled_bar) compiled_bar
  = native_class_methods listing compiled_bar.
Proof.
  apply (native_class_methods_idempotent compiled_bar listing listing_segments).
  - run.
  - apply listing_segments_ok.
  - apply listing_headers_ok.
  - apply terminated_lines. run.
Defined.

(** The listing of [Foo] is patched: it is a file of the decompiled
    package, under the entry [smali]. *)
Lemma native_compiled_dexes_touches_only_listings_witness :
  foo_listing_path ∈ dom (files decompiled) /\
  exists classes T,
    classes ∈ w_listdir (world [dex] libs locals) decompiled_dir /\
    0 <= find classes "smali" /\ T ∈ dom compiled_bar /\
    foo_listing_path = smali_path_of decompiled_dir classes T.
Proof.
  apply (native_compiled_dexes_touches_only_listings (world [dex] libs locals)
           decompiled_dir compiled_bar decompiled foo_listing_path).
  differs.
Defined.

(** The module name is the one of the line on the file name. *)
Lemma read_local_module_first_line_witness :
  read_local_module android_mk_lines = Val (Some "libfoo").
Proof.
  apply (proj1 (proj2 read_local_module_first_line
                  ["LOCAL_PATH := $(call my-dir)" +:+ LF]
                  ("LOCAL_MODULE_FILENAME := libfoo" +:+ LF)
                  ["LOCAL_MODULE := nc" +:+ LF]
                  ltac:(intros l ->%list_elem_of_singleton; run) ltac:(run))
           "LOCAL_MODULE_FILENAME " (" libfoo" +:+ LF)).
  - run.
  - run.
Defined.

(** Both ABI directories of the package get a library. *)
Lemma copy_compiled_libs_serves_every_abi_witness :
  exists src,
    EvCopyFile src (path_join (path_join "dec" "lib") "armeabi")
    ∈ trace (snd (copy_compiled_libs lib_world example_options "proj" "dec"
                    (start rules))).
Proof.
  apply (copy_compiled_libs_serves_every_abi lib_world example_options
           "proj" "dec" (start rules)
           ltac:(run) ltac:(run) ltac:(run) ltac:(run) "armeabi").
  holds.
Defined.

(** Two methods of [Foo] are compiled: the listing of [Foo] is patched
    twice, both passes write the same text, and the listing is left as
    one pass leaves it. *)
Lemma native_compiled_dexes_one_pass_witness :
  List.filter (path_exists (world [dex] libs locals) decompiled)
    (listing_candidates (world [dex] libs locals) decompiled_dir compiled_two)
  = [foo_listing_path; foo_listing_path] /\
  fst (native_compiled_dexes (world [dex] libs locals) decompiled_dir
         compiled_two decompiled) = Val tt /\
  trace (snd (native_compiled_dexes (world [dex] libs locals) decompiled_dir
                compiled_two decompiled))
  = trace decompiled ++
    (List.filter (path_exists (world [dex] libs locals) decompiled)
       (listing_candidates (world [dex] libs locals) decompiled_dir compiled_two)
     ≫= patch_events (files decompiled) compiled_two) /\
  forall p text,
    p ∈ listing_candidates (world [dex] libs locals) decompiled_dir compiled_two ->
    files decompiled !! p = Some text ->
    files (snd (native_compiled_dexes (world [dex] libs locals) decompiled_dir
                  compiled_two decompiled)) !! p
    = Some (native_class_methods text compiled_two).
Proof.
  split; [run|].
  apply native_compiled_dexes_one_pass.
  intros p Hp _.
  replace (listing_candidates (world [dex] libs locals) decompiled_dir compiled_two)
    with [foo_listing_path; foo_listing_path] in Hp by run.
  assert (p = foo_listing_path) as ->.
  { repeat (apply elem_of_cons in Hp as [->|Hp]; [done|]).
    by apply elem_of_nil in Hp. }
  exists listing. split; run.
Defined.

(** A loader without a package is refused. *)
Lemma dcc_main_refuses_bad_arguments_witness :
  exists msg,
    dcc_main (H := example_collaborators) (world [dex] libs locals) example_options
      "app.apk" "filter.txt" "Loader" "out.apk" true "" "project-source.zip"
      (start rules)
    = (Val tt, add_events (start rules) [LogError msg]).
Proof.
  apply (@dcc_main_refuses_bad_arguments example_collaborators).
  right. right. run.
Defined.

(** With the default loader the bootstrap source of the example is
    written back as it was read. *)
Lemma default_loader_keeps_bootstrap_source_witness :
  exists t,
    trace (snd (dcc_main (H := example_collaborators) (world [dex] libs locals)
                  example_options "app.apk" "filter.txt" default_loader "out.apk"
                  true "" "project-source.zip" (start rules)))
    = trace (start rules) ++
      EvWriteFile dex2c_cpp_path ("Java_amimo_dcc_DccApplication_init" +:+ LF) :: t.
Proof.
  apply (@default_loader_keeps_bootstrap_source example_collaborators).
  - run.
  - done.
  - run.
Defined.

(** A dex file as input. *)
Lemma dcc_main_rejects_non_apk_witness :
  fst (dcc_main (H := example_collaborators) (world [dex] libs locals)
         example_options "classes.dex" "filter.txt" "my.Loader" "out.apk"
         true "" "project-source.zip" start_dex)
  = Raise (Exception ("classes.dex" +:+ " is not an apk file")) /\
  exists data',
    trace (snd (dcc_main (H := example_collaborators) (world [dex] libs locals)
                  example_options "classes.dex" "filter.txt" "my.Loader" "out.apk"
                  true "" "project-source.zip" start_dex))
    = trace start_dex ++ [EvWriteFile dex2c_cpp_path data'; adjusting] /\
    files (snd (dcc_main (H := example_collaborators) (world [dex] libs locals)
                  example_options "classes.dex" "filter.txt" "my.Loader" "out.apk"
                  true "" "project-source.zip" start_dex))
    = <[dex2c_cpp_path := data']> (files start_dex).
Proof.
  apply (@dcc_main_rejects_non_apk example_collaborators (world [dex] libs locals)
           example_options "classes.dex" "filter.txt" "my.Loader" "out.apk"
           true "" "project-source.zip" start_dex
           ("Java_amimo_dcc_DccApplication_init" +:+ LF)).
  - run.
  - done.
  - differs.
  - run.
  - reflexivity.
  - run.
Defined.

Lemma failing_run_compiles :
  failing_run
  = (Val (Some (compiled_of failing_run, errors_of failing_run)), snd failing_run).
Proof. apply until_compiled_some. run. Qed.

Lemma failing_run_some : compiled_of failing_run <> ∅.
Proof.
  apply (bool_decide_eq_false_1 (compiled_of failing_run = ∅)). run.
Qed.

(** The native build of the example fails. *)
Lemma build_failure_stops_the_run_witness :
  fst (dcc_main (H := example_collaborators) failing_build_world example_options
         "app.apk" "filter.txt" "my.Loader" "out.apk" true "" "project-source.zip"
         (start rules))
  = Raise (CalledProcessError "ndk-build") /\
  exists t,
    trace (snd (dcc_main (H := example_collaborators) failing_build_world
                  example_options "app.apk" "filter.txt" "my.Loader" "out.apk"
                  true "" "project-source.zip" (start rules)))
    = trace (snd failing_run)
      ++ t ++ [EvNdkBuild (working_project_dir failing_build_world "")] /\
    Forall (fun e => repackaging e = false) t.
Proof.
  apply (@build_failure_stops_the_run example_collaborators failing_build_world
           example_options "app.apk" "filter.txt" "my.Loader" "out.apk"
           "" "project-source.zip" (start rules)
           (snd failing_run) (compiled_of failing_run) (errors_of failing_run)
           failing_run_compiles failing_run_some eq_refl).
Defined.

(** The source file of [bar] is there already. *)
Lemma write_compiled_methods_warns_before_overwriting_witness :
  LogWarning ("Overwrite file " +:+ os_cpp_path (H := example_collaborators) "p" bar_triple
              +:+ " " +:+ repr_triple bar_triple)
  ∈ trace (snd (write_compiled_methods (H := example_collaborators)
                  (world [dex] libs locals) "p" compiled_bar start_again)).
Proof.
  apply (@write_compiled_methods_warns_before_overwriting example_collaborators
           (world [dex] libs locals) "p" compiled_bar start_again bar_triple
           "/* bar */"); run.
Defined.

(** The source file and the list for the one compiled method [bar]. *)
Lemma write_compiled_methods_files_witness :
  (forall T code, compiled_bar !! T = Some code ->
     (forall T', T' ∈ dom compiled_bar ->
        jni_longname_of (H := example_collaborators) T'
        = jni_longname_of (H := example_collaborators) T -> T' = T) ->
     files (snd (write_compiled_methods (H := example_collaborators)
                   (world [dex] libs locals) "p" compiled_bar (start rules)))
       !! os_cpp_path (H := example_collaborators) "p" T = Some (cpp_text code)) /\
  (exists order, order ≡ₚ (map_to_list compiled_bar).*1 /\
     files (snd (write_compiled_methods (H := example_collaborators)
                   (world [dex] libs locals) "p" compiled_bar (start rules)))
       !! os_method_list_path "p"
     = Some (join LF (join_triple <$> order))) /\
  (forall p,
     files (snd (write_compiled_methods (H := example_collaborators)
                   (world [dex] libs locals) "p" compiled_bar (start rules))) !! p
     <> files (start rules) !! p ->
     p = os_method_list_path "p" \/
     exists T, T ∈ dom compiled_bar /\
       p = os_cpp_path (H := example_collaborators) "p" T).
Proof.
  apply (@write_compiled_methods_files example_collaborators
           (world [dex] libs locals) "p" compiled_bar (start rules)).
  - run.
  - run.
  - intros T HT. unfold compiled_bar in HT. rewrite dom_singleton in HT.
    apply elem_of_singleton in HT as ->. run.
  - run.
Defined.

(** The directory of the package of the loader exists under the listing
    tree. *)
Lemma repackage_needs_a_fresh_loader_directory_witness :
  never_returns (repackage (H := example_collaborators) occupied_world
                   example_options "app.apk" "my.Loader" "out.apk" "p" compiled_bar) /\
  emits_only (fun e => negb (packing e))
    (repackage (H := example_collaborators) occupied_world
       example_options "app.apk" "my.Loader" "out.apk" "p" compiled_bar).
Proof.
  apply (@repackage_needs_a_fresh_loader_directory example_collaborators).
  - differs.
  - right. exists "smali". split; run.
Defined.

(** A package with a dex file and a manifest only. *)
Lemma adjust_application_mk_without_libraries_witness :
  adjust_application_mk (world [dex] no_libs locals) "app.apk" (start rules)
  = (Val tt,
     add_events (start rules)
       [adjusting;
        LogInfo "No lib abis found in apk, using the ones defined in Application.mk file"]).
Proof.
  apply (adjust_application_mk_without_libraries (world [dex] no_libs locals)
           "app.apk" no_libs (start rules)).
  - run.
  - reflexivity.
  - intros n Hn. unfold no_libs in Hn.
    repeat (apply elem_of_cons in Hn as [->|Hn]; [run|]).
    by apply elem_of_nil in Hn.
Defined.

(** An entry of the package of the example. *)
Lemma lib_entry_names_an_abi_witness :
  exists a rest,
    split "/" "lib/x86/libfoo.so" = "lib" :: a :: rest /\
    abi_name_of "lib/x86/libfoo.so" = strip a.
Proof. apply lib_entry_names_an_abi. run. Defined.

(** The project has no library under the deprecated name, and has the
    library of the module under the modern one. *)
Lemma armeabi_directory_gets_v7a_library_witness :
  fst (copy_lib lib_world example_options "proj/libs" "dec/lib" "armeabi"
         (start rules)) = Val tt /\
  trace (snd (copy_lib lib_world example_options "proj/libs" "dec/lib" "armeabi"
                (start rules)))
  = trace (start rules) ++
    [LogWarning "Use armeabi-v7a for armeabi";
     EvCopyFile "proj/libs/armeabi-v7a/libnc.so" "dec/lib/armeabi"].
Proof.
  apply (armeabi_directory_gets_v7a_library lib_world
           example_options "proj/libs" "dec/lib" (start rules)
           ("LOCAL_MODULE := nc" +:+ LF) "nc"); run.
Defined.

(** The listing of the example has no static initializer. *)
Lemma inject_init_call_appends_initializer_witness :
  inject_init_call "my.Loader" (readlines listing) (start rules)
  = (Val (readlines listing ++ [code_block_to_append "my.Loader"]), start rules) /\
  mentions_clinit (code_block_to_append "my.Loader") = true /\
  mentions_directive (code_block_to_append "my.Loader") = true /\
  contains (line_to_insert "my.Loader") (code_block_to_append "my.Loader") = true.
Proof.
  apply inject_init_call_appends_initializer. run.
Defined.

